(** * The per-folder dirty block engine of libkbfs ([folder_block_ops.go])

    A shallow embedding of [folderBlockOps]: the engine's own fields are
    modelled concretely, the collaborators it reaches through Go interfaces
    ([DirtyBlockCache], [BlockCache], [BlockOps], [NodeCache], the file and
    directory data adapters, [dirtyFile], [syncOp]) are the fields of the
    [Config] class, and every method is a computation in a state monad whose
    outcome is either a return or a Go panic. *)

From stdpp Require Import gmap strings list fin_maps.
From Stdlib Require Import ZArith Lia.

Local Open Scope Z_scope.

(** ** Constants and enumerations (lines 22-57) *)

Inductive overallBlockState := cleanState | dirtyState.

(** [blockReqType] is a Go [int]; the four named values are [iota] constants
    and the [switch] statements have a [default] arm for any other value. *)
Definition blockReqType := Z.
Definition blockRead : blockReqType := 0.
Definition blockWrite : blockReqType := 1.
Definition blockReadParallel : blockReqType := 2.
Definition blockLookup : blockReqType := 3.

Definition numBlockSizeWorkersMax : Z := 50.
Definition truncateExtendCutoffPoint : Z := 128 * 1024.

(** ** Machine integers *)

Definition wrap64 (z : Z) : Z := z mod 2 ^ 64.
(** Go's conversion to [int64]: two's complement reinterpretation. *)
Definition int64 (z : Z) : Z := (z + 2 ^ 63) mod 2 ^ 64 - 2 ^ 63.
Definition uint64 (z : Z) : Z := wrap64 z.
Definition is_uint32 (z : Z) : Prop := 0 <= z < 2 ^ 32.
Definition is_uint64 (z : Z) : Prop := 0 <= z < 2 ^ 64.
Definition is_int64 (z : Z) : Prop := - 2 ^ 63 <= z < 2 ^ 63.

(** ** Block pointers *)

(** Modelled from the spec: the declaration of [BlockPointer] is not in this
    file.  Section 3: "an opaque ID, a key-generation, a data-version, a
    direct/indirect discriminator, a ref-nonce, and a context (creator
    identity, usage class).  Two pointers are equal iff all fields match; a
    BlockRef is the (ID, ref-nonce) pair". *)
Record BlockRef := mkBlockRef { refID : N; refNonce : N }.

Record BlockPointer := mkBlockPointer {
  ID : N;
  KeyGen : Z;
  DataVer : Z;
  DirectType : N;
  RefNonce : N;
  Creator : N;
  Usage : N
}.

Definition Ref (p : BlockPointer) : BlockRef := mkBlockRef (ID p) (RefNonce p).
Definition zeroPtr : BlockPointer := mkBlockPointer 0 0 0 0 0 0 0.

#[global] Instance BlockRef_eq_dec : EqDecision BlockRef.
Proof. solve_decision. Defined.

#[global] Instance BlockRef_countable : Countable BlockRef.
Proof.
  refine (inj_countable' (fun r => (refID r, refNonce r))
            (fun t => mkBlockRef t.1 t.2) _).
  by intros [].
Defined.

#[global] Instance BlockPointer_eq_dec : EqDecision BlockPointer.
Proof. solve_decision. Defined.

#[global] Instance BlockPointer_countable : Countable BlockPointer.
Proof.
  refine (inj_countable'
            (fun p => (ID p, KeyGen p, DataVer p, DirectType p, RefNonce p,
                       Creator p, Usage p))
            (fun t => match t with
                      | (a, b, c, d, e, f, g) => mkBlockPointer a b c d e f g
                      end) _).
  by intros [].
Defined.

Record BlockInfo := mkBlockInfo {
  biPointer : BlockPointer;
  EncodedSize : Z
}.

Inductive EntryType := File | Exec | Dir | Sym.

#[global] Instance EntryType_eq_dec : EqDecision EntryType.
Proof. solve_decision. Defined.

Record DirEntry := mkDirEntry {
  deInfo : BlockInfo;
  deType : EntryType;
  deSize : Z;
  Mtime : Z;
  Ctime : Z;
  SymPath : string
}.

Definition dePointer (de : DirEntry) : BlockPointer := biPointer (deInfo de).
Definition deRef (de : DirEntry) : BlockRef := Ref (dePointer de).
Definition zeroDirEntry : DirEntry :=
  mkDirEntry (mkBlockInfo zeroPtr 0) File 0 0 0 "".

(** ** Paths *)

Record pathNode := mkPathNode { pnPointer : BlockPointer; pnName : string }.

#[global] Instance pathNode_eq_dec : EqDecision pathNode.
Proof. solve_decision. Defined.

(** Modelled from the spec: the declaration of [path] is not in this file.
    A path is a folder-branch and the list of nodes from the root; its tail
    accessors index the last node, which a Go slice does with a run-time
    bounds check, so they are partial here. *)
Record path := mkPath {
  Tlf : N;
  Branch : string;
  pathNodes : list pathNode
}.

Definition tailPointer (p : path) : option BlockPointer :=
  pnPointer <$> last (pathNodes p).
Definition tailRef (p : path) : option BlockRef := Ref <$> tailPointer p.
Definition tailName (p : path) : option string := pnName <$> last (pathNodes p).

(** ** Errors *)

(** The errors this file constructs itself, and [ExternalError] for those
    that come back from a collaborator.  [errors.WithStack] and
    [errors.Cause] only add and strip a stack trace and are the identity
    here. *)
Inductive Error :=
  | InvalidBlockRefError (r : BlockRef)
  | NotFileBlockError (ptr : BlockPointer) (branch : string) (p : path)
  | NotDirBlockError (ptr : BlockPointer) (branch : string) (p : path)
  | InvalidPathError (p : path)
  | InvalidParentPathError (p : path)
  | NoSuchNameError (name : string)
  | WriteAccessError (who : string) (p : path)
  | NoSyncOpError (r : BlockRef)
  | RootPathNotFoundError
  | ExternalError (code : N).

(** A Go result pair [(v, err)] in which [v] is the zero value whenever
    [err] is not nil. *)
Inductive res (A : Type) :=
  | Ok (a : A)
  | Err (e : Error).
Arguments Ok {A} a.
Arguments Err {A} e.

(** ** Blocks *)

Record CommonBlock := mkCommonBlock {
  IsInd : bool;
  cachedEncodedSize : Z
}.

Record IndirectFilePtr := mkIndirectFilePtr {
  ipInfo : BlockInfo;
  ipOff : Z;
  Holes : bool
}.

Record FileBlock := mkFileBlock {
  fbCommon : CommonBlock;
  Contents : list Byte.byte;
  IPtrs : list IndirectFilePtr
}.

Record DirBlock := mkDirBlock {
  dbCommon : CommonBlock;
  Children : list (string * DirEntry)
}.

(** The [Block] interface with its three implementations. *)
Inductive Block :=
  | BFile (fb : FileBlock)
  | BDir (db : DirBlock)
  | BCommon (cb : CommonBlock).

Definition GetEncodedSize (b : Block) : Z :=
  match b with
  | BFile fb => cachedEncodedSize (fbCommon fb)
  | BDir db => cachedEncodedSize (dbCommon db)
  | BCommon cb => cachedEncodedSize cb
  end.

Definition NewFileBlock : Block := BFile (mkFileBlock (mkCommonBlock false 0) [] []).
Definition NewDirBlock : Block := BDir (mkDirBlock (mkCommonBlock false 0) []).
Definition NewCommonBlock : Block := BCommon (mkCommonBlock false 0).

(** Go hands blocks around as pointers, so two holders of a [*FileBlock]
    see each other's writes and a [DeepCopy] is a different object.  Blocks
    therefore live in a store and are named by their address. *)
Definition addr := positive.
Definition blockStore := gmap addr Block.

Definition alloc (h : blockStore) (b : Block) : addr * blockStore :=
  let a := fresh (dom h) in (a, <[a := b]> h).

(** ** Engine records (lines 59-140) *)

Definition chanId := nat.
Definition siAddr := positive.

Record WriteRange := mkWriteRange { Off : Z; Len : Z }.

Record blockState := mkBlockState { blockPtr : BlockPointer }.
Record blockPutState := mkBlockPutState { blockStates : list blockState }.

(** The two closures that [Write] (lines 2024-2036) and [Truncate] (lines
    2246-2258) queue in [deferredState.writes], with the variables each one
    captures. *)
Inductive deferredOp :=
  | DeferredWrite (filePath : path) (dataCopy : list Byte.byte) (off : Z)
      (newlyDirtiedChildBytes : Z)
  | DeferredTruncate (filePath : path) (size : Z) (newlyDirtiedChildBytes : Z).

Record deferredState := mkDeferredState {
  writes : list deferredOp;
  dirtyDeletes : list BlockPointer;
  waitBytes : Z
}.

Definition zeroDeferredState : deferredState := mkDeferredState [] [] 0.

(** What an operation's [lockState] token records about [blockLock].
    Modelled from the spec: the lock itself is not in this file.  Section
    4.1: "The token records which hold levels (R or W) the calling operation
    currently owns, enabling assertions such as must hold at least R, must
    hold W, must not hold"; a failed assertion is a programmer error, "fatal
    process abort" (section 7). *)
Inductive lockHold := NotHeld | HeldR | HeldW.

(** A [*lockState] argument: nil, or the operation's token. *)
Inductive lockStateRef := lsNil | lsTok.

(** ** Outcomes *)

(** A Go call either returns, leaving a state behind, or panics.
    [OutOfFuel] is not an outcome of the program: it marks a recursion of
    the model that was cut off. *)
Inductive outcome (S A : Type) :=
  | Ret (a : A) (s : S)
  | Panic (msg : string)
  | OutOfFuel.
Arguments Ret {S A} a s.
Arguments Panic {S A} msg.
Arguments OutOfFuel {S A}.

Inductive blockDeleteType := blockDeleteAlways | blockDeleteOnMDFail.

#[global] Instance blockDeleteType_eq_dec : EqDecision blockDeleteType.
Proof. solve_decision. Defined.

Record Session := mkSession { sessName : string; sessUID : N; sessKey : N }.

(** What [fd.write], [fd.truncateShrink] and [fd.truncateExtend] hand
    back.  Unlike [res], every component is meaningful next to a non-nil
    [err]. *)
Record fdWriteResult := mkFdWriteResult {
  wNewDe : DirEntry;
  wDirtyPtrs : list BlockPointer;
  wUnrefs : list BlockInfo;
  wNewlyDirtiedChildBytes : Z;
  wBytesExtended : Z;
  wErr : option Error
}.

Record fdShrinkResult := mkFdShrinkResult {
  tNewDe : DirEntry;
  tDirtyPtrs : list BlockPointer;
  tUnrefs : list BlockInfo;
  tNewlyDirtiedChildBytes : Z;
  tErr : option Error
}.

(** One [parentBlockAndChildIndex]: the parent block and the index of the
    child pointer followed in it. *)
Record parentBlockAndChildIndex := mkParent { pblock : addr; childIndex : Z }.

Record blockAtOffset := mkBlockAtOffset {
  oPtr : BlockPointer;
  oParentBlocks : list parentBlockAndChildIndex;
  oBlock : addr;
  oNextBlockOff : Z;
  oStartOff : Z;
  oWasDirty : bool
}.

Section Engine.

(** The collaborators' state: [W] holds the caches, the block server, the
    prefetcher, the journal and the clock; [DF] is a [dirtyFile]'s own
    state, [NC] a node cache, [Node] a node handle, [SO] a [syncOp], [KMD]
    and [MD] the metadata objects the caller passes in. *)
Context {W DF NC Node SO KMD MD : Type}.

(** A [dirtyFile] and the listener channels registered on it.  Modelled
    from the spec: [dirtyFile] is not in this file.  Section 3: a DirtyFile
    holds "a channel of error listeners"; section 7: "A blocked Write learns
    about an eventual sync failure via its subscribed listener channel". *)
Record dirtyFile := mkDirtyFile {
  errListeners : list chanId;
  dfState : DF
}.

Record mdToCleanIfUnused := mkMdToClean {
  tcMd : MD;
  tcBps : option blockPutState
}.

Record syncInfo := mkSyncInfo {
  oldInfo : BlockInfo;
  op : option SO;
  unrefs : list BlockInfo;
  bps : option blockPutState;
  refBytes : Z;
  unrefBytes : Z;
  toCleanIfUnused : list mdToCleanIfUnused
}.

(** The part of the engine that the data adapters reach through the getter
    and cacher closures they are built with ([newFileData], lines 1706-1724,
    [newDirDataLocked], lines 914-932): the lock token, [dirtyFiles],
    [doDeferWrite], the blocks themselves and the collaborators. *)
Record Shared := mkShared {
  holds : lockHold;
  dirtyFiles : gmap BlockPointer dirtyFile;
  doDeferWrite : bool;
  blocks : blockStore;
  ext : W
}.

(** [folderBlockOps] (lines 197-239).  [unrefCache] holds [*syncInfo]
    pointers, which [fileSyncState.si] aliases, so the [syncInfo] objects
    live in their own store. *)
Record State := mkState {
  shared : Shared;
  folderTlf : N;
  folderBranch : string;
  syncInfos : gmap siAddr syncInfo;
  unrefCache : gmap BlockRef siAddr;
  dirtyDirs : gmap BlockPointer (list BlockInfo);
  dirtyRootDirEntry : option DirEntry;
  chargedTo : string;
  deferred : gmap BlockRef deferredState;
  nodeCache : option NC;
  chans : gmap chanId (list Error)
}.

(** The interfaces the engine consumes (section 6 of the specification).
    Logging and the [context.Context] argument are left out: the log has no
    reader in this file, and whether a context is cancelled is part of what
    the collaborators answer. *)
Class Config := {
  (* BlockPointer and path methods *)
  ptrIsValid : BlockPointer -> bool;
  ptrIsInitialized : BlockPointer -> bool;
  pathIsValid : path -> bool;
  pathHasValidParent : path -> bool;
  pathParentPath : path -> path;
  pathChildPath : path -> string -> BlockPointer -> path;
  pathString : path -> string;
  pathIsValidForNotification : path -> bool;
  filepathJoin : string -> string -> string;
  (* DirtyBlockCache *)
  dbcGet : W -> N -> BlockPointer -> string -> res addr;
  dbcIsDirty : W -> N -> BlockPointer -> string -> bool;
  dbcPut : N -> BlockPointer -> string -> addr -> W -> option Error * W;
  dbcDelete : N -> BlockPointer -> string -> W -> option Error * W;
  dbcShouldForceSync : W -> N -> bool;
  (* BlockCache *)
  bcGet : W -> BlockPointer -> res addr;
  bcGetWithPrefetch : W -> BlockPointer -> res (addr * N * N);
  bcDeletePermanent : N -> W -> option Error * W;
  (* BlockOps, its prefetcher and retriever, the reporter *)
  bopsGet : KMD -> BlockPointer -> addr -> N -> blockStore * W ->
            option Error * (blockStore * W);
  bopsGetEncodedSize : W -> KMD -> BlockPointer -> res Z;
  processBlockForPrefetch : BlockPointer -> addr -> KMD -> N -> N -> W -> W;
  cancelPrefetch : N -> W -> W;
  retrieverRequest : KMD -> BlockPointer -> Block -> N -> W -> W;
  reporterNotify : path -> bool -> W -> W;
  checkDataVersion : W -> path -> BlockPointer -> option Error;
  (* KBPKI, key metadata, clock, journal, the force-sync channel *)
  getCurrentSession : W -> res Session;
  kmdIsWriter : W -> KMD -> N -> N -> res bool;
  kmdGetRootDirEntry : KMD -> DirEntry;
  kmdHandleName : KMD -> string;
  chargedToForTLF : W -> KMD -> res string;
  nowUnixNano : W -> Z;
  getJournalServer : W -> bool;
  dirtyOpStart : N -> W -> W;
  dirtyOpEnd : N -> W -> W;
  forceSyncTrySend : W -> W;
  (* Block and syncInfo helpers declared elsewhere *)
  bpsDeepCopy : option blockPutState -> option (option blockPutState);
  newSyncOp : BlockPointer -> res SO;
  soAddWrite : SO -> Z -> Z -> WriteRange * SO;
  soAddTruncate : SO -> Z -> WriteRange * SO;
  soResetUpdateState : SO -> SO;
  isRecoverableBlockError : Error -> bool;
  isRecoverableBlockErrorForRemoval : Error -> bool;
  (* dirtyFile *)
  newDirtyFile : path -> W -> DF;
  dfBlockNeedsCopy : DF -> BlockPointer -> bool;
  dfSetBlockDirty : BlockPointer -> DF -> (bool * bool) * DF;
  dfUpdateNotYetSyncingBytes : Z -> DF * W -> DF * W;
  dfAddDeferredNewBytes : Z -> DF -> DF;
  dfFinishSync : DF * W -> option Error * (DF * W);
  dfIsBlockOrphaned : DF -> BlockPointer -> bool;
  dfSetBlockOrphaned : BlockPointer -> bool -> DF -> DF;
  dfResetSyncingBlocksToDirty : DF -> DF;
  (* the directory data adapter, built from (dir, chargedTo, kmd) *)
  ddLookup : lockStateRef -> path -> string -> KMD -> string ->
             Shared -> outcome Shared (res DirEntry);
  ddAddEntry : lockStateRef -> path -> string -> KMD -> string -> DirEntry ->
               Shared -> outcome Shared (res (list BlockInfo));
  ddRemoveEntry : lockStateRef -> path -> string -> KMD -> string ->
                  Shared -> outcome Shared (res (list BlockInfo));
  ddUpdateEntry : lockStateRef -> path -> string -> KMD -> string -> DirEntry ->
                  Shared -> outcome Shared (res (list BlockInfo));
  ddGetEntries : lockStateRef -> path -> string -> KMD ->
                 Shared -> outcome Shared (res (list (string * DirEntry)));
  (* the file data adapter, built from (file, chargedTo, kmd) *)
  fdGetFileBlockAtOffset : lockStateRef -> path -> string -> KMD ->
      addr -> Z -> blockReqType -> Shared -> outcome Shared (res blockAtOffset);
  fdWrite : lockStateRef -> path -> string -> KMD ->
      list Byte.byte -> Z -> addr -> DirEntry ->
      Shared -> outcome Shared fdWriteResult;
  fdTruncateShrink : lockStateRef -> path -> string -> KMD ->
      Z -> addr -> DirEntry -> Shared -> outcome Shared fdShrinkResult;
  fdTruncateExtend : lockStateRef -> path -> string -> KMD ->
      Z -> addr -> list parentBlockAndChildIndex -> DirEntry ->
      Shared -> outcome Shared (res (DirEntry * list BlockPointer));
  fdFindIPtrsAndClearSize : lockStateRef -> path -> string -> KMD ->
      addr -> list BlockPointer ->
      Shared -> outcome Shared (res (list BlockPointer));
  (* NodeCache *)
  ncGet : NC -> BlockRef -> option Node;
  ncIsUnlinked : NC -> Node -> bool;
  ncUnlinkedDirEntry : NC -> Node -> DirEntry;
  ncUpdateUnlinkedDirEntry : Node -> DirEntry -> NC -> NC;
  ncUnlink : BlockRef -> path -> DirEntry -> NC -> option (NC -> NC) * NC;
  ncMove : BlockRef -> option Node -> string -> NC ->
           res (option (NC -> NC)) * NC;
  ncAllNodes : NC -> list Node;
  ncPathFromNode : NC -> option Node -> path;
  ncUpdatePointer : BlockRef -> BlockPointer -> NC -> option N * NC;
  nodeGetID : Node -> N;
  (* metadata and the folder block manager *)
  mdMergedStatus : MD -> N;
  mdOpsRefs : MD -> list (list BlockPointer * list BlockPointer);
  mdRootPointer : MD -> BlockPointer;
  mdAsKMD : MD -> KMD;
  cleanUpBlockState : MD -> blockPutState -> blockDeleteType -> W -> W;
  (* what other operations do to the engine while this one has released
     its read lock around network I/O (section 4.1) *)
  interleave : State -> State
}.

Context `{Config}.

(** ** The state monad of the engine *)

Definition M (A : Type) : Type := State -> outcome State A.

#[global] Instance M_ret : MRet M := fun A a s => Ret a s.
#[global] Instance M_bind : MBind M := fun A B k m s =>
  match m s with
  | Ret a s' => k a s'
  | Panic msg => Panic msg
  | OutOfFuel => OutOfFuel
  end.

Definition panic {A} (msg : string) : M A := fun _ => Panic msg.
Definition gets {A} (f : State -> A) : M A := fun s => Ret (f s) s.
Definition modify (f : State -> State) : M unit := fun s => Ret tt (f s).

(** Field updates. *)
Definition set_holds (h : lockHold) (sh : Shared) : Shared :=
  mkShared h (dirtyFiles sh) (doDeferWrite sh) (blocks sh) (ext sh).
Definition set_dirtyFiles (d : gmap BlockPointer dirtyFile) (sh : Shared) : Shared :=
  mkShared (holds sh) d (doDeferWrite sh) (blocks sh) (ext sh).
Definition set_doDeferWrite (b : bool) (sh : Shared) : Shared :=
  mkShared (holds sh) (dirtyFiles sh) b (blocks sh) (ext sh).
Definition set_blocks (h : blockStore) (sh : Shared) : Shared :=
  mkShared (holds sh) (dirtyFiles sh) (doDeferWrite sh) h (ext sh).
Definition set_ext (w : W) (sh : Shared) : Shared :=
  mkShared (holds sh) (dirtyFiles sh) (doDeferWrite sh) (blocks sh) w.

Definition set_shared (sh : Shared) (s : State) : State :=
  mkState sh (folderTlf s) (folderBranch s) (syncInfos s) (unrefCache s)
    (dirtyDirs s) (dirtyRootDirEntry s) (chargedTo s) (deferred s)
    (nodeCache s) (chans s).
Definition set_syncInfos (x : gmap siAddr syncInfo) (s : State) : State :=
  mkState (shared s) (folderTlf s) (folderBranch s) x (unrefCache s)
    (dirtyDirs s) (dirtyRootDirEntry s) (chargedTo s) (deferred s)
    (nodeCache s) (chans s).
Definition set_unrefCache (x : gmap BlockRef siAddr) (s : State) : State :=
  mkState (shared s) (folderTlf s) (folderBranch s) (syncInfos s) x
    (dirtyDirs s) (dirtyRootDirEntry s) (chargedTo s) (deferred s)
    (nodeCache s) (chans s).
Definition set_dirtyDirs (x : gmap BlockPointer (list BlockInfo)) (s : State) : State :=
  mkState (shared s) (folderTlf s) (folderBranch s) (syncInfos s) (unrefCache s)
    x (dirtyRootDirEntry s) (chargedTo s) (deferred s) (nodeCache s) (chans s).
Definition set_dirtyRootDirEntry (x : option DirEntry) (s : State) : State :=
  mkState (shared s) (folderTlf s) (folderBranch s) (syncInfos s) (unrefCache s)
    (dirtyDirs s) x (chargedTo s) (deferred s) (nodeCache s) (chans s).
Definition set_chargedTo (x : string) (s : State) : State :=
  mkState (shared s) (folderTlf s) (folderBranch s) (syncInfos s) (unrefCache s)
    (dirtyDirs s) (dirtyRootDirEntry s) x (deferred s) (nodeCache s) (chans s).
Definition set_deferred (x : gmap BlockRef deferredState) (s : State) : State :=
  mkState (shared s) (folderTlf s) (folderBranch s) (syncInfos s) (unrefCache s)
    (dirtyDirs s) (dirtyRootDirEntry s) (chargedTo s) x (nodeCache s) (chans s).
Definition set_nodeCache (x : option NC) (s : State) : State :=
  mkState (shared s) (folderTlf s) (folderBranch s) (syncInfos s) (unrefCache s)
    (dirtyDirs s) (dirtyRootDirEntry s) (chargedTo s) (deferred s) x (chans s).
Definition set_chans (x : gmap chanId (list Error)) (s : State) : State :=
  mkState (shared s) (folderTlf s) (folderBranch s) (syncInfos s) (unrefCache s)
    (dirtyDirs s) (dirtyRootDirEntry s) (chargedTo s) (deferred s)
    (nodeCache s) x.

Definition modShared (f : Shared -> Shared) : M unit :=
  modify (fun s => set_shared (f (shared s)) s).

(** Running a collaborator. *)
Definition liftS {A} (f : Shared -> outcome Shared A) : M A := fun s =>
  match f (shared s) with
  | Ret a sh => Ret a (set_shared sh s)
  | Panic msg => Panic msg
  | OutOfFuel => OutOfFuel
  end.
Definition getsW {A} (f : W -> A) : M A := gets (fun s => f (ext (shared s))).
Definition liftW {A} (f : W -> A * W) : M A := fun s =>
  let r := f (ext (shared s)) in
  Ret r.1 (set_shared (set_ext r.2 (shared s)) s).
Definition modW (f : W -> W) : M unit := modShared (fun sh => set_ext (f (ext sh)) sh).

(** A Go value that must not be nil. *)
Definition deref {A} (o : option A) (what : string) : M A :=
  match o with
  | Some a => mret a
  | None => panic what
  end.

Definition id : M N := gets folderTlf.
Definition branch : M string := gets folderBranch.

(** ** [blockLock] *)

Definition getHolds : M lockHold := gets (fun s => holds (shared s)).
Definition setHolds (h : lockHold) : M unit := modShared (set_holds h).

Definition Lock (lState : lockStateRef) : M unit :=
  match lState with
  | lsNil => panic "nil lockState"
  | lsTok =>
      h ← getHolds;
      match h with
      | NotHeld => setHolds HeldW
      | _ => panic "blockLock is already held by this lockState"
      end
  end.

Definition Unlock (lState : lockStateRef) : M unit :=
  match lState with
  | lsNil => panic "nil lockState"
  | lsTok =>
      h ← getHolds;
      match h with
      | HeldW => setHolds NotHeld
      | _ => panic "blockLock is not locked by this lockState"
      end
  end.

Definition RLock (lState : lockStateRef) : M unit :=
  match lState with
  | lsNil => panic "nil lockState"
  | lsTok =>
      h ← getHolds;
      match h with
      | NotHeld => setHolds HeldR
      | _ => panic "blockLock is already held by this lockState"
      end
  end.

Definition RUnlock (lState : lockStateRef) : M unit :=
  match lState with
  | lsNil => panic "nil lockState"
  | lsTok =>
      h ← getHolds;
      match h with
      | HeldR => setHolds NotHeld
      | _ => panic "blockLock is not r-locked by this lockState"
      end
  end.

Definition AssertLocked (lState : lockStateRef) : M unit :=
  match lState with
  | lsNil => panic "nil lockState"
  | lsTok =>
      h ← getHolds;
      match h with
      | HeldW => mret tt
      | _ => panic "blockLock is not locked"
      end
  end.

Definition AssertRLocked (lState : lockStateRef) : M unit :=
  match lState with
  | lsNil => panic "nil lockState"
  | lsTok =>
      h ← getHolds;
      match h with
      | HeldR => mret tt
      | _ => panic "blockLock is not r-locked"
      end
  end.

Definition AssertAnyLocked (lState : lockStateRef) : M unit :=
  match lState with
  | lsNil => panic "nil lockState"
  | lsTok =>
      h ← getHolds;
      match h with
      | NotHeld => panic "blockLock is not locked at all"
      | _ => mret tt
      end
  end.

(** [DoRUnlockedIfPossible]: run [f] with the read lock released when this
    operation holds exactly R; other operations may then run before and
    after [f]. *)
Definition DoRUnlockedIfPossible {A} (lState : lockStateRef) (f : M A) : M A :=
  h ← getHolds;
  match lState, h with
  | lsTok, HeldR =>
      setHolds NotHeld;;
      modify interleave;;
      a ← f;
      modify interleave;;
      setHolds HeldR;;
      mret a
  | _, _ => f
  end.

(** [tailPointer] and [tailRef] of a path that must have a last node. *)
Definition tailPointer' (p : path) : M BlockPointer :=
  deref (tailPointer p) "index out of range".
Definition tailRef' (p : path) : M BlockRef :=
  deref (tailRef p) "index out of range".
Definition tailName' (p : path) : M string :=
  deref (tailName p) "index out of range".

(** ** [GetState] (lines 255-264) *)

Definition GetState (lState : lockStateRef) : M overallBlockState :=
  RLock lState;;
  s ← gets (fun s => s);
  let r :=
    if (size (dirtyFiles (shared s)) =? 0)%nat && (size (dirtyDirs s) =? 0)%nat
       && bool_decide (dirtyRootDirEntry s = None)
    then cleanState else dirtyState in
  RUnlock lState;;
  mret r.

(** ** The block fetch path (lines 266-440, 597-684) *)

(** [BlockCacheLifetime] values passed to [BlockOps.Get]. *)
Definition NoCacheEntry : N := 0%N.
Definition TransientEntry : N := 1%N.

Definition zeroPath : path := mkPath 0 "" [].

(** The entry checks shared by the helpers: lock assertions are waived for
    [blockReadParallel], which must come with a nil [lockState]. *)
Definition checkParallel (lState : lockStateRef) (rtype : blockReqType)
    (who : string) : M unit :=
  if bool_decide (rtype <> blockReadParallel) then AssertAnyLocked lState
  else match lState with
       | lsTok => panic ("Non-nil lState passed to " +:+ who +:+
                         " with blockReadParallel")
       | lsNil => mret tt
       end.

Definition getCleanEncodedBlockSizeLocked (lState : lockStateRef) (kmd : KMD)
    (ptr : BlockPointer) (branch : string) (rtype : blockReqType) : M (res Z) :=
  (if bool_decide (rtype <> blockReadParallel) then
     if bool_decide (rtype = blockWrite)
     then panic "Cannot get the size of a block for writing"
     else AssertAnyLocked lState
   else match lState with
        | lsTok => panic "Non-nil lState passed to getCleanEncodedBlockSizeLocked with blockReadParallel"
        | lsNil => mret tt
        end);;
  if negb (ptrIsValid ptr) then mret (Err (InvalidBlockRefError (Ref ptr)))
  else
    cached ← getsW (fun w => bcGet w ptr);
    match cached with
    | Ok a =>
        b ← gets (fun s => blocks (shared s) !! a);
        block ← deref b "nil block";
        mret (Ok (GetEncodedSize block))
    | Err _ =>
        v ← getsW (fun w => checkDataVersion w zeroPath ptr);
        match v with
        | Some e => mret (Err e)
        | None =>
            let fetch := getsW (fun w => bopsGetEncodedSize w kmd ptr) in
            r ← (if bool_decide (rtype <> blockReadParallel)
                    && bool_decide (rtype <> blockLookup)
                 then DoRUnlockedIfPossible lState fetch
                 else fetch);
            match r with
            | Err e => mret (Err e)
            | Ok size => mret (Ok size)
            end
        end
    end.

Definition newBlockIn (b : Block) : M addr := fun s =>
  let r := alloc (blocks (shared s)) b in
  Ret r.1 (set_shared (set_blocks r.2 (shared s)) s).

Definition runBopsGet (kmd : KMD) (ptr : BlockPointer) (block : addr)
    (lifetime : N) : M (option Error) := fun s =>
  let r := bopsGet kmd ptr block lifetime (blocks (shared s), ext (shared s)) in
  Ret r.1 (set_shared (set_ext r.2.2 (set_blocks r.2.1 (shared s))) s).

Definition getBlockHelperLocked (lState : lockStateRef) (kmd : KMD)
    (ptr : BlockPointer) (branch : string) (newBlock : Block) (lifetime : N)
    (notifyPath : path) (rtype : blockReqType) : M (res addr) :=
  checkParallel lState rtype "getBlockHelperLocked";;
  if negb (ptrIsValid ptr) then mret (Err (InvalidBlockRefError (Ref ptr)))
  else
    tlf ← id;
    dirty ← getsW (fun w => dbcGet w tlf ptr branch);
    match dirty with
    | Ok block => mret (Ok block)
    | Err _ =>
        clean ← getsW (fun w => bcGetWithPrefetch w ptr);
        match clean with
        | Ok (block, prefetchStatus, lifetime') =>
            modW (processBlockForPrefetch ptr block kmd lifetime' prefetchStatus);;
            mret (Ok block)
        | Err _ =>
            v ← getsW (fun w => checkDataVersion w notifyPath ptr);
            match v with
            | Some e => mret (Err e)
            | None =>
                let notify := pathIsValidForNotification notifyPath in
                (if notify then modW (reporterNotify notifyPath false)
                 else mret tt);;
                block ← newBlockIn newBlock;
                let fetch := runBopsGet kmd ptr block lifetime in
                err ← (if bool_decide (rtype <> blockReadParallel)
                          && bool_decide (rtype <> blockLookup)
                       then DoRUnlockedIfPossible lState fetch
                       else fetch);
                (* the deferred read-end notification *)
                (if notify then modW (reporterNotify notifyPath true)
                 else mret tt);;
                match err with
                | Some e => mret (Err e)
                | None => mret (Ok block)
                end
            end
        end
    end.

Definition getFileBlockHelperLocked (lState : lockStateRef) (kmd : KMD)
    (ptr : BlockPointer) (branch : string) (p : path) (rtype : blockReqType)
    : M (res addr) :=
  checkParallel lState rtype "getFileBlockHelperLocked";;
  r ← getBlockHelperLocked lState kmd ptr branch NewFileBlock TransientEntry
        p rtype;
  match r with
  | Err e => mret (Err e)
  | Ok block =>
      b ← gets (fun s => blocks (shared s) !! block);
      match b with
      | Some (BFile _) => mret (Ok block)
      | _ => mret (Err (NotFileBlockError ptr branch p))
      end
  end.

(** [FileBlock.DeepCopy]: a new object with the same contents.
    Modelled from the spec: [FileBlock] is not in this file.  Section 3:
    blocks expose "a deep-copy operation that is required before any
    copy-on-write mutation". *)
Definition DeepCopyFileBlock (fblock : addr) : M addr :=
  b ← gets (fun s => blocks (shared s) !! fblock);
  match b with
  | Some (BFile fb) => newBlockIn (BFile fb)
  | _ => panic "invalid memory address or nil pointer dereference"
  end.

Definition getFileBlockLocked (lState : lockStateRef) (kmd : KMD)
    (ptr : BlockPointer) (file : path) (rtype : blockReqType)
    : M (res (addr * bool)) :=
  (if bool_decide (rtype = blockRead) then AssertRLocked lState
   else if bool_decide (rtype = blockWrite) then AssertLocked lState
   else if bool_decide (rtype = blockReadParallel) then
     match lState with
     | lsTok => panic "Non-nil lState passed to getFileBlockLocked with blockReadParallel"
     | lsNil => mret tt
     end
   else if bool_decide (rtype = blockLookup) then
     panic "blockLookup should only be used for directory blocks"
   else panic "Unknown block req type");;
  r ← getFileBlockHelperLocked lState kmd ptr (Branch file) file rtype;
  match r with
  | Err e => mret (Err e)
  | Ok fblock =>
      tlf ← id;
      wasDirty ← getsW (fun w => dbcIsDirty w tlf ptr (Branch file));
      if bool_decide (rtype = blockWrite) then
        tp ← tailPointer' file;
        df ← gets (fun s => dirtyFiles (shared s) !! tp);
        if negb wasDirty
           || match df with
              | Some d => dfBlockNeedsCopy (dfState d) ptr
              | None => false
              end
        then
          copy ← DeepCopyFileBlock fblock;
          mret (Ok (copy, wasDirty))
        else mret (Ok (fblock, wasDirty))
      else mret (Ok (fblock, wasDirty))
  end.

Definition getFileLocked (lState : lockStateRef) (kmd : KMD) (file : path)
    (rtype : blockReqType) : M (res addr) :=
  if negb (pathIsValid file) then mret (Err (InvalidPathError file))
  else
    tp ← tailPointer' file;
    r ← getFileBlockLocked lState kmd tp file rtype;
    match r with
    | Err e => mret (Err e)
    | Ok (fblock, _) => mret (Ok fblock)
    end.

(** ** Directory entries in the dirty cache (lines 742-756, 901-1246,
       1374-1430) *)

Definition getChargedToLocked (lState : lockStateRef) (kmd : KMD)
    : M (res string) :=
  AssertAnyLocked lState;;
  c ← gets chargedTo;
  if negb (String.eqb c "") then mret (Ok c)
  else
    r ← getsW (fun w => chargedToForTLF w kmd);
    match r with
    | Err e => mret (Err e)
    | Ok c' => modify (set_chargedTo c');; mret (Ok c')
    end.

(** [newDirDataLocked] and [newFileData] assert the lock and capture
    [lState]; the adapter they return is named by its arguments. *)
Definition newDirDataLocked (lState : lockStateRef) : M unit :=
  AssertAnyLocked lState.
Definition newFileData (lState : lockStateRef) : M unit :=
  AssertAnyLocked lState.

Definition withNodeCache {A} (f : NC -> A * NC) : M A :=
  o ← gets nodeCache;
  nc ← deref o "nil NodeCache";
  let r := f nc in
  modify (set_nodeCache (Some r.2));;
  mret r.1.

(** Calling a [func()] returned by the node cache. *)
Definition runNodeCacheUndo (f : option (NC -> NC)) : M unit :=
  g ← deref f "call of nil func";
  withNodeCache (fun nc => (tt, g nc)).

Definition dbcDelete_ (ptr : BlockPointer) : M (option Error) :=
  tlf ← id;
  br ← branch;
  liftW (dbcDelete tlf ptr br).

Fixpoint forEach {A} (l : list A) (f : A -> M unit) : M unit :=
  match l with
  | [] => mret tt
  | x :: l' => f x;; forEach l' f
  end.

Definition makeDirDirtyLocked (lState : lockStateRef) (ptr : BlockPointer)
    (unrefs : list BlockInfo) : M (M unit) :=
  AssertLocked lState;;
  old ← gets (fun s => dirtyDirs s !! ptr);
  let oldUnrefs := default [] old in
  modify (fun s => set_dirtyDirs (<[ptr := oldUnrefs ++ unrefs]> (dirtyDirs s)) s);;
  mret (
    (match old with
     | Some _ =>
         modify (fun s => set_dirtyDirs (<[ptr := oldUnrefs]> (dirtyDirs s)) s)
     | None =>
         dbcDelete_ ptr;;
         modify (fun s => set_dirtyDirs (delete ptr (dirtyDirs s)) s)
     end);;
    forEach unrefs (fun unref => dbcDelete_ (biPointer unref);; mret tt)).

Definition setTimes (setMtime setCtime : bool) (now : Z) (de : DirEntry)
    : DirEntry :=
  mkDirEntry (deInfo de) (deType de) (deSize de)
    (if setMtime then now else Mtime de)
    (if setCtime then now else Ctime de) (SymPath de).

Definition updateParentDirEntryLocked (lState : lockStateRef) (dir : path)
    (kmd : KMD) (setMtime setCtime : bool) : M (res (M unit)) :=
  AssertLocked lState;;
  c ← getChargedToLocked lState kmd;
  match c with
  | Err e => mret (Err e)
  | Ok chargedTo =>
      now ← getsW nowUnixNano;
      let pp := pathParentPath dir in
      if pathIsValid pp then
        newDirDataLocked lState;;
        name ← tailName' dir;
        l ← liftS (ddLookup lState pp chargedTo kmd name);
        match l with
        | Err e => mret (Err e)
        | Ok de =>
            let newDe := setTimes setMtime setCtime now de in
            name ← tailName' dir;
            u ← liftS (ddUpdateEntry lState pp chargedTo kmd name newDe);
            match u with
            | Err e => mret (Err e)
            | Ok unrefs =>
                ptr ← tailPointer' pp;
                undoDirtyFn ← makeDirDirtyLocked lState ptr unrefs;
                mret (Ok (
                  name ← tailName' dir;
                  liftS (ddUpdateEntry lState pp chargedTo kmd name de);;
                  undoDirtyFn))
            end
        end
      else
        (* the parent is not a valid path: update the root entry *)
        old ← gets dirtyRootDirEntry;
        let cur := match old with
                   | None => kmdGetRootDirEntry kmd
                   | Some d => d
                   end in
        modify (set_dirtyRootDirEntry (Some (setTimes setMtime setCtime now cur)));;
        mret (Ok (modify (set_dirtyRootDirEntry old)))
  end.

Definition addDirEntryInCacheLocked (lState : lockStateRef) (kmd : KMD)
    (dir : path) (newName : string) (newDe : DirEntry) : M (res (M unit)) :=
  AssertLocked lState;;
  c ← getChargedToLocked lState kmd;
  match c with
  | Err e => mret (Err e)
  | Ok chargedTo =>
      newDirDataLocked lState;;
      a ← liftS (ddAddEntry lState dir chargedTo kmd newName newDe);
      match a with
      | Err e => mret (Err e)
      | Ok unrefs =>
          p ← updateParentDirEntryLocked lState dir kmd true true;
          match p with
          | Err e =>
              liftS (ddRemoveEntry lState dir chargedTo kmd newName);;
              mret (Err e)
          | Ok parentUndo =>
              ptr ← tailPointer' dir;
              undoDirtyFn ← makeDirDirtyLocked lState ptr unrefs;
              mret (Ok (
                liftS (ddRemoveEntry lState dir chargedTo kmd newName);;
                undoDirtyFn;;
                parentUndo))
          end
      end
  end.

Definition removeDirEntryInCacheLocked (lState : lockStateRef) (kmd : KMD)
    (dir : path) (oldName : string) (oldDe : DirEntry) : M (res (M unit)) :=
  AssertLocked lState;;
  c ← getChargedToLocked lState kmd;
  match c with
  | Err e => mret (Err e)
  | Ok chargedTo =>
      newDirDataLocked lState;;
      r ← liftS (ddRemoveEntry lState dir chargedTo kmd oldName);
      match r with
      | Err e => mret (Err e)
      | Ok unrefs0 =>
          child ← gets (fun s => dirtyDirs s !! dePointer oldDe);
          let unrefs :=
            if bool_decide (deType oldDe = Dir)
            then unrefs0 ++ default [] child else unrefs0 in
          unlinkUndoFn ← withNodeCache
            (ncUnlink (deRef oldDe)
               (pathChildPath dir oldName (dePointer oldDe)) oldDe);
          p ← updateParentDirEntryLocked lState dir kmd true true;
          match p with
          | Err e =>
              runNodeCacheUndo unlinkUndoFn;;
              liftS (ddAddEntry lState dir chargedTo kmd oldName oldDe);;
              mret (Err e)
          | Ok parentUndo =>
              ptr ← tailPointer' dir;
              undoDirtyFn ← makeDirDirtyLocked lState ptr unrefs;
              mret (Ok (
                liftS (ddAddEntry lState dir chargedTo kmd oldName oldDe);;
                undoDirtyFn;;
                parentUndo;;
                runNodeCacheUndo unlinkUndoFn))
          end
      end
  end.

(** [dirCacheUndoFn]: [func(lState *lockState)]. *)
Definition dirCacheUndoFn : Type := lockStateRef -> M unit.

Definition wrapWithBlockLock (fn : option (M unit)) : dirCacheUndoFn :=
  fun lState =>
    match fn with
    | None => mret tt
    | Some f => Lock lState;; f;; Unlock lState
    end.

Definition runIfSet (f : option (M unit)) : M unit :=
  match f with
  | Some g => g
  | None => mret tt
  end.

Definition RenameDirEntryInCache (lState : lockStateRef) (kmd : KMD)
    (oldParent : path) (oldName : string) (newParent : path)
    (newName : string) (newDe replacedDe : DirEntry)
    : M (option dirCacheUndoFn * option Error) :=
  Lock lState;;
  np ← tailPointer' newParent;
  op ← tailPointer' oldParent;
  if bool_decide (np = op) && String.eqb oldName newName then
    (* Noop *)
    Unlock lState;;
    mret (None, None)
  else
    r1 ← (if ptrIsInitialized (dePointer replacedDe)
          then r ← removeDirEntryInCacheLocked lState kmd newParent newName
                     replacedDe;
               match r with
               | Err e => mret (Err e)
               | Ok u => mret (Ok (Some u))
               end
          else mret (Ok None));
    match r1 with
    | Err e => Unlock lState;; mret (None, Some e)
    | Ok undoReplace =>
        r2 ← addDirEntryInCacheLocked lState kmd newParent newName newDe;
        match r2 with
        | Err e =>
            runIfSet undoReplace;;
            Unlock lState;;
            mret (None, Some e)
        | Ok undoAdd =>
            r3 ← removeDirEntryInCacheLocked lState kmd oldParent oldName
                   zeroDirEntry;
            match r3 with
            | Err e =>
                undoAdd;;
                runIfSet undoReplace;;
                Unlock lState;;
                mret (None, Some e)
            | Ok undoRm =>
                nr ← tailRef' newParent;
                newParentNode ← withNodeCache (fun nc => (ncGet nc nr, nc));
                r4 ← withNodeCache (ncMove (deRef newDe) newParentNode newName);
                match r4 with
                | Err e =>
                    undoRm;;
                    undoAdd;;
                    runIfSet undoReplace;;
                    Unlock lState;;
                    mret (None, Some e)
                | Ok undoMove =>
                    Unlock lState;;
                    mret (Some (wrapWithBlockLock (Some (
                            (match undoMove with
                             | Some g => withNodeCache (fun nc => (tt, g nc))
                             | None => mret tt
                             end);;
                            undoRm;;
                            undoAdd;;
                            runIfSet undoReplace))), None)
                end
            end
        end
    end.

Definition getEntryLocked (lState : lockStateRef) (kmd : KMD) (file : path)
    (includeDeleted : bool) : M (res DirEntry) :=
  AssertAnyLocked lState;;
  if negb (pathHasValidParent file) then
    root ← gets dirtyRootDirEntry;
    match root with
    | Some de => mret (Ok de)
    | None => mret (Ok (kmdGetRootDirEntry kmd))
    end
  else
    newDirDataLocked lState;;
    name ← tailName' file;
    l ← liftS (ddLookup lState (pathParentPath file) "" kmd name);
    let de := match l with Ok d => d | Err _ => zeroDirEntry end in
    let noExist := match l with Err (NoSuchNameError _) => true | _ => false end in
    deleted ← (if includeDeleted then
                 if noExist then mret true
                 else tp ← tailPointer' file;
                      mret (bool_decide (dePointer de <> tp))
               else mret false);
    if (deleted : bool) then
      tp ← tailPointer' file;
      unlinkedNode ← withNodeCache (fun nc => (ncGet nc (Ref tp), nc));
      unlinked ← match unlinkedNode with
                  | Some n => withNodeCache (fun nc => (ncIsUnlinked nc n, nc))
                  | None => mret false
                  end;
      match unlinkedNode with
      | Some n =>
          if (unlinked : bool)
          then withNodeCache (fun nc => (Ok (ncUnlinkedDirEntry nc n), nc))
          else mret (match l with Ok _ => Ok zeroDirEntry | Err e => Err e end)
      | None => mret (match l with Ok _ => Ok zeroDirEntry | Err e => Err e end)
      end
    else mret l.

Definition updateEntryLocked (lState : lockStateRef) (kmd : KMD) (file : path)
    (de : DirEntry) (includeDeleted : bool) : M (option Error) :=
  AssertAnyLocked lState;;
  c ← getChargedToLocked lState kmd;
  match c with
  | Err e => mret (Some e)
  | Ok chargedTo =>
      let parentPath := pathParentPath file in
      newDirDataLocked lState;;
      name ← tailName' file;
      u ← liftS (ddUpdateEntry lState parentPath chargedTo kmd name de);
      match u with
      | Err (NoSuchNameError n) =>
          if includeDeleted then
            tp ← tailPointer' file;
            unlinkedNode ← withNodeCache (fun nc => (ncGet nc (Ref tp), nc));
            match unlinkedNode with
            | Some n' =>
                unlinked ← withNodeCache (fun nc => (ncIsUnlinked nc n', nc));
                if (unlinked : bool) then
                  withNodeCache (fun nc => (tt, ncUpdateUnlinkedDirEntry n' de nc));;
                  mret None
                else mret (Some (NoSuchNameError n))
            | None => mret (Some (NoSuchNameError n))
            end
          else mret (Some (NoSuchNameError n))
      | Err e => mret (Some e)
      | Ok unrefs =>
          ptr ← tailPointer' parentPath;
          makeDirDirtyLocked lState ptr unrefs;;
          mret None
      end
  end.

(** ** Dirty files and sync infos (lines 1485-1550) *)

(** A [*dirtyFile] held in a local variable is the entry of [dirtyFiles]
    under the tail pointer it was fetched with: entries are only created by
    [getOrCreateDirtyFileLocked] and removed by [clearCacheInfoLocked]. *)
Definition withDirtyFile {A} (ptr : BlockPointer)
    (f : dirtyFile -> W -> A * dirtyFile * W) : M A :=
  o ← gets (fun s => dirtyFiles (shared s) !! ptr);
  df ← deref o "nil dirtyFile";
  w ← getsW (fun w => w);
  let r := f df w in
  modShared (fun sh =>
    set_ext r.2 (set_dirtyFiles (<[ptr := r.1.2]> (dirtyFiles sh)) sh));;
  mret r.1.1.

Definition onDF {A} (f : DF -> A * DF) (df : dirtyFile) (w : W)
    : A * dirtyFile * W :=
  let r := f (dfState df) in (r.1, mkDirtyFile (errListeners df) r.2, w).

Definition onDFW {A} (f : DF * W -> A * (DF * W)) (df : dirtyFile) (w : W)
    : A * dirtyFile * W :=
  let r := f (dfState df, w) in
  (r.1, mkDirtyFile (errListeners df) r.2.1, r.2.2).

Definition updateNotYetSyncingBytes (ptr : BlockPointer) (n : Z) : M unit :=
  withDirtyFile ptr (onDFW (fun x => (tt, dfUpdateNotYetSyncingBytes n x))).

Definition getOrCreateDirtyFileLocked (lState : lockStateRef) (file : path)
    : M BlockPointer :=
  AssertLocked lState;;
  ptr ← tailPointer' file;
  df ← gets (fun s => dirtyFiles (shared s) !! ptr);
  match df with
  | Some _ => mret ptr
  | None =>
      d ← getsW (newDirtyFile file);
      modShared (fun sh =>
        set_dirtyFiles (<[ptr := mkDirtyFile [] d]> (dirtyFiles sh)) sh);;
      mret ptr
  end.

Definition cacheBlockIfNotYetDirtyLocked (lState : lockStateRef)
    (ptr : BlockPointer) (file : path) (block : addr) : M (option Error) :=
  AssertLocked lState;;
  df ← getOrCreateDirtyFileLocked lState file;
  '(needsCaching, isSyncing) ← withDirtyFile df (onDF (dfSetBlockDirty ptr));
  tlf ← id;
  err ← (if (needsCaching : bool)
         then liftW (dbcPut tlf ptr (Branch file) block)
         else mret None);
  match err with
  | Some e => mret (Some e)
  | None =>
      (if (isSyncing : bool) then modShared (set_doDeferWrite true)
       else mret tt);;
      mret None
  end.

Definition allocSyncInfo (si : syncInfo) : M siAddr := fun s =>
  let a := fresh (dom (syncInfos s)) in
  Ret a (set_syncInfos (<[a := si]> (syncInfos s)) s).

Definition getSyncInfo (a : siAddr) : M syncInfo :=
  o ← gets (fun s => syncInfos s !! a);
  deref o "nil syncInfo".

Definition putSyncInfo (a : siAddr) (si : syncInfo) : M unit :=
  modify (fun s => set_syncInfos (<[a := si]> (syncInfos s)) s).

Definition set_unrefs (u : list BlockInfo) (si : syncInfo) : syncInfo :=
  mkSyncInfo (oldInfo si) (op si) u (bps si) (refBytes si) (unrefBytes si)
    (toCleanIfUnused si).
Definition set_op (o : option SO) (si : syncInfo) : syncInfo :=
  mkSyncInfo (oldInfo si) o (unrefs si) (bps si) (refBytes si) (unrefBytes si)
    (toCleanIfUnused si).
Definition set_toCleanIfUnused (t : list mdToCleanIfUnused) (si : syncInfo)
    : syncInfo :=
  mkSyncInfo (oldInfo si) (op si) (unrefs si) (bps si) (refBytes si)
    (unrefBytes si) t.
Definition set_bps (b : option blockPutState) (si : syncInfo) : syncInfo :=
  mkSyncInfo (oldInfo si) (op si) (unrefs si) b (refBytes si) (unrefBytes si)
    (toCleanIfUnused si).

Definition getOrCreateSyncInfoLocked (lState : lockStateRef) (de : DirEntry)
    : M (res siAddr) :=
  AssertLocked lState;;
  let ref := deRef de in
  si ← gets (fun s => unrefCache s !! ref);
  match si with
  | Some a => mret (Ok a)
  | None =>
      match newSyncOp (dePointer de) with
      | Err e => mret (Err e)
      | Ok so =>
          a ← allocSyncInfo (mkSyncInfo (deInfo de) (Some so) [] None 0 0 []);
          modify (fun s => set_unrefCache (<[ref := a]> (unrefCache s)) s);;
          mret (Ok a)
      end
  end.


(** The method on the [*syncOp] held by a sync info. *)
Definition withSyncOp {A} (a : siAddr) (f : SO -> A * SO) : M A :=
  si ← getSyncInfo a;
  so ← deref (op si) "nil syncOp";
  let r := f so in
  putSyncInfo a (set_op (Some r.2) si);;
  mret r.1.

Definition appendUnrefs (a : siAddr) (u : list BlockInfo) : M unit :=
  si ← getSyncInfo a;
  putSyncInfo a (set_unrefs (unrefs si ++ u) si).

(** ** Write and truncate (lines 1850-2187) *)

Definition writeGetFileLocked (lState : lockStateRef) (kmd : KMD) (file : path)
    : M (res addr) :=
  AssertLocked lState;;
  s ← getsW getCurrentSession;
  match s with
  | Err e => mret (Err e)
  | Ok session =>
      w ← getsW (fun w => kmdIsWriter w kmd (sessUID session) (sessKey session));
      match w with
      | Err e => mret (Err e)
      | Ok false => mret (Err (WriteAccessError (sessName session) file))
      | Ok true => getFileLocked lState kmd file blockWrite
      end
  end.

Definition journalStart : M bool :=
  j ← getsW getJournalServer;
  tlf ← id;
  (if (j : bool) then modW (dirtyOpStart tlf) else mret tt);;
  mret j.

Definition journalEnd (j : bool) : M unit :=
  tlf ← id;
  if j then modW (dirtyOpEnd tlf) else mret tt.

Definition maybeForceSync : M unit :=
  tlf ← id;
  force ← getsW (fun w => dbcShouldForceSync w tlf);
  if (force : bool) then modW forceSyncTrySend else mret tt.

Definition zeroWriteRange : WriteRange := mkWriteRange 0 0.

Definition withTimes (now : Z) (de : DirEntry) : DirEntry :=
  setTimes true true now de.

(** The four results of [writeDataLocked]. *)
Definition writeResult : Type :=
  WriteRange * list BlockPointer * Z * option Error.

(** From the call of the file data adapter to the end of
    [writeDataLocked] (lines 1940-1964). *)
Definition writeAndRecord (lState : lockStateRef) (kmd : KMD) (file : path)
    (data : list Byte.byte) (off : Z) (chargedTo : string) (fblock : addr)
    (df : BlockPointer) (de : DirEntry) (si : siAddr) : M writeResult :=
  w ← liftS (fdWrite lState file chargedTo kmd data off fblock de);
  (* Record the unrefs before checking the error so we remember the state
     of newly dirtied blocks. *)
  appendUnrefs si (wUnrefs w);;
  match wErr w with
  | Some e => mret (zeroWriteRange, [], wNewlyDirtiedChildBytes w, Some e)
  | None =>
      (* Update the file's directory entry. *)
      now ← getsW nowUnixNano;
      let newDe := withTimes now (wNewDe w) in
      u ← updateEntryLocked lState kmd file newDe true;
      match u with
      | Some e => mret (zeroWriteRange, [], wNewlyDirtiedChildBytes w, Some e)
      | None =>
          dw ← gets (fun s => doDeferWrite (shared s));
          (if (dw : bool) then
             withDirtyFile df (onDF (fun x =>
               (tt, dfAddDeferredNewBytes (wBytesExtended w) x)))
           else mret tt);;
          latestWrite ← withSyncOp si (fun so =>
            soAddWrite so (uint64 off) (Z.of_nat (length data)));
          mret (latestWrite, wDirtyPtrs w, wNewlyDirtiedChildBytes w, None)
      end
  end.

(** The function body between the two deferred calls. *)
Definition writeDataBody (lState : lockStateRef) (kmd : KMD) (file : path)
    (data : list Byte.byte) (off : Z) (chargedTo : string) (fblock : addr)
    (df : BlockPointer) : M writeResult :=
  d ← getEntryLocked lState kmd file true;
  match d with
  | Err e => mret (zeroWriteRange, [], 0, Some e)
  | Ok de =>
      tailPointer' file;;
      s ← getOrCreateSyncInfoLocked lState de;
      match s with
      | Err e => mret (zeroWriteRange, [], 0, Some e)
      | Ok si =>
          writeAndRecord lState kmd file data off chargedTo fblock df de si
      end
  end.

Definition writeDataLocked (lState : lockStateRef) (kmd : KMD) (file : path)
    (data : list Byte.byte) (off : Z) : M writeResult :=
  j ← journalStart;
  r ← (AssertLocked lState;;
       tailPointer' file;;
       g ← writeGetFileLocked lState kmd file;
       match g with
       | Err e => mret (zeroWriteRange, [], 0, Some e)
       | Ok fblock =>
           c ← getChargedToLocked lState kmd;
           match c with
           | Err e => mret (zeroWriteRange, [], 0, Some e)
           | Ok chargedTo =>
               newFileData lState;;
               df ← getOrCreateDirtyFileLocked lState file;
               r ← writeDataBody lState kmd file data off chargedTo fblock df;
               (* deferred: always update unsynced bytes and potentially
                  force a sync, even on an error *)
               updateNotYetSyncingBytes df r.1.2;;
               maybeForceSync;;
               mret r
           end
       end);
  journalEnd j;;
  mret r.

Definition truncateExtendLocked (lState : lockStateRef) (kmd : KMD)
    (file : path) (size : Z) (parentBlocks : list parentBlockAndChildIndex)
    : M (WriteRange * list BlockPointer * option Error) :=
  g ← writeGetFileLocked lState kmd file;
  match g with
  | Err e => mret (zeroWriteRange, [], Some e)
  | Ok fblock =>
      c ← getChargedToLocked lState kmd;
      match c with
      | Err e => mret (zeroWriteRange, [], Some e)
      | Ok chargedTo =>
          newFileData lState;;
          d ← getEntryLocked lState kmd file true;
          match d with
          | Err e => mret (zeroWriteRange, [], Some e)
          | Ok de =>
              getOrCreateDirtyFileLocked lState file;;
              x ← liftS (fdTruncateExtend lState file chargedTo kmd size fblock
                           parentBlocks de);
              match x with
              | Err e => mret (zeroWriteRange, [], Some e)
              | Ok (newDe0, dirtyPtrs) =>
                  now ← getsW nowUnixNano;
                  let newDe := withTimes now newDe0 in
                  u ← updateEntryLocked lState kmd file newDe true;
                  match u with
                  | Some e => mret (zeroWriteRange, [], Some e)
                  | None =>
                      s ← getOrCreateSyncInfoLocked lState de;
                      match s with
                      | Err e => mret (zeroWriteRange, [], Some e)
                      | Ok si =>
                          latestWrite ← withSyncOp si (fun so =>
                            soAddTruncate so size);
                          maybeForceSync;;
                          mret (latestWrite, dirtyPtrs, None)
                      end
                  end
              end
          end
      end
  end.

(** [len(block.Contents)] of a [*FileBlock]. *)
Definition lenContents (block : addr) : M Z :=
  b ← gets (fun s => blocks (shared s) !! block);
  match b with
  | Some (BFile fb) => mret (Z.of_nat (length (Contents fb)))
  | _ => panic "invalid memory address or nil pointer dereference"
  end.

(** [make([]byte, n, n)]. *)
Definition makeBytes (n : Z) : M (list Byte.byte) :=
  if n <? 0 then panic "makeslice: len out of range"
  else mret (replicate (Z.to_nat n) Byte.x00).

(** The four results of [truncateLocked]; the first is a [*WriteRange]. *)
Definition truncateResult : Type :=
  option WriteRange * list BlockPointer * Z * option Error.

(** From the call of the file data adapter to the end of
    [truncateLocked] (lines 2164-2186). *)
Definition shrinkAndRecord (lState : lockStateRef) (kmd : KMD) (file : path)
    (size : Z) (chargedTo : string) (fblock : addr) (de : DirEntry)
    (si : siAddr) : M truncateResult :=
  t ← liftS (fdTruncateShrink lState file chargedTo kmd size fblock de);
  (* Record the unrefs before checking the error so we remember the state
     of newly dirtied blocks. *)
  appendUnrefs si (tUnrefs t);;
  match tErr t with
  | Some e => mret (None, [], tNewlyDirtiedChildBytes t, Some e)
  | None =>
      (* Update dirtied bytes and unrefs regardless of error. *)
      df ← getOrCreateDirtyFileLocked lState file;
      updateNotYetSyncingBytes df (tNewlyDirtiedChildBytes t);;
      latestWrite ← withSyncOp si (fun so => soAddTruncate so size);
      now ← getsW nowUnixNano;
      let newDe := withTimes now (tNewDe t) in
      u ← updateEntryLocked lState kmd file newDe true;
      match u with
      | Some e => mret (None, [], tNewlyDirtiedChildBytes t, Some e)
      | None =>
          mret (Some latestWrite, tDirtyPtrs t, tNewlyDirtiedChildBytes t,
                None)
      end
  end.

(** The part of [truncateLocked] after the three early branches (lines
    2153-2186). *)
Definition truncateShrinkPath (lState : lockStateRef) (kmd : KMD) (file : path)
    (size : Z) (chargedTo : string) (fblock : addr) : M truncateResult :=
  (* update the local entry size *)
  d ← getEntryLocked lState kmd file true;
  match d with
  | Err e => mret (None, [], 0, Some e)
  | Ok de =>
      s ← getOrCreateSyncInfoLocked lState de;
      match s with
      | Err e => mret (None, [], 0, Some e)
      | Ok si => shrinkAndRecord lState kmd file size chargedTo fblock de si
      end
  end.

(** The branch [truncateLocked] takes (lines 2131-2151), computed as the
    code does in [int64]. *)
Inductive truncatePath :=
  | ExtendWithHole
  | ExtendByWrite (moreNeeded : Z)
  | SameSize
  | Shrink.

Definition truncateChoice (iSize startOff len nextBlockOff : Z)
    : truncatePath :=
  let currLen := int64 (int64 startOff + int64 len) in
  if int64 (currLen + truncateExtendCutoffPoint) <? iSize then ExtendWithHole
  else if currLen <? iSize then ExtendByWrite (int64 (iSize - currLen))
  else if (currLen =? iSize) && (nextBlockOff <? 0) then SameSize
  else Shrink.

Definition truncateLocked (lState : lockStateRef) (kmd : KMD) (file : path)
    (size : Z) : M truncateResult :=
  j ← journalStart;
  r ← (g ← writeGetFileLocked lState kmd file;
       match g with
       | Err e => mret (Some zeroWriteRange, [], 0, Some e)
       | Ok fblock =>
           c ← getChargedToLocked lState kmd;
           match c with
           | Err e => mret (Some zeroWriteRange, [], 0, Some e)
           | Ok chargedTo =>
               newFileData lState;;
               (* find the block where the file should now end *)
               let iSize := int64 size in (* TODO: deal with overflow *)
               o ← liftS (fdGetFileBlockAtOffset lState file chargedTo kmd
                            fblock iSize blockWrite);
               match o with
               | Err e => mret (Some zeroWriteRange, [], 0, Some e)
               | Ok at_ =>
                   n ← lenContents (oBlock at_);
                   let currLen := int64 (int64 (oStartOff at_) + int64 n) in
                   match truncateChoice iSize (oStartOff at_) n
                           (oNextBlockOff at_) with
                   | ExtendWithHole =>
                       x ← truncateExtendLocked lState kmd file (uint64 iSize)
                             (oParentBlocks at_);
                       mret (Some x.1.1, x.1.2, 0, x.2)
                   | ExtendByWrite moreNeeded =>
                       zeros ← makeBytes moreNeeded;
                       w ← writeDataLocked lState kmd file zeros currLen;
                       mret (Some w.1.1.1, w.1.1.2, w.1.2, w.2)
                   | SameSize =>
                       (* same size! *)
                       mret (None, [], 0, None)
                   | Shrink =>
                       truncateShrinkPath lState kmd file size chargedTo fblock
                   end
               end
           end
       end);
  journalEnd j;;
  mret r.

(** The branches as the specification words them, on the requested size
    itself: "Extension beyond truncateExtendCutoffPoint (128 KiB) above
    current tail -> hole-creating extend.  Extension within cutoff ->
    delegate to write path with zero bytes.  Exact match with no further
    blocks -> no-op.  Otherwise -> shrink." *)
Definition truncateChoice_spec (size currLen : Z) (furtherBlock : bool)
    : truncatePath :=
  if currLen + 128 * 1024 <? size then ExtendWithHole
  else if currLen <? size then ExtendByWrite (size - currLen)
  else if (size =? currLen) && negb furtherBlock then SameSize
  else Shrink.

(** ** [IsDirty] and [ClearCacheInfo] (lines 2266-2341) *)

Definition IsDirty (lState : lockStateRef) (file : path) : M bool :=
  RLock lState;;
  tlf ← id;
  tp ← tailPointer' file;
  cached ← getsW (fun w => dbcIsDirty w tlf tp (Branch file));
  r ← (if (cached : bool) then mret true
       else
         tp ← tailPointer' file;
         df ← gets (fun s => dirtyFiles (shared s) !! tp);
         match df with
         | Some _ => mret true
         | None =>
             tr ← tailRef' file;
             si ← gets (fun s => unrefCache s !! tr);
             mret (bool_decide (is_Some si))
         end);
  RUnlock lState;;
  mret r.

Definition clearCacheInfoLocked (lState : lockStateRef) (file : path)
    : M (option Error) :=
  AssertLocked lState;;
  ref ← tailRef' file;
  modify (fun s => set_unrefCache (delete ref (unrefCache s)) s);;
  tp ← tailPointer' file;
  df ← gets (fun s => dirtyFiles (shared s) !! tp);
  match df with
  | Some _ =>
      err ← withDirtyFile tp (onDFW dfFinishSync);
      match err with
      | Some e => mret (Some e)
      | None =>
          tp ← tailPointer' file;
          modShared (fun sh => set_dirtyFiles (delete tp (dirtyFiles sh)) sh);;
          mret None
      end
  | None => mret None
  end.

Definition ClearCacheInfo (lState : lockStateRef) (file : path)
    : M (option Error) :=
  Lock lState;;
  r ← clearCacheInfoLocked lState file;
  Unlock lState;;
  mret r.

(** ** Finishing and cleaning up a sync (lines 1577-1657, 2343-2393,
       2446-2483, 2720-2970) *)

Record fileSyncState := mkFileSyncState {
  fblock : option addr;
  savedFblock : option addr;
  redirtyOnRecoverableError : gmap BlockPointer BlockPointer;
  si : option siAddr;
  savedSi : option siAddr;
  oldFileBlockPtrs : list BlockPointer;
  newIndirectFileBlockPtrs : list BlockPointer
}.

(** A send on a listener channel. *)
Definition send (e : Error) (m : gmap chanId (list Error)) (c : chanId)
    : gmap chanId (list Error) :=
  <[c := default [] (m !! c) ++ [e]]> m.

(** Modelled from the spec: [dirtyFile.notifyErrListeners] is not in this
    file.  Section 4.6.3: "notify error listeners"; section 7: a blocked
    Write learns about the failure "via its subscribed listener channel". *)
Definition notifyErrListeners (df : dirtyFile) (err : Error) : M unit :=
  modify (fun s => set_chans (foldl (send err) (chans s) (errListeners df)) s).

Definition notifyErrListenersLocked (lState : lockStateRef)
    (ptr : BlockPointer) (err : Error) : M unit :=
  AssertLocked lState;;
  if isRecoverableBlockError err then
    (* Don't bother any listeners with this error, since the sync will be
       retried. *)
    mret tt
  else
    df ← gets (fun s => dirtyFiles (shared s) !! ptr);
    match df with
    | Some d => notifyErrListeners d err
    | None => mret tt
    end.

Definition inPtrs (l : list BlockPointer) (p : BlockPointer) : bool :=
  bool_decide (p ∈ l).

Definition revertSyncInfoAfterRecoverableError
    (blocksToRemove : list BlockPointer) (result : fileSyncState) : M unit :=
  a ← deref (si result) "nil syncInfo";
  s ← getSyncInfo a;
  (* Save the blocks we need to clean up on the next attempt. *)
  let toClean := toCleanIfUnused s in
  let newIndirect := newIndirectFileBlockPtrs result in
  let unrefs' :=
    filter (fun unref => inPtrs newIndirect (biPointer unref) = false)
      (unrefs s) in
  sa ← deref (savedSi result) "nil syncInfo";
  saved ← getSyncInfo sa;
  (* *si = *savedSi *)
  let s1 := set_unrefs unrefs' (set_toCleanIfUnused toClean saved) in
  match bps s1 with
  | None => putSyncInfo a s1
  | Some _ =>
      (* After the struct copy si.bps and savedSi.bps are one
         *blockPutState: clearing blockStates through si clears what the
         loop then ranges over through savedSi. *)
      let cleared := mkBlockPutState [] in
      let good :=
        filter (fun bs => inPtrs blocksToRemove (blockPtr bs) = false)
          (blockStates cleared) in
      let final := Some (mkBlockPutState (blockStates cleared ++ good)) in
      putSyncInfo sa (set_bps final saved);;
      putSyncInfo a (set_bps final s1)
  end.

Definition fixChildBlocksBody (lState : lockStateRef) (file : path) (kmd : KMD)
    (redirty : gmap BlockPointer BlockPointer) : M unit :=
  tp ← tailPointer' file;
  df ← gets (fun s => dirtyFiles (shared s) !! tp);
  (match df with
   | Some _ =>
       (* Un-orphan old blocks *)
       forEach (map_to_list redirty).*2 (fun oldPtr =>
         withDirtyFile tp (onDF (fun x =>
           (tt, dfSetBlockOrphaned oldPtr false x))))
   | None => mret tt
   end);;
  tlf ← id;
  tp ← tailPointer' file;
  br ← branch;
  topBlock ← getsW (fun w => dbcGet w tlf tp br);
  isFile ← match topBlock with
            | Ok a =>
                b ← gets (fun s => blocks (shared s) !! a);
                mret (match b with Some (BFile _) => Some a | _ => None end)
            | Err _ => mret None
            end;
  match isFile with
  | None => tailPointer' file;; mret tt
  | Some fblock =>
      c ← getChargedToLocked lState kmd;
      match c with
      | Err _ => mret tt
      | Ok chargedTo =>
          newFileData lState;;
          let newPtrs := (map_to_list redirty).*1 in
          f ← liftS (fdFindIPtrsAndClearSize lState file chargedTo kmd fblock
                       newPtrs);
          match f with
          | Err _ => mret tt
          | Ok found =>
              forEach (map_to_list redirty) (fun '(newPtr, oldPtr) =>
                if negb (inPtrs found newPtr) then mret tt
                else
                  b ← getsW (fun w => bcGet w newPtr);
                  match b with
                  | Err _ => mret tt
                  | Ok blk =>
                      cacheBlockIfNotYetDirtyLocked lState newPtr file blk;;
                      dbcDelete_ oldPtr;;
                      mret tt
                  end)
          end
      end
  end.

Definition fixChildBlocksAfterRecoverableErrorLocked (lState : lockStateRef)
    (file : path) (kmd : KMD) (redirty : gmap BlockPointer BlockPointer)
    : M unit :=
  AssertLocked lState;;
  fixChildBlocksBody lState file kmd redirty;;
  (* deferred: just reset doDeferWrite once we're done *)
  modShared (set_doDeferWrite false).

(** [FileBlock.Set]: overwrite the block with the contents of another. *)
Definition SetFileBlock (fb : addr) (other : option addr) : M unit :=
  o ← deref other "nil block";
  src ← gets (fun s => blocks (shared s) !! o);
  match src with
  | Some (BFile b) =>
      modShared (fun sh => set_blocks (<[fb := BFile b]> (blocks sh)) sh)
  | _ => panic "invalid memory address or nil pointer dereference"
  end.

Definition CleanupSyncState (lState : lockStateRef) (md : MD) (file : path)
    (blocksToRemove : list BlockPointer) (result : fileSyncState)
    (err : option Error) : M unit :=
  j ← getsW getJournalServer;
  match err with
  | None => journalEnd j
  | Some e =>
      Lock lState;;
      (* Notify error listeners before we reset the dirty blocks and
         permissions to be granted. *)
      tp ← tailPointer' file;
      notifyErrListenersLocked lState tp e;;
      (match si result with
       | Some a =>
           withSyncOp a (fun so => (tt, soResetUpdateState so));;
           s ← getSyncInfo a;
           copy ← deref (bpsDeepCopy (bps s)) "nil blockPutState";
           putSyncInfo a
             (set_toCleanIfUnused (toCleanIfUnused s ++ [mkMdToClean md copy]) s)
       | None => mret tt
       end);;
      (if isRecoverableBlockError e then
         (match si result with
          | Some _ => revertSyncInfoAfterRecoverableError blocksToRemove result
          | None => mret tt
          end);;
         match fblock result with
         | Some fb =>
             SetFileBlock fb (savedFblock result);;
             fixChildBlocksAfterRecoverableErrorLocked lState file
               (mdAsKMD md) (redirtyOnRecoverableError result)
         | None => mret tt
         end
       else
         tr ← tailRef' file;
         ds ← gets (fun s => default zeroDeferredState (deferred s !! tr));
         tp ← tailPointer' file;
         df ← gets (fun s => dirtyFiles (shared s) !! tp);
         (match df with
          | Some _ =>
              updateNotYetSyncingBytes tp (int64 (- waitBytes ds));;
              forEach (oldFileBlockPtrs result) (fun ptr =>
                orphaned ← withDirtyFile tp (onDF (fun x =>
                  (dfIsBlockOrphaned x ptr, x)));
                if (orphaned : bool) then dbcDelete_ ptr;; mret tt
                else mret tt)
          | None => mret tt
          end);;
         tr ← tailRef' file;
         modify (fun s => set_deferred (delete tr (deferred s)) s));;
      (* Old syncing blocks are now just dirty *)
      tp ← tailPointer' file;
      df ← gets (fun s => dirtyFiles (shared s) !! tp);
      (match df with
       | Some _ =>
           withDirtyFile tp (onDF (fun x => (tt, dfResetSyncingBlocksToDirty x)))
       | None => mret tt
       end);;
      Unlock lState;;
      journalEnd j
  end.

(** The blocks of one old revision to clean up; [None] is the panic on a
    zero pointer. *)
Fixpoint failedBlockStates (refs : list BlockPointer) (bdType : blockDeleteType)
    (bss : list blockState) (seen : list BlockPointer)
    : option (list blockState * list BlockPointer) :=
  match bss with
  | [] => Some ([], seen)
  | bs :: rest =>
      if bool_decide (blockPtr bs = zeroPtr) then None
      else if inPtrs seen (blockPtr bs) then
        failedBlockStates refs bdType rest seen
      else if inPtrs refs (blockPtr bs)
              && bool_decide (bdType = blockDeleteAlways) then
        failedBlockStates refs bdType rest (blockPtr bs :: seen)
      else
        match failedBlockStates refs bdType rest (blockPtr bs :: seen) with
        | Some (failed, seen') => Some (mkBlockState (blockPtr bs) :: failed, seen')
        | None => None
        end
  end.

Fixpoint cleanOldMDs (md : MD) (refs : list BlockPointer)
    (olds : list mdToCleanIfUnused) (seen : list BlockPointer) : M unit :=
  match olds with
  | [] => mret tt
  | oldMD :: rest =>
      let bdType :=
        if bool_decide (mdMergedStatus (tcMd oldMD) <> mdMergedStatus md)
        then blockDeleteOnMDFail else blockDeleteAlways in
      oldBps ← deref (tcBps oldMD) "nil blockPutState";
      match failedBlockStates refs bdType (blockStates oldBps) seen with
      | None => panic "Unexpected zero block ptr in an old sync MD revision"
      | Some (failed, seen') =>
          (if negb (length failed =? 0)%nat then
             modW (cleanUpBlockState (tcMd oldMD) (mkBlockPutState failed) bdType)
           else mret tt);;
          cleanOldMDs md refs rest seen'
      end
  end.

Definition cleanUpUnusedBlocks (md : MD) (syncState : fileSyncState)
    : M (option Error) :=
  a ← deref (si syncState) "nil syncInfo";
  s ← getSyncInfo a;
  if (length (toCleanIfUnused s) =? 0)%nat then mret None
  else
    (* What blocks are referenced in the successful MD? *)
    let refs := concat (map (fun o => o.1 ++ o.2) (mdOpsRefs md)) in
    if inPtrs refs zeroPtr
    then panic "Unexpected zero ref ptr in a sync MD revision"
    else cleanOldMDs md refs (toCleanIfUnused s) [];; mret None.

(** Running one queued closure against the new path [f]. *)
Definition runDeferred (lState : lockStateRef) (kmd : KMD) (f : path)
    (d : deferredOp) : M (option Error) :=
  match d with
  | DeferredWrite filePath dataCopy off newlyDirtiedChildBytes =>
      df ← getOrCreateDirtyFileLocked lState filePath;
      updateNotYetSyncingBytes df (int64 (- newlyDirtiedChildBytes));;
      w ← writeDataLocked lState kmd f dataCopy off;
      mret w.2
  | DeferredTruncate filePath size newlyDirtiedChildBytes =>
      df ← getOrCreateDirtyFileLocked lState filePath;
      updateNotYetSyncingBytes df (int64 (- newlyDirtiedChildBytes));;
      t ← truncateLocked lState kmd f size;
      mret t.2
  end.

(** A loop that returns on the first error. *)
Fixpoint untilErr {A} (l : list A) (f : A -> M (option Error))
    : M (option Error) :=
  match l with
  | [] => mret None
  | x :: l' =>
      e ← f x;
      match e with
      | Some err => mret (Some err)
      | None => untilErr l' f
      end
  end.

Definition doDeferredWritesLocked (lState : lockStateRef) (kmd : KMD)
    (oldPath newPath : path) : M (bool * option Error) :=
  AssertLocked lState;;
  (* Redo any writes or truncates that happened to our file while the sync
     was happening. *)
  tr ← tailRef' oldPath;
  ds ← gets (fun s => default zeroDeferredState (deferred s !! tr));
  let stillDirty := negb (length (writes ds) =? 0)%nat in
  tr ← tailRef' oldPath;
  modify (fun s => set_deferred (delete tr (deferred s)) s);;
  e ← untilErr (dirtyDeletes ds) dbcDelete_;
  match e with
  | Some err => mret (true, Some err)
  | None =>
      e ← untilErr (writes ds) (runDeferred lState kmd newPath);
      match e with
      | Some err => mret (true, Some err)
      | None => mret (stillDirty, None)
      end
  end.

Definition FinishSyncLocked (lState : lockStateRef) (oldPath newPath : path)
    (md : MD) (syncState : fileSyncState) : M (bool * option Error) :=
  AssertLocked lState;;
  e ← untilErr (oldFileBlockPtrs syncState) dbcDelete_;
  match e with
  | Some err => mret (true, Some err)
  | None =>
      forEach (newIndirectFileBlockPtrs syncState) (fun ptr =>
        liftW (bcDeletePermanent (ID ptr));; mret tt);;
      d ← doDeferredWritesLocked lState (mdAsKMD md) oldPath newPath;
      match d.2 with
      | Some err => mret (true, Some err)
      | None =>
          c ← clearCacheInfoLocked lState oldPath;
          match c with
          | Some err => mret (true, Some err)
          | None =>
              u ← cleanUpUnusedBlocks md syncState;
              match u with
              | Some err => mret (true, Some err)
              | None => mret (d.1, None)
              end
          end
      end
  end.

(** ** Fast-forwarding the node cache (lines 3266-3294, 3319-3487) *)

Record NodeChange := mkNodeChange {
  ncNode : Node;
  DirUpdated : list string;
  FileUpdated : list WriteRange
}.

Definition NewEmpty (b : Block) : Block :=
  match b with
  | BFile _ => NewFileBlock
  | BDir _ => NewDirBlock
  | BCommon _ => NewCommonBlock
  end.

Definition updatePointer (kmd : KMD) (oldPtr newPtr : BlockPointer)
    (shouldPrefetch : bool) : M (option N) :=
  updatedNode ← withNodeCache (ncUpdatePointer (Ref oldPtr) newPtr);
  match updatedNode with
  | None => mret None
  | Some n =>
      if bool_decide (ID oldPtr = ID newPtr) then mret None
      else if shouldPrefetch then
        c ← getsW (fun w => bcGetWithPrefetch w oldPtr);
        match c with
        | Err _ => mret (Some n)
        | Ok (block, _, lifetime) =>
            b ← gets (fun s => blocks (shared s) !! block);
            blk ← deref b "nil block";
            modW (retrieverRequest kmd newPtr (NewEmpty blk) lifetime);;
            modW (cancelPrefetch (ID oldPtr));;
            mret (Some n)
        end
      else
        modW (cancelPrefetch (ID oldPtr));;
        mret (Some n)
  end.

Definition unlinkDuringFastForwardLocked (lState : lockStateRef) (kmd : KMD)
    (ref : BlockRef) : M unit :=
  AssertLocked lState;;
  oldNode ← withNodeCache (fun nc => (ncGet nc ref, nc));
  match oldNode with
  | None => mret tt
  | Some n =>
      oldPath ← withNodeCache (fun nc => (ncPathFromNode nc (Some n), nc));
      d ← getEntryLocked lState kmd oldPath true;
      let de := match d with Ok x => x | Err _ => zeroDirEntry end in
      withNodeCache (ncUnlink ref oldPath de);;
      mret tt
  end.

(** [children]: for each path prefix, the set of its cached child nodes. *)
Definition childMap : Type := gmap string (list pathNode).

Definition addChild (prefix : string) (pn : pathNode) (children : childMap)
    : childMap :=
  let old := default [] (children !! prefix) in
  if bool_decide (pn ∈ old) then <[prefix := old]> children
  else <[prefix := old ++ [pn]]> children.

Definition lookupEntry (name : string) (entries : list (string * DirEntry))
    : option DirEntry :=
  snd <$> List.find (fun x => String.eqb x.1 name) entries.

Definition ffResult : Type := res (list NodeChange * list N) * childMap.

(** The recursion follows the directory tree of the new revision, which Rocq
    cannot see to be finite, so it is cut off by [fuel]. *)
Fixpoint fastForwardDirAndChildrenLocked (fuel : nat) (lState : lockStateRef)
    (currDir : path) (children : childMap) (kmd : KMD) : M ffResult :=
  match fuel with
  | O => fun _ => OutOfFuel
  | S fuel' =>
      AssertLocked lState;;
      c ← getChargedToLocked lState kmd;
      match c with
      | Err e => mret (Err e, children)
      | Ok chargedTo =>
          newDirDataLocked lState;;
          g ← liftS (ddGetEntries lState currDir chargedTo kmd);
          match g with
          | Err e => mret (Err e, children)
          | Ok entries =>
              let prefix := pathString currDir in
              let loop := fix loop (todo : list pathNode)
                              (acc : list NodeChange * list N)
                              (children : childMap) : M ffResult :=
                match todo with
                | [] => mret (Ok acc, delete prefix children)
                | child :: todo' =>
                    match lookupEntry (pnName child) entries with
                    | None =>
                        unlinkDuringFastForwardLocked lState kmd
                          (Ref (pnPointer child));;
                        loop todo' acc children
                    | Some entry =>
                        updatePointer kmd (pnPointer child) (dePointer entry)
                          true;;
                        node ← withNodeCache (fun nc =>
                                 (ncGet nc (deRef entry), nc));
                        newPath ← withNodeCache (fun nc =>
                                    (ncPathFromNode nc node, nc));
                        if bool_decide (deType entry = Dir) then
                          let acc1 :=
                            match node with
                            | Some n =>
                                (acc.1 ++ [mkNodeChange n
                                   (pnName <$> default []
                                      (children !! pathString newPath)) []],
                                 acc.2 ++ [nodeGetID n])
                            | None => acc
                            end in
                          r ← fastForwardDirAndChildrenLocked fuel' lState
                                newPath children kmd;
                          match r.1 with
                          | Err e => mret (Err e, r.2)
                          | Ok (childChanges, childAffected) =>
                              loop todo'
                                (acc1.1 ++ childChanges, acc1.2 ++ childAffected)
                                r.2
                          end
                        else
                          match node with
                          | Some n =>
                              (* File -- invalidate the entire file contents. *)
                              loop todo'
                                (acc.1 ++ [mkNodeChange n [] [mkWriteRange 0 0]],
                                 acc.2 ++ [nodeGetID n])
                                children
                          | None => loop todo' acc children
                          end
                    end
                end in
              loop (default [] (children !! prefix)) ([], []) children
          end
      end
  end.

(** The tree of interesting path prefixes built from one cached path. *)
Fixpoint addPathNodes (prevPath : string) (pns : list pathNode)
    (children : childMap) : childMap :=
  match pns with
  | [] => children
  | pn :: rest =>
      let children' :=
        if negb (String.eqb prevPath "") then addChild prevPath pn children
        else children in
      addPathNodes (filepathJoin prevPath (pnName pn)) rest children'
  end.

Fixpoint buildTree (nc : NC) (nodes : list Node) (rootPath : path)
    (children : childMap) : path * childMap :=
  match nodes with
  | [] => (rootPath, children)
  | n :: rest =>
      let p := ncPathFromNode nc (Some n) in
      let rootPath' :=
        if (length (pathNodes p) =? 1)%nat then p else rootPath in
      buildTree nc rest rootPath' (addPathNodes "" (pathNodes p) children)
  end.

Definition setRootPointer (p : path) (ptr : BlockPointer) : path :=
  match pathNodes p with
  | [] => p
  | pn :: rest => mkPath (Tlf p) (Branch p) (mkPathNode ptr (pnName pn) :: rest)
  end.

Definition FastForwardAllNodes (fuel : nat) (lState : lockStateRef) (md : MD)
    : M (list NodeChange * list N * option Error) :=
  o ← gets nodeCache;
  match o with
  | None =>
      (* Nothing needs to be done! *)
      mret ([], [], None)
  | Some _ =>
      (* Take a hard lock through this whole process. *)
      Lock lState;;
      nodes ← withNodeCache (fun nc => (ncAllNodes nc, nc));
      if (length nodes =? 0)%nat then
        (* Nothing needs to be done! *)
        Unlock lState;;
        mret ([], [], None)
      else
        (* Build a "tree" representation for each interesting path prefix. *)
        t ← withNodeCache (fun nc => (buildTree nc nodes zeroPath ∅, nc));
        let rootPath := t.1 in
        let children := t.2 in
        if negb (pathIsValid rootPath) then
          Unlock lState;;
          mret ([], [], Some RootPathNotFoundError)
        else
          root0 ← deref (head (pathNodes rootPath)) "index out of range";
          let kmd := mdAsKMD md in
          updatePointer kmd (pnPointer root0) (mdRootPointer md) false;;
          let rootPath := setRootPointer rootPath (mdRootPointer md) in
          rootNode ← withNodeCache (fun nc =>
                       (ncGet nc (Ref (mdRootPointer md)), nc));
          let acc :=
            match rootNode with
            | Some n =>
                ([mkNodeChange n
                    (pnName <$> default [] (children !! pathString rootPath))
                    []],
                 [nodeGetID n])
            | None => ([], [])
            end in
          r ← fastForwardDirAndChildrenLocked fuel lState rootPath children kmd;
          match r.1 with
          | Err e => Unlock lState;; mret ([], [], Some e)
          | Ok (childChanges, childAffected) =>
              (* Unlink any children that remain. *)
              forEach (concat (map_to_list r.2).*2) (fun child =>
                unlinkDuringFastForwardLocked lState kmd
                  (Ref (pnPointer child)));;
              Unlock lState;;
              mret (acc.1 ++ childChanges, acc.2 ++ childAffected, None)
          end
  end.

(** ** [GetCleanEncodedBlocksSizeSum] (lines 473-528) *)

(** The coordinator fills [ptrCh], starts the workers, closes [ptrCh] and
    waits; each worker receives a pointer, fetches its size with a nil
    [lockState] and [blockReadParallel], and either sends the size on
    [sumCh], skips the pointer, or returns the error to the [errgroup].
    The interleaving of the workers is not fixed by the program, so the
    fan-out is a step relation on the state of the pool. *)
Inductive worker :=
  | Receiving
  | Fetching (ptr : BlockPointer)
  | Exited (err : option Error).

Record pool := mkPool {
  ptrCh : list BlockPointer;
  ptrChClosed : bool;
  sumCh : list Z;
  workers : list worker;
  (* the errgroup's first error; once set, groupCtx is cancelled *)
  groupErr : option Error;
  engine : State
}.

Definition numWorkers (ptrs : list BlockPointer) : Z :=
  if Z.of_nat (length ptrs) <? numBlockSizeWorkersMax
  then Z.of_nat (length ptrs) else numBlockSizeWorkersMax.

Definition initPool (ptrs : list BlockPointer) (st : State) : pool :=
  mkPool ptrs false [] (replicate (Z.to_nat (numWorkers ptrs)) Receiving)
    None st.

Definition ignored (ignore : gmap BlockPointer bool) (ptr : BlockPointer)
    : bool :=
  default false (ignore !! ptr).

(** The body of the worker's loop after the fetch (lines 501-511). *)
Definition finish (ignore : gmap BlockPointer bool) (i : nat)
    (ptr : BlockPointer) (r : res Z) (p : pool) : pool :=
  match r with
  | Err e =>
      if isRecoverableBlockErrorForRemoval e && ignored ignore ptr then
        (* continue *)
        mkPool (ptrCh p) (ptrChClosed p) (sumCh p)
          (<[i := Receiving]> (workers p)) (groupErr p) (engine p)
      else
        mkPool (ptrCh p) (ptrChClosed p) (sumCh p)
          (<[i := Exited (Some e)]> (workers p))
          (match groupErr p with Some e0 => Some e0 | None => Some e end)
          (engine p)
  | Ok size =>
      mkPool (ptrCh p) (ptrChClosed p) (sumCh p ++ [size])
        (<[i := Receiving]> (workers p)) (groupErr p) (engine p)
  end.

Definition withEngine (st : State) (p : pool) : pool :=
  mkPool (ptrCh p) (ptrChClosed p) (sumCh p) (workers p) (groupErr p) st.

Inductive pool_step (kmd : KMD) (branch : string)
    (ignore : gmap BlockPointer bool) : pool -> pool -> Prop :=
  | step_close p :
      ptrChClosed p = false ->
      pool_step kmd branch ignore p
        (mkPool (ptrCh p) true (sumCh p) (workers p) (groupErr p) (engine p))
  | step_receive p i ptr rest :
      workers p !! i = Some Receiving ->
      ptrCh p = ptr :: rest ->
      pool_step kmd branch ignore p
        (mkPool rest (ptrChClosed p) (sumCh p)
           (<[i := Fetching ptr]> (workers p)) (groupErr p) (engine p))
  | step_drained p i :
      workers p !! i = Some Receiving ->
      ptrCh p = [] ->
      ptrChClosed p = true ->
      pool_step kmd branch ignore p
        (mkPool (ptrCh p) (ptrChClosed p) (sumCh p)
           (<[i := Exited None]> (workers p)) (groupErr p) (engine p))
  | step_fetched p i ptr r st' :
      workers p !! i = Some (Fetching ptr) ->
      getCleanEncodedBlockSizeLocked lsNil kmd ptr branch blockReadParallel
        (engine p) = Ret r st' ->
      pool_step kmd branch ignore p (finish ignore i ptr r (withEngine st' p))
  | step_cancelled p i ptr e :
      (* a fetch interrupted because groupCtx was cancelled *)
      workers p !! i = Some (Fetching ptr) ->
      groupErr p <> None ->
      pool_step kmd branch ignore p (finish ignore i ptr (Err e) p).

Definition isExited (w : worker) : Prop :=
  match w with
  | Exited _ => True
  | _ => False
  end.

(** [for size := range sumCh { sum += uint64(size) }]. *)
Definition sumSizes (sizes : list Z) : Z :=
  foldl (fun sum size => wrap64 (sum + size)) 0 sizes.

(** [GetCleanEncodedBlocksSizeSum] returns [(sum, err)] from [st], leaving
    [st']: some schedule takes the pool from its initial state to one in
    which [eg.Wait] returns. *)
Definition GetCleanEncodedBlocksSizeSum_returns (lState : lockStateRef)
    (kmd : KMD) (ptrs : list BlockPointer) (ignore : gmap BlockPointer bool)
    (branch : string) (st : State) (sum : Z) (err : option Error)
    (st' : State) : Prop :=
  exists st1 p,
    RLock lState st = Ret tt st1 /\
    rtc (pool_step kmd branch ignore) (initPool ptrs st1) p /\
    ptrChClosed p = true /\
    Forall isExited (workers p) /\
    (sum, err) = match groupErr p with
                 | Some e => (0, Some e)
                 | None => (sumSizes (sumCh p), None)
                 end /\
    RUnlock lState (engine p) = Ret tt st'.

(** What the fetch of one pointer answers in state [st]. *)
Definition fetchedSize (kmd : KMD) (branch : string) (st : State)
    (ptr : BlockPointer) : option (res Z) :=
  match getCleanEncodedBlockSizeLocked lsNil kmd ptr branch blockReadParallel st
  with
  | Ret r _ => Some r
  | _ => None
  end.

(** The pointers the sum leaves out: in the ignore set, and failed with a
    recoverable-for-removal error. *)
Definition skipped (kmd : KMD) (branch : string)
    (ignore : gmap BlockPointer bool) (st : State) (ptr : BlockPointer)
    : bool :=
  match fetchedSize kmd branch st ptr with
  | Some (Err e) => isRecoverableBlockErrorForRemoval e && ignored ignore ptr
  | _ => false
  end.

Definition encodedSizeOf (kmd : KMD) (branch : string) (st : State)
    (ptr : BlockPointer) : Z :=
  match fetchedSize kmd branch st ptr with
  | Some (Ok size) => size
  | _ => 0
  end.

Fixpoint sumZ (l : list Z) : Z :=
  match l with
  | [] => 0
  | x :: l' => x + sumZ l'
  end.

(** [fb] is a deep copy of [cached] made between [st1] and [st']: a block
    that did not exist in [st1], distinct from [cached], holding the same
    contents, and nothing else changed. *)
Definition isDeepCopyOf (cached fb : addr) (st1 st' : State) : Prop :=
  exists b,
    blocks (shared st1) !! cached = Some (BFile b) /\
    blocks (shared st1) !! fb = None /\
    fb <> cached /\
    st' = set_shared
            (set_blocks (<[fb := BFile b]> (blocks (shared st1))) (shared st1))
            st1.

(** The condition of lines 664-665. *)
Definition needsCopyForWrite (wasDirty : bool) (ptr tp : BlockPointer)
    (st : State) : bool :=
  negb wasDirty
  || match dirtyFiles (shared st) !! tp with
     | Some df => dfBlockNeedsCopy (dfState df) ptr
     | None => false
     end.

(** ** Vocabulary of the properties *)

(** Frame condition: whenever [m] returns, the part [proj] of the engine is
    what it was. *)
Definition keeps {X A} (proj : State -> X) (m : M A) : Prop :=
  forall s a s', m s = Ret a s' -> proj s' = proj s.

(** The listener channels after [notifyErrListenersLocked]. *)
Definition notified (e : Error) (tp : BlockPointer) (st : State)
    : gmap chanId (list Error) :=
  if isRecoverableBlockError e then chans st
  else match dirtyFiles (shared st) !! tp with
       | Some df => foldl (send e) (chans st) (errListeners df)
       | None => chans st
       end.

(** The deferred writes queued for a path when [FinishSyncLocked] is
    called. *)
Definition queuedWrites (st : State) (tr : BlockRef) : list deferredOp :=
  writes (default zeroDeferredState (deferred st !! tr)).

(** The pointers whose fetch is in flight. *)
Definition inFlight (ws : list worker) : list BlockPointer :=
  omap (fun w => match w with Fetching q => Some q | _ => None end) ws.

(** A pointer the loop body got past without returning an error. *)
Definition handled (kmd : KMD) (branch : string)
    (ignore : gmap BlockPointer bool) (st : State) (q : BlockPointer) : Prop :=
  skipped kmd branch ignore st q = true \/
  exists sz, fetchedSize kmd branch st q = Some (Ok sz).

(** The invariant of the worker pool started on [ptrs] in state [st1]:
    as long as no worker failed, every pointer is done, in flight or still
    in the channel, and the sum channel holds the sizes of the done ones. *)
Definition poolInv (kmd : KMD) (branch : string)
    (ignore : gmap BlockPointer bool) (ptrs : list BlockPointer) (st1 : State)
    (p : pool) : Prop :=
  length (workers p) = Z.to_nat (numWorkers ptrs) /\
  (groupErr p = None ->
   engine p = st1 /\
   (forall i e, workers p !! i = Some (Exited (Some e)) -> False) /\
   ((exists i, workers p !! i = Some (Exited None)) -> ptrCh p = []) /\
   exists done,
     ptrs ≡ₚ done ++ inFlight (workers p) ++ ptrCh p /\
     Forall (handled kmd branch ignore st1) done /\
     sumZ (sumCh p) = sumZ (encodedSizeOf kmd branch st1 <$> done)).

(** The sizes the workers send for the pointers of [ch]. *)
Definition sentSizes (kmd : KMD) (branch : string)
    (ignore : gmap BlockPointer bool) (st : State) (ch : list BlockPointer)
    : list Z :=
  encodedSizeOf kmd branch st
    <$> filter (fun q => skipped kmd branch ignore st q = false) ch.

(** ** [syncInfo.removeReplacedBlock] (lines 106-121)

    The function deletes from two slices with
    [append(s[:i], s[i+1:]...)], the second one inside a [range] loop over
    that same slice.  [append] moves the tail down inside the backing
    array, which the running loop goes on reading, so slices are modelled
    with their backing array. *)

(** A slice that starts at the beginning of its backing array: the array
    and the length [len(s)]; the capacity is the length of the array. *)
Record slice (A : Type) := mkSlice {
  backing : list A;
  len : nat
}.
#[global] Arguments mkSlice {A} _ _.
#[global] Arguments backing {A} _.
#[global] Arguments len {A} _.

(** What indexing and [range] see of a slice. *)
Definition elems {A} (s : slice A) : list A := take (len s) (backing s).

(** [len(s) <= cap(s)], which every slice of a Go program satisfies. *)
Definition wfSlice {A} (s : slice A) : Prop :=
  (len s <= length (backing s))%nat.

(** [append(s[:i], s[i+1:]...)].  [s[i+1:]] is [s[i+1:len(s)]] and panics
    with "slice bounds out of range" when [i+1 > len(s)] ([None]).
    Otherwise the result has length [len(s)-1 <= cap(s)], so [append]
    writes in place: the elements [i+1 .. len(s)-1] move down by one and
    the array's cell [len(s)-1] keeps its old value. *)
Definition removeIndex {A} (i : nat) (s : slice A) : option (slice A) :=
  if decide (i + 1 <= len s)%nat then
    Some (mkSlice (take i (backing s)
                   ++ take (len s - (i + 1)) (drop (i + 1) (backing s))
                   ++ drop (len s - 1) (backing s))
                  (len s - 1))
  else None.

(** [for j, unref := range si.unrefs { if unref.BlockPointer == ptr {
    si.unrefs = append(si.unrefs[:j], si.unrefs[j+1:]...) } }].  The range
    expression is evaluated once: [js] are the indices of the slice as it
    was before the loop, and [unref] is read from the backing array as it
    is when index [j] is reached. *)
Fixpoint removeUnrefs (ptr : BlockPointer) (js : list nat)
    (unrefs : slice BlockInfo) : option (slice BlockInfo) :=
  match js with
  | [] => Some unrefs
  | j :: js' =>
      match backing unrefs !! j with
      | None => None
      | Some unref =>
          if bool_decide (biPointer unref = ptr) then
            match removeIndex j unrefs with
            | Some unrefs' => removeUnrefs ptr js' unrefs'
            | None => None
            end
          else removeUnrefs ptr js' unrefs
      end
  end.

(** The outer loop over [si.op.RefBlocks], at index [i] with [rest] still
    to visit: the first reference equal to [ptr] is deleted, the unrefs are
    gone through, and the loop breaks. *)
Fixpoint removeRef (ptr : BlockPointer) (i : nat) (rest : list BlockPointer)
    (refBlocks : slice BlockPointer) (unrefs : slice BlockInfo)
    : option (slice BlockPointer * slice BlockInfo) :=
  match rest with
  | [] => Some (refBlocks, unrefs)
  | ref :: rest' =>
      if bool_decide (ref = ptr) then
        match removeIndex i refBlocks with
        | None => None
        | Some refBlocks' =>
            match removeUnrefs ptr (seq 0 (len unrefs)) unrefs with
            | None => None
            | Some unrefs' => Some (refBlocks', unrefs')
            end
        end
      else removeRef ptr (S i) rest' refBlocks unrefs
  end.

(** [removeReplacedBlock] on the two slices it touches, [si.op.RefBlocks]
    and [si.unrefs]; [None] is a run-time panic. *)
Definition removeReplacedBlock (ptr : BlockPointer)
    (refBlocks : slice BlockPointer) (unrefs : slice BlockInfo)
    : option (slice BlockPointer * slice BlockInfo) :=
  removeRef ptr 0 (elems refBlocks) refBlocks unrefs.

(** ** The exported directory-cache operations (lines 1098-1109,
       1156-1167) *)

Definition AddDirEntryInCache (lState : lockStateRef) (kmd : KMD)
    (dir : path) (newName : string) (newDe : DirEntry)
    : M (option dirCacheUndoFn * option Error) :=
  Lock lState;;
  r ← addDirEntryInCacheLocked lState kmd dir newName newDe;
  match r with
  | Err e => Unlock lState;; mret (None, Some e)
  | Ok fn => Unlock lState;; mret (Some (wrapWithBlockLock (Some fn)), None)
  end.

Definition RemoveDirEntryInCache (lState : lockStateRef) (kmd : KMD)
    (dir : path) (oldName : string) (oldDe : DirEntry)
    : M (option dirCacheUndoFn * option Error) :=
  Lock lState;;
  r ← removeDirEntryInCacheLocked lState kmd dir oldName oldDe;
  match r with
  | Err e => Unlock lState;; mret (None, Some e)
  | Ok fn => Unlock lState;; mret (Some (wrapWithBlockLock (Some fn)), None)
  end.

(** ** [ClearChargedTo] (lines 758-763) *)

Definition ClearChargedTo (lState : lockStateRef) : M unit :=
  Lock lState;;
  modify (set_chargedTo "");;
  Unlock lState.

(** ** [GetDirtyDirBlockRefs] (lines 1552-1562) *)

(** Go fixes no order for the iteration over a map: the refs are listed
    in the order of [map_to_list], and what is proved of the list is its
    membership. *)
Definition GetDirtyDirBlockRefs (lState : lockStateRef) : M (list BlockRef) :=
  RLock lState;;
  m ← gets dirtyDirs;
  let dirtyRefs := Ref <$> (map_to_list m).*1 in
  RUnlock lState;;
  mret dirtyRefs.

(** ** [UpdatePointers] (lines 3296-3317) *)

(** The loop over [op.allUpdates()], a list of [(Unref, Ref)] pairs. *)
Fixpoint updateAll (kmd : KMD) (shouldPrefetch : bool)
    (updates : list (BlockPointer * BlockPointer)) (affectedNodeIDs : list N)
    : M (list N) :=
  match updates with
  | [] => mret affectedNodeIDs
  | update :: rest =>
      updatedNode ← updatePointer kmd update.1 update.2 shouldPrefetch;
      updateAll kmd shouldPrefetch rest
        (match updatedNode with
         | Some n => affectedNodeIDs ++ [n]
         | None => affectedNodeIDs
         end)
  end.

Definition UpdatePointers (kmd : KMD) (lState : lockStateRef)
    (allUpdates : list (BlockPointer * BlockPointer)) (shouldPrefetch : bool)
    (afterUpdateFn : option (M (option Error)))
    : M (list N * option Error) :=
  Lock lState;;
  affectedNodeIDs ← updateAll kmd shouldPrefetch allUpdates [];
  match afterUpdateFn with
  | None => Unlock lState;; mret (affectedNodeIDs, None)
  | Some f =>
      e ← f;
      Unlock lState;;
      mret (affectedNodeIDs, e)
  end.

(** ** Vocabulary of the directory-cache properties *)

(** The engine's own record of dirty directories. *)
Definition dirBook (s : State)
    : gmap BlockPointer (list BlockInfo) * option DirEntry :=
  (dirtyDirs s, dirtyRootDirEntry s).

(** [undo] takes the directory book [post] back to [pre], whenever it is
    run on a state whose book is [post] and returns. *)
Definition undoes (undo : M unit)
    (pre post : gmap BlockPointer (list BlockInfo) * option DirEntry) : Prop :=
  forall s s' u, dirBook s = post -> undo s = Ret u s' -> dirBook s' = pre.

(** An operation that either fails and leaves the directory book alone, or
    succeeds and returns an undo function for what it did to the book. *)
Definition undoable (op : M (res (M unit))) : Prop :=
  forall st r st1, op st = Ret r st1 ->
    match r with
    | Err _ => dirBook st1 = dirBook st
    | Ok undo => undoes undo (dirBook st) (dirBook st1)
    end.

(** What a returned [dirCacheUndoFn] owes its caller: run on a state whose
    directory book is the one the operation left, it takes the book back to
    what it was before the operation; a nil undo function comes with an
    unchanged book. *)
Definition restores (undo : option dirCacheUndoFn) (pre post : State) : Prop :=
  match undo with
  | Some f =>
      forall lState s s' u,
        dirBook s = dirBook post -> f lState s = Ret u s' ->
        dirBook s' = dirBook pre
  | None => dirBook post = dirBook pre
  end.

(** The invariant of the worker pool that accounts for its error: whatever
    the workers do, the engine stays as it was, every pointer in the
    channel or in flight is one of [ptrs], and the errgroup's error, once
    set, is the answer of the fetch of one of [ptrs] that the loop body did
    not skip. *)
Definition errInv (kmd : KMD) (branch : string)
    (ignore : gmap BlockPointer bool) (ptrs : list BlockPointer) (st1 : State)
    (p : pool) : Prop :=
  engine p = st1 /\
  (forall q, q ∈ ptrCh p -> q ∈ ptrs) /\
  (forall i q, workers p !! i = Some (Fetching q) -> q ∈ ptrs) /\
  (forall e, groupErr p = Some e ->
     exists q, q ∈ ptrs /\ fetchedSize kmd branch st1 q = Some (Err e) /\
       skipped kmd branch ignore st1 q = false).

(** ** [Write] and [Truncate] (lines 1768-1848, 1970-2042, 2192-2264) *)

(** What [Write] and [Truncate] consume beyond [Config]: the admission
    control of the dirty block cache, the observers, and the test
    [errors.Cause(err) == context.Canceled || ... DeadlineExceeded]. *)
Class WriteConfig := {
  dbcRequestPermissionToDirty : N -> Z -> W -> option Error * W;
  dbcUpdateUnsyncedBytes : N -> Z -> bool -> W -> W;
  observersLocalChange : Node -> WriteRange -> W -> W;
  isContextError : Error -> bool
}.

Context {writeConfig : WriteConfig}.

Definition pathFromNodeForBlockWriteLocked (lState : lockStateRef) (n : Node)
    : M (res path) :=
  AssertLocked lState;;
  p ← withNodeCache (fun nc => (ncPathFromNode nc (Some n), nc));
  if pathIsValid p then mret (Ok p) else mret (Err (InvalidPathError p)).

(** [make(chan error, 1)]: a channel that is none of the existing ones. *)
Definition newChan : M chanId :=
  c ← gets (fun s =>
    fresh (dom (chans s) ∪
           list_to_set (concat (errListeners <$>
                                  (map_to_list (dirtyFiles (shared s))).*2))
           : gset chanId));
  modify (fun s => set_chans (<[c := []]> (chans s)) s);;
  mret c.

(** Modelled from the spec: [dirtyFile.addErrListener] is not in this
    file.  Section 3: a DirtyFile holds "a channel of error listeners";
    section 7: "A blocked Write learns about an eventual sync failure via
    its subscribed listener channel". *)
Definition addErrListener (ptr : BlockPointer) (c : chanId) : M unit :=
  withDirtyFile ptr (fun df w =>
    (tt, mkDirtyFile (errListeners df ++ [c]) (dfState df), w)).

(** The closure [registerErr] of [maybeWaitOnDeferredWrites]; the result is
    the new value of [errListener]. *)
Definition registerErr (lState : lockStateRef) (file : Node)
    : M (res chanId) :=
  Lock lState;;
  p ← pathFromNodeForBlockWriteLocked lState file;
  match p with
  | Err e => Unlock lState;; mret (Err e)
  | Ok filePath =>
      df ← getOrCreateDirtyFileLocked lState filePath;
      errListener ← newChan;
      addErrListener df errListener;;
      Unlock lState;;
      mret (Ok errListener)
  end.

(** The case of the [select] that fires in one round of the loop.  Which
    one does is not fixed by the program: it is given by a script of
    events. *)
Inductive selectEvent :=
  | permissionGranted                (* <-c *)
  | logTimerFired                    (* <-logTimer *)
  | ctxDone (ctxErr : Error)         (* <-ctx.Done(), with ctx.Err() *)
  | errListened.                     (* err = <-errListener *)

Definition queued (c : chanId) : M (list Error) :=
  gets (fun s => default [] (chans s !! c)).
Definition setQueued (c : chanId) (q : list Error) : M unit :=
  modify (fun s => set_chans (<[c := q]> (chans s)) s).

(** A [select] none of whose cases can fire, or a script that has ended
    while the loop still waits. *)
Definition blocked {A} : M A := fun _ => OutOfFuel.

(** Other operations run while this one waits; its lock token is its
    own. *)
Definition yield : M unit :=
  h ← getHolds;
  modify interleave;;
  setHolds h.

(** The [for { select { ... } }] loop.  While the [select] blocks the
    operation holds no lock, and other operations run.  [logTimer] fires
    once. *)
Fixpoint waitLoop (lState : lockStateRef) (file : Node)
    (errListener : chanId) (timerFired : bool) (script : list selectEvent)
    : M (option Error) :=
  match script with
  | [] => blocked
  | ev :: rest =>
      yield;;
      match ev with
      | permissionGranted =>
          (* Make sure there aren't any queued errors. *)
          q ← queued errListener;
          (match q with
           | _ :: q' => setQueued errListener q'
           | [] => mret tt
           end);;
          mret None
      | logTimerFired =>
          if timerFired then blocked
          else waitLoop lState file errListener true rest
      | ctxDone ctxErr => mret (Some ctxErr)
      | errListened =>
          q ← queued errListener;
          match q with
          | [] => blocked
          | err :: q' =>
              setQueued errListener q';;
              if isContextError err then
                r ← registerErr lState file;
                match r with
                | Err e => mret (Some e)
                | Ok errListener' =>
                    waitLoop lState file errListener' timerFired rest
                end
              else mret (Some err)
          end
      end
  end.

Definition maybeWaitOnDeferredWrites (lState : lockStateRef) (file : Node)
    (script : list selectEvent) : M (option Error) :=
  r ← registerErr lState file;
  match r with
  | Err e => mret (Some e)
  | Ok errListener => waitLoop lState file errListener false script
  end.

(** The deferred state of a file with one more closure queued. *)
Definition deferOne (d : deferredOp) (dirtyPtrs : list BlockPointer)
    (newlyDirtiedChildBytes : Z) (ds : deferredState) : deferredState :=
  mkDeferredState (writes ds ++ [d]) (dirtyDeletes ds ++ dirtyPtrs)
    (int64 (waitBytes ds + newlyDirtiedChildBytes)).

Definition deferLocked (filePath : path) (d : deferredOp)
    (dirtyPtrs : list BlockPointer) (newlyDirtiedChildBytes : Z) : M unit :=
  tr ← tailRef' filePath;
  modify (fun s =>
    let ds := default zeroDeferredState (deferred s !! tr) in
    set_deferred
      (<[tr := deferOne d dirtyPtrs newlyDirtiedChildBytes ds]> (deferred s)) s).

(** The three deferred calls of [Write] and [Truncate], in the order they
    run. *)
Definition leaveWrite (lState : lockStateRef) (bytes : Z) : M unit :=
  modShared (set_doDeferWrite false);;
  Unlock lState;;
  tlf ← id;
  modW (dbcUpdateUnsyncedBytes tlf (int64 (- bytes)) false).

Definition Write (lState : lockStateRef) (kmd : KMD) (file : Node)
    (data : list Byte.byte) (off : Z) (script : list selectEvent)
    : M (option Error) :=
  let bytes := Z.of_nat (length data) in
  tlf ← id;
  err ← liftW (dbcRequestPermissionToDirty tlf bytes);
  match err with
  | Some e => mret (Some e)
  | None =>
      err ← maybeWaitOnDeferredWrites lState file script;
      match err with
      | Some e =>
          modW (dbcUpdateUnsyncedBytes tlf (int64 (- bytes)) false);;
          mret (Some e)
      | None =>
          Lock lState;;
          p ← pathFromNodeForBlockWriteLocked lState file;
          match p with
          | Err e =>
              Unlock lState;;
              modW (dbcUpdateUnsyncedBytes tlf (int64 (- bytes)) false);;
              mret (Some e)
          | Ok filePath =>
              w ← writeDataLocked lState kmd filePath data off;
              match w.2 with
              | Some e => leaveWrite lState bytes;; mret (Some e)
              | None =>
                  modW (observersLocalChange file w.1.1.1);;
                  d ← gets (fun s => doDeferWrite (shared s));
                  (if (d : bool) then
                     deferLocked filePath
                       (DeferredWrite filePath data off w.1.2) w.1.1.2 w.1.2
                   else mret tt);;
                  leaveWrite lState bytes;;
                  mret None
              end
          end
      end
  end.

Definition Truncate (lState : lockStateRef) (kmd : KMD) (file : Node)
    (size : Z) (script : list selectEvent) : M (option Error) :=
  let bytes := int64 size in
  tlf ← id;
  err ← liftW (dbcRequestPermissionToDirty tlf bytes);
  match err with
  | Some e => mret (Some e)
  | None =>
      err ← maybeWaitOnDeferredWrites lState file script;
      match err with
      | Some e =>
          modW (dbcUpdateUnsyncedBytes tlf (int64 (- bytes)) false);;
          mret (Some e)
      | None =>
          Lock lState;;
          p ← pathFromNodeForBlockWriteLocked lState file;
          match p with
          | Err e =>
              Unlock lState;;
              modW (dbcUpdateUnsyncedBytes tlf (int64 (- bytes)) false);;
              mret (Some e)
          | Ok filePath =>
              t ← truncateLocked lState kmd filePath size;
              match t.2 with
              | Some e => leaveWrite lState bytes;; mret (Some e)
              | None =>
                  (match t.1.1.1 with
                   | Some latestWrite =>
                       modW (observersLocalChange file latestWrite)
                   | None => mret tt
                   end);;
                  d ← gets (fun s => doDeferWrite (shared s));
                  (if (d : bool) then
                     deferLocked filePath
                       (DeferredTruncate filePath size t.1.2) t.1.1.2 t.1.2
                   else mret tt);;
                  leaveWrite lState bytes;;
                  mret None
              end
          end
      end
  end.

(** ** [SetAttrInDirEntryInCache] (lines 1248-1323) *)

(** [attrChange] is declared in another file; the [switch] of
    [setCachedAttrLocked] names two of its values and does nothing for any
    other. *)
Inductive attrChange := exAttr | mtimeAttr | otherAttr.

(** [switch attr { case exAttr: de.Type = realEntry.Type; case mtimeAttr:
    de.Mtime = realEntry.Mtime }; de.Ctime = realEntry.Ctime]. *)
Definition setAttr (attr : attrChange) (realEntry de : DirEntry) : DirEntry :=
  mkDirEntry (deInfo de)
    (match attr with exAttr => deType realEntry | _ => deType de end)
    (deSize de)
    (match attr with mtimeAttr => Mtime realEntry | _ => Mtime de end)
    (Ctime realEntry) (SymPath de).

(** The entry to change and, when the directory no longer has it, the
    unlinked node that holds it (lines 1268-1283). *)
Definition lookupForAttr (lState : lockStateRef) (kmd : KMD) (dir : path)
    (chargedTo : string) (name : string) (realEntry : DirEntry)
    : M (res (DirEntry * option Node)) :=
  l ← liftS (ddLookup lState dir chargedTo kmd name);
  match l with
  | Ok de => mret (Ok (de, None))
  | Err (NoSuchNameError n) =>
      (* The node may be unlinked. *)
      found ← withNodeCache (fun nc => (ncGet nc (deRef realEntry), nc));
      unlinkedNode ← match found with
                     | Some node =>
                         u ← withNodeCache (fun nc => (ncIsUnlinked nc node, nc));
                         mret (if (u : bool) then Some node else None)
                     | None => mret None
                     end;
      match unlinkedNode with
      | Some node =>
          de ← withNodeCache (fun nc => (ncUnlinkedDirEntry nc node, nc));
          mret (Ok (de, Some node))
      | None => mret (Err (NoSuchNameError n))
      end
  | Err e => mret (Err e)
  end.

Definition setCachedAttrLocked (lState : lockStateRef) (kmd : KMD)
    (dir : path) (name : string) (attr : attrChange) (realEntry : DirEntry)
    : M (option dirCacheUndoFn * option Error) :=
  AssertLocked lState;;
  c ← getChargedToLocked lState kmd;
  match c with
  | Err e => mret (None, Some e)
  | Ok chargedTo =>
      if negb (pathIsValid dir) then
        (* Can't set attrs directly on the root entry. *)
        mret (None, Some (InvalidParentPathError dir))
      else
        newDirDataLocked lState;;
        r ← lookupForAttr lState kmd dir chargedTo name realEntry;
        match r with
        | Err e => mret (None, Some e)
        | Ok (oldDe, Some unlinkedNode) =>
            let de := setAttr attr realEntry oldDe in
            withNodeCache (fun nc =>
              (tt, ncUpdateUnlinkedDirEntry unlinkedNode de nc));;
            mret (Some (wrapWithBlockLock (Some (
                    withNodeCache (fun nc =>
                      (tt, ncUpdateUnlinkedDirEntry unlinkedNode oldDe nc))))),
                  None)
        | Ok (oldDe, None) =>
            let de := setAttr attr realEntry oldDe in
            u ← liftS (ddUpdateEntry lState dir chargedTo kmd name de);
            match u with
            | Err e => mret (None, Some e)
            | Ok unrefs =>
                ptr ← tailPointer' dir;
                undoDirtyFn ← makeDirDirtyLocked lState ptr unrefs;
                mret (Some (wrapWithBlockLock (Some (
                        liftS (ddUpdateEntry lState dir chargedTo kmd name
                                 oldDe);;
                        undoDirtyFn))),
                      None)
            end
        end
  end.

Definition SetAttrInDirEntryInCache (lState : lockStateRef) (kmd : KMD)
    (p : path) (newDe : DirEntry) (attr : attrChange)
    : M (option dirCacheUndoFn * option Error) :=
  Lock lState;;
  name ← tailName' p;
  r ← setCachedAttrLocked lState kmd (pathParentPath p) name attr newDe;
  Unlock lState;;
  mret r.

(** ** [GetEntry] (lines 1434-1440) *)

Definition GetEntry (lState : lockStateRef) (kmd : KMD) (file : path)
    : M (res DirEntry) :=
  RLock lState;;
  r ← getEntryLocked lState kmd file false;
  RUnlock lState;;
  mret r.

End Engine.

(** * A scripted environment

    An in-memory stand-in for the collaborators, on which the engine can be
    evaluated: the two block caches are finite maps, the block server knows
    the encoded sizes in [serverSizes], and the data adapters answer what
    the world scripts for them. *)

Module Scripted.

Record World := mkWorld {
  dirtyCache : gmap BlockPointer addr;
  cleanCache : gmap BlockPointer addr;
  serverSizes : gmap BlockPointer (res Z);
  deleteAnswer : option Error;
  atOffsetAnswer : res blockAtOffset;
  writeAnswer : fdWriteResult;
  shrinkAnswer : fdShrinkResult;
  lookupAnswer : res DirEntry
}.

Record DirtyFileState := mkDirtyFileState {
  needsCopy : bool;
  finishSyncAnswer : option Error
}.

Definition notCached : Error := ExternalError 1.
Definition noServer : Error := ExternalError 2.
Definition blockDeleted : Error := ExternalError 100.
Definition quotaExceeded : Error := ExternalError 200.

Definition recoverable (e : Error) : bool :=
  match e with
  | ExternalError 100 => true
  | _ => false
  end.

Definition fromCache (m : gmap BlockPointer addr) (ptr : BlockPointer)
    : res addr :=
  match m !! ptr with
  | Some a => Ok a
  | None => Err notCached
  end.

Definition setDirtyCache (m : gmap BlockPointer addr) (w : World) : World :=
  mkWorld m (cleanCache w) (serverSizes w) (deleteAnswer w) (atOffsetAnswer w)
    (writeAnswer w) (shrinkAnswer w) (lookupAnswer w).

#[global] Instance config
    : @Config World DirtyFileState (list N) N (list WriteRange) unit unit := {|
  ptrIsValid := fun p => negb (ID p =? 0)%N;
  ptrIsInitialized := fun p => negb (ID p =? 0)%N;
  pathIsValid := fun p => negb (length (pathNodes p) =? 0)%nat;
  pathHasValidParent := fun p => (2 <=? length (pathNodes p))%nat;
  pathParentPath := fun p => mkPath (Tlf p) (Branch p) (removelast (pathNodes p));
  pathChildPath := fun p name ptr =>
    mkPath (Tlf p) (Branch p) (pathNodes p ++ [mkPathNode ptr name]);
  pathString := fun p => String.concat "/" (pnName <$> pathNodes p);
  pathIsValidForNotification := fun _ => false;
  filepathJoin := fun a b => if String.eqb a "" then b else a +:+ "/" +:+ b;
  dbcGet := fun w _ ptr _ => fromCache (dirtyCache w) ptr;
  dbcIsDirty := fun w _ ptr _ => bool_decide (is_Some (dirtyCache w !! ptr));
  dbcPut := fun _ ptr _ a w => (None, setDirtyCache (<[ptr := a]> (dirtyCache w)) w);
  dbcDelete := fun _ ptr _ w =>
    match deleteAnswer w with
    | Some e => (Some e, w)
    | None => (None, setDirtyCache (delete ptr (dirtyCache w)) w)
    end;
  dbcShouldForceSync := fun _ _ => false;
  bcGet := fun w ptr => fromCache (cleanCache w) ptr;
  bcGetWithPrefetch := fun w ptr =>
    match cleanCache w !! ptr with
    | Some a => Ok (a, 0%N, 0%N)
    | None => Err notCached
    end;
  bcDeletePermanent := fun _ w => (None, w);
  bopsGet := fun _ _ _ _ x => (Some noServer, x);
  bopsGetEncodedSize := fun w _ ptr => default (Err noServer) (serverSizes w !! ptr);
  processBlockForPrefetch := fun _ _ _ _ _ w => w;
  cancelPrefetch := fun _ w => w;
  retrieverRequest := fun _ _ _ _ w => w;
  reporterNotify := fun _ _ w => w;
  checkDataVersion := fun _ _ _ => None;
  getCurrentSession := fun _ => Ok (mkSession "alice" 1 1);
  kmdIsWriter := fun _ _ _ _ => Ok true;
  kmdGetRootDirEntry := fun _ => zeroDirEntry;
  kmdHandleName := fun _ => "alice";
  chargedToForTLF := fun _ _ => Ok "alice";
  nowUnixNano := fun _ => 1000;
  getJournalServer := fun _ => false;
  dirtyOpStart := fun _ w => w;
  dirtyOpEnd := fun _ w => w;
  forceSyncTrySend := fun w => w;
  bpsDeepCopy := fun b => match b with Some x => Some (Some x) | None => None end;
  newSyncOp := fun _ => Ok [];
  soAddWrite := fun so off len => (mkWriteRange off len, so ++ [mkWriteRange off len]);
  soAddTruncate := fun so size => (mkWriteRange size 0, so ++ [mkWriteRange size 0]);
  soResetUpdateState := fun so => so;
  isRecoverableBlockError := recoverable;
  isRecoverableBlockErrorForRemoval := recoverable;
  newDirtyFile := fun _ _ => mkDirtyFileState false None;
  dfBlockNeedsCopy := fun d _ => needsCopy d;
  dfSetBlockDirty := fun _ d => ((true, false), d);
  dfUpdateNotYetSyncingBytes := fun _ x => x;
  dfAddDeferredNewBytes := fun _ d => d;
  dfFinishSync := fun x => (finishSyncAnswer x.1, x);
  dfIsBlockOrphaned := fun _ _ => false;
  dfSetBlockOrphaned := fun _ _ d => d;
  dfResetSyncingBlocksToDirty := fun d => d;
  ddLookup := fun _ _ _ _ _ sh => Ret (lookupAnswer (ext sh)) sh;
  ddAddEntry := fun _ _ _ _ _ _ sh => Ret (Ok []) sh;
  ddRemoveEntry := fun _ _ _ _ _ sh => Ret (Ok []) sh;
  ddUpdateEntry := fun _ _ _ _ _ _ sh => Ret (Ok []) sh;
  ddGetEntries := fun _ _ _ _ sh => Ret (Ok []) sh;
  fdGetFileBlockAtOffset := fun _ _ _ _ _ _ _ sh => Ret (atOffsetAnswer (ext sh)) sh;
  fdWrite := fun _ _ _ _ _ _ _ _ sh => Ret (writeAnswer (ext sh)) sh;
  fdTruncateShrink := fun _ _ _ _ _ _ _ sh => Ret (shrinkAnswer (ext sh)) sh;
  fdTruncateExtend := fun _ _ _ _ _ _ _ de sh => Ret (Ok (de, [])) sh;
  fdFindIPtrsAndClearSize := fun _ _ _ _ _ _ sh => Ret (Ok []) sh;
  ncGet := fun _ _ => None;
  ncIsUnlinked := fun _ _ => false;
  ncUnlinkedDirEntry := fun _ _ => zeroDirEntry;
  ncUpdateUnlinkedDirEntry := fun _ _ nc => nc;
  ncUnlink := fun _ _ _ nc => (Some (fun x => x), nc);
  ncMove := fun _ _ _ nc => (Ok None, nc);
  ncAllNodes := fun nc => nc;
  ncPathFromNode := fun _ _ => zeroPath;
  ncUpdatePointer := fun _ _ nc => (None, nc);
  nodeGetID := fun n => n;
  mdMergedStatus := fun _ => 0%N;
  mdOpsRefs := fun _ => [];
  mdRootPointer := fun _ => zeroPtr;
  mdAsKMD := fun m => m;
  cleanUpBlockState := fun _ _ _ w => w;
  interleave := fun s => s
|}.

Abbreviation State := (@State World DirtyFileState (list N) (list WriteRange) unit).

(** One file [/a.txt] with a single direct block of 1000 bytes in the dirty
    block cache. *)
Definition rootPtr : BlockPointer := mkBlockPointer 1 1 1 0 0 1 0.
Definition filePtr : BlockPointer := mkBlockPointer 2 1 1 0 0 1 0.
Definition otherPtr : BlockPointer := mkBlockPointer 3 1 1 0 0 1 0.

Definition rootDir : path := mkPath 7 "master" [mkPathNode rootPtr "tlf"].
Definition aTxt : path :=
  mkPath 7 "master" [mkPathNode rootPtr "tlf"; mkPathNode filePtr "a.txt"].

Definition aTxtEntry : DirEntry :=
  mkDirEntry (mkBlockInfo filePtr 1040) File 1000 0 0 "".

Definition aTxtBlock : Block :=
  BFile (mkFileBlock (mkCommonBlock false 1040) (replicate 1000 Byte.x61) []).

Definition noWrite : fdWriteResult :=
  mkFdWriteResult aTxtEntry [] [] 0 0 None.
Definition noShrink : fdShrinkResult :=
  mkFdShrinkResult aTxtEntry [] [] 0 None.

Definition directFile : blockAtOffset :=
  mkBlockAtOffset filePtr [] 1%positive (-1) 0 true.

Definition world0 : World :=
  mkWorld {[filePtr := 1%positive]} ∅ ∅ None (Ok directFile) noWrite noShrink
    (Ok aTxtEntry).

Definition mkEngine (h : lockHold) (dfs : gmap BlockPointer (@dirtyFile DirtyFileState))
    (w : World) : State :=
  mkState (mkShared h dfs false {[1%positive := aTxtBlock]} w)
    7 "master" ∅ ∅ ∅ None "" ∅ (Some []) ∅.

Definition setAnswers (del : option Error) (w : fdWriteResult)
    (t : fdShrinkResult) (x : World) : World :=
  mkWorld (dirtyCache x) (cleanCache x) (serverSizes x) del (atOffsetAnswer x)
    w t (lookupAnswer x).

(** The same block, clean: cached in the block cache only. *)
Definition cleanWorld : World :=
  mkWorld ∅ {[filePtr := 1%positive]} ∅ None (Ok directFile) noWrite noShrink
    (Ok aTxtEntry).

(** A block server that knows two sizes and has deleted the third block. *)
Definition sizesWorld : World :=
  mkWorld ∅ ∅
    {[rootPtr := Ok 4096; filePtr := Err blockDeleted; otherPtr := Ok 1040]}
    None (Ok directFile) noWrite noShrink (Ok aTxtEntry).

Definition oldUnref : BlockInfo := mkBlockInfo otherPtr 512.

(** An adapter that fails after it has unreferenced a block. *)
Definition failedWrite : fdWriteResult :=
  mkFdWriteResult aTxtEntry [] [oldUnref] 100 0 (Some quotaExceeded).
Definition shrinkTo : fdShrinkResult :=
  mkFdShrinkResult aTxtEntry [otherPtr] [oldUnref] 0 None.
Definition failedShrink : fdShrinkResult :=
  mkFdShrinkResult aTxtEntry [] [oldUnref] 0 (Some quotaExceeded).

Definition beingWritten : @dirtyFile DirtyFileState :=
  mkDirtyFile [0%nat; 1%nat] (mkDirtyFileState false None).

Definition noSync : fileSyncState :=
  mkFileSyncState None None ∅ None None [filePtr] [].

Definition aTxtSyncInfo : @syncInfo (list WriteRange) unit :=
  mkSyncInfo (mkBlockInfo filePtr 1040) (Some []) [] None 0 0 [].

(** The engine with a sync info cached for [/a.txt]. *)
Definition withSyncInfo (w : World) : State :=
  mkState (mkShared HeldW {[filePtr := beingWritten]} false
             {[1%positive := aTxtBlock]} w)
    7 "master" {[1%positive := aTxtSyncInfo]} {[Ref filePtr := 1%positive]}
    ∅ None "alice" ∅ (Some []) ∅.

(** A sync of [/a.txt] that has put its blocks: its sync info is the
    cached one. *)
Definition syncOfATxt : fileSyncState :=
  mkFileSyncState None None ∅ (Some 1%positive) None [] [].

(** The engine with a sync info cached for [/a.txt] and one write deferred
    while the sync is running. *)
Definition withDeferredWrite (w : World) : State :=
  mkState (mkShared HeldW {[filePtr := beingWritten]} false
             {[1%positive := aTxtBlock]} w)
    7 "master" {[1%positive := aTxtSyncInfo]} {[Ref filePtr := 1%positive]}
    ∅ None "alice"
    {[Ref filePtr :=
        mkDeferredState [DeferredWrite aTxt [Byte.x62] 0 1] [] 1]}
    (Some []) ∅.

(** The engine with a sync info cached for [/a.txt] and both adapters
    failing after they have unreferenced a block. *)
Definition failingAdapters : State :=
  withSyncInfo (setAnswers None failedWrite failedShrink world0).

(** ** A second environment

    The same world behind another set of collaborators: the key metadata
    is a flag that says whether the current session may write, and the node
    cache is a finite map from block refs to node ids that follows pointer
    updates. *)

Definition config2
    : @Config World DirtyFileState (gmap BlockRef N) N (list WriteRange)
        bool unit := {|
  ptrIsValid := fun p => negb (ID p =? 0)%N;
  ptrIsInitialized := fun p => negb (ID p =? 0)%N;
  pathIsValid := fun p => negb (length (pathNodes p) =? 0)%nat;
  pathHasValidParent := fun p => (2 <=? length (pathNodes p))%nat;
  pathParentPath := fun p => mkPath (Tlf p) (Branch p) (removelast (pathNodes p));
  pathChildPath := fun p name ptr =>
    mkPath (Tlf p) (Branch p) (pathNodes p ++ [mkPathNode ptr name]);
  pathString := fun p => String.concat "/" (pnName <$> pathNodes p);
  pathIsValidForNotification := fun _ => false;
  filepathJoin := fun a b => if String.eqb a "" then b else a +:+ "/" +:+ b;
  dbcGet := fun w _ ptr _ => fromCache (dirtyCache w) ptr;
  dbcIsDirty := fun w _ ptr _ => bool_decide (is_Some (dirtyCache w !! ptr));
  dbcPut := fun _ ptr _ a w => (None, setDirtyCache (<[ptr := a]> (dirtyCache w)) w);
  dbcDelete := fun _ ptr _ w =>
    match deleteAnswer w with
    | Some e => (Some e, w)
    | None => (None, setDirtyCache (delete ptr (dirtyCache w)) w)
    end;
  dbcShouldForceSync := fun _ _ => false;
  bcGet := fun w ptr => fromCache (cleanCache w) ptr;
  bcGetWithPrefetch := fun w ptr =>
    match cleanCache w !! ptr with
    | Some a => Ok (a, 0%N, 0%N)
    | None => Err notCached
    end;
  bcDeletePermanent := fun _ w => (None, w);
  bopsGet := fun _ _ _ _ x => (Some noServer, x);
  bopsGetEncodedSize := fun w _ ptr => default (Err noServer) (serverSizes w !! ptr);
  processBlockForPrefetch := fun _ _ _ _ _ w => w;
  cancelPrefetch := fun _ w => w;
  retrieverRequest := fun _ _ _ _ w => w;
  reporterNotify := fun _ _ w => w;
  checkDataVersion := fun _ _ _ => None;
  getCurrentSession := fun _ => Ok (mkSession "bob" 2 2);
  kmdIsWriter := fun _ kmd _ _ => Ok kmd;
  kmdGetRootDirEntry := fun _ => zeroDirEntry;
  kmdHandleName := fun _ => "alice";
  chargedToForTLF := fun _ _ => Ok "alice";
  nowUnixNano := fun _ => 1000;
  getJournalServer := fun _ => false;
  dirtyOpStart := fun _ w => w;
  dirtyOpEnd := fun _ w => w;
  forceSyncTrySend := fun w => w;
  bpsDeepCopy := fun b => match b with Some x => Some (Some x) | None => None end;
  newSyncOp := fun _ => Ok [];
  soAddWrite := fun so off len => (mkWriteRange off len, so ++ [mkWriteRange off len]);
  soAddTruncate := fun so size => (mkWriteRange size 0, so ++ [mkWriteRange size 0]);
  soResetUpdateState := fun so => so;
  isRecoverableBlockError := recoverable;
  isRecoverableBlockErrorForRemoval := recoverable;
  newDirtyFile := fun _ _ => mkDirtyFileState false None;
  dfBlockNeedsCopy := fun d _ => needsCopy d;
  dfSetBlockDirty := fun _ d => ((true, false), d);
  dfUpdateNotYetSyncingBytes := fun _ x => x;
  dfAddDeferredNewBytes := fun _ d => d;
  dfFinishSync := fun x => (finishSyncAnswer x.1, x);
  dfIsBlockOrphaned := fun _ _ => false;
  dfSetBlockOrphaned := fun _ _ d => d;
  dfResetSyncingBlocksToDirty := fun d => d;
  ddLookup := fun _ _ _ _ _ sh => Ret (lookupAnswer (ext sh)) sh;
  ddAddEntry := fun _ _ _ _ _ _ sh => Ret (Ok []) sh;
  ddRemoveEntry := fun _ _ _ _ _ sh => Ret (Ok []) sh;
  ddUpdateEntry := fun _ _ _ _ _ _ sh => Ret (Ok []) sh;
  ddGetEntries := fun _ _ _ _ sh => Ret (Ok []) sh;
  fdGetFileBlockAtOffset := fun _ _ _ _ _ _ _ sh => Ret (atOffsetAnswer (ext sh)) sh;
  fdWrite := fun _ _ _ _ _ _ _ _ sh => Ret (writeAnswer (ext sh)) sh;
  fdTruncateShrink := fun _ _ _ _ _ _ _ sh => Ret (shrinkAnswer (ext sh)) sh;
  fdTruncateExtend := fun _ _ _ _ _ _ _ de sh => Ret (Ok (de, [])) sh;
  fdFindIPtrsAndClearSize := fun _ _ _ _ _ _ sh => Ret (Ok []) sh;
  ncGet := fun nc r => nc !! r;
  ncIsUnlinked := fun _ _ => false;
  ncUnlinkedDirEntry := fun _ _ => zeroDirEntry;
  ncUpdateUnlinkedDirEntry := fun _ _ nc => nc;
  ncUnlink := fun _ _ _ nc => (Some (fun x => x), nc);
  ncMove := fun _ _ _ nc => (Ok None, nc);
  ncAllNodes := fun nc => (map_to_list nc).*2;
  ncPathFromNode := fun _ _ => zeroPath;
  ncUpdatePointer := fun ref newPtr nc =>
    match nc !! ref with
    | Some n => (Some n, <[Ref newPtr := n]> (delete ref nc))
    | None => (None, nc)
    end;
  nodeGetID := fun n => n;
  mdMergedStatus := fun _ => 0%N;
  mdOpsRefs := fun _ => [];
  mdRootPointer := fun _ => zeroPtr;
  mdAsKMD := fun _ => true;
  cleanUpBlockState := fun _ _ _ w => w;
  interleave := fun s => s
|}.

(** The engine over the second environment, with a node cache. *)
Definition mkEngine2 (h : lockHold) (nc : gmap BlockRef N) (w : World) :=
  mkState
    (mkShared h (∅ : gmap BlockPointer (@dirtyFile DirtyFileState)) false
       {[1%positive := aTxtBlock]} w)
    7 "master" (∅ : gmap siAddr (@syncInfo (list WriteRange) unit)) ∅ ∅ None
    "" ∅ (Some nc) ∅.

(** [filePtr] and [otherPtr] after a re-encryption: the same block ids
    under another key generation. *)
Definition filePtr' : BlockPointer := mkBlockPointer 2 2 1 0 0 1 0.
Definition otherPtr' : BlockPointer := mkBlockPointer 3 2 1 0 0 1 0.

(** A directory below the root. *)
Definition dirPtr : BlockPointer := mkBlockPointer 4 1 1 0 0 1 0.
Definition subDir : path :=
  mkPath 7 "master" [mkPathNode rootPtr "tlf"; mkPathNode dirPtr "d"].

Definition noSuchName : Error := ExternalError 3.

(** A world in which directory lookups fail. *)
Definition lookupFails : World :=
  mkWorld {[filePtr := 1%positive]} ∅ ∅ None (Ok directFile) noWrite noShrink
    (Err noSuchName).

(** A dirty file whose [finishSync] fails. *)
Definition cannotFinish : @dirtyFile DirtyFileState :=
  mkDirtyFile [] (mkDirtyFileState false (Some quotaExceeded)).

(** The engine with one write deferred for [/a.txt]. *)
Definition withDeferred (w : World) : State :=
  mkState (mkShared NotHeld {[filePtr := beingWritten]} false
             {[1%positive := aTxtBlock]} w)
    7 "master" ∅ ∅ ∅ None "alice"
    {[Ref filePtr :=
        mkDeferredState [DeferredWrite aTxt [Byte.x62] 0 1] [] 1]}
    (Some []) ∅.

(** Slices of references and unrefs. *)
Definition threeRefs : slice BlockPointer :=
  mkSlice [rootPtr; filePtr; otherPtr] 3.
Definition threeUnrefs : slice BlockInfo :=
  mkSlice [mkBlockInfo rootPtr 4096; mkBlockInfo filePtr 1040; oldUnref] 3.
Definition twiceUnreferenced : slice BlockInfo :=
  mkSlice [mkBlockInfo filePtr 1040; mkBlockInfo rootPtr 4096;
           mkBlockInfo filePtr 1040] 3.

(** ** A third environment, for writes during a sync

    A dirty file's state is the flag "a sync of this file is running", the
    node cache knows one path, and the file data adapter dirties the file's
    top block through its cacher: as [cacheBlockIfNotYetDirtyLocked] does,
    it sets [doDeferWrite] when the dirty file says the block is being
    synced. *)

Definition cacheTopBlock (file : path) (sh : @Shared World bool)
    : @Shared World bool :=
  match tailPointer file with
  | Some tp =>
      match dirtyFiles sh !! tp with
      | Some df =>
          if (dfState df : bool) then set_doDeferWrite true sh else sh
      | None => sh
      end
  | None => sh
  end.

Definition config3
    : @Config World bool path N (list WriteRange) unit unit := {|
  ptrIsValid := fun p => negb (ID p =? 0)%N;
  ptrIsInitialized := fun p => negb (ID p =? 0)%N;
  pathIsValid := fun p => negb (length (pathNodes p) =? 0)%nat;
  pathHasValidParent := fun p => (2 <=? length (pathNodes p))%nat;
  pathParentPath := fun p => mkPath (Tlf p) (Branch p) (removelast (pathNodes p));
  pathChildPath := fun p name ptr =>
    mkPath (Tlf p) (Branch p) (pathNodes p ++ [mkPathNode ptr name]);
  pathString := fun p => String.concat "/" (pnName <$> pathNodes p);
  pathIsValidForNotification := fun _ => false;
  filepathJoin := fun a b => if String.eqb a "" then b else a +:+ "/" +:+ b;
  dbcGet := fun w _ ptr _ => fromCache (dirtyCache w) ptr;
  dbcIsDirty := fun w _ ptr _ => bool_decide (is_Some (dirtyCache w !! ptr));
  dbcPut := fun _ ptr _ a w => (None, setDirtyCache (<[ptr := a]> (dirtyCache w)) w);
  dbcDelete := fun _ ptr _ w =>
    match deleteAnswer w with
    | Some e => (Some e, w)
    | None => (None, setDirtyCache (delete ptr (dirtyCache w)) w)
    end;
  dbcShouldForceSync := fun _ _ => false;
  bcGet := fun w ptr => fromCache (cleanCache w) ptr;
  bcGetWithPrefetch := fun w ptr =>
    match cleanCache w !! ptr with
    | Some a => Ok (a, 0%N, 0%N)
    | None => Err notCached
    end;
  bcDeletePermanent := fun _ w => (None, w);
  bopsGet := fun _ _ _ _ x => (Some noServer, x);
  bopsGetEncodedSize := fun w _ ptr => default (Err noServer) (serverSizes w !! ptr);
  processBlockForPrefetch := fun _ _ _ _ _ w => w;
  cancelPrefetch := fun _ w => w;
  retrieverRequest := fun _ _ _ _ w => w;
  reporterNotify := fun _ _ w => w;
  checkDataVersion := fun _ _ _ => None;
  getCurrentSession := fun _ => Ok (mkSession "alice" 1 1);
  kmdIsWriter := fun _ _ _ _ => Ok true;
  kmdGetRootDirEntry := fun _ => zeroDirEntry;
  kmdHandleName := fun _ => "alice";
  chargedToForTLF := fun _ _ => Ok "alice";
  nowUnixNano := fun _ => 1000;
  getJournalServer := fun _ => false;
  dirtyOpStart := fun _ w => w;
  dirtyOpEnd := fun _ w => w;
  forceSyncTrySend := fun w => w;
  bpsDeepCopy := fun b => match b with Some x => Some (Some x) | None => None end;
  newSyncOp := fun _ => Ok [];
  soAddWrite := fun so off len => (mkWriteRange off len, so ++ [mkWriteRange off len]);
  soAddTruncate := fun so size => (mkWriteRange size 0, so ++ [mkWriteRange size 0]);
  soResetUpdateState := fun so => so;
  isRecoverableBlockError := recoverable;
  isRecoverableBlockErrorForRemoval := recoverable;
  newDirtyFile := fun _ _ => false;
  dfBlockNeedsCopy := fun _ _ => false;
  dfSetBlockDirty := fun _ d => ((true, d), d);
  dfUpdateNotYetSyncingBytes := fun _ x => x;
  dfAddDeferredNewBytes := fun _ d => d;
  dfFinishSync := fun x => (None, x);
  dfIsBlockOrphaned := fun _ _ => false;
  dfSetBlockOrphaned := fun _ _ d => d;
  dfResetSyncingBlocksToDirty := fun d => d;
  ddLookup := fun _ _ _ _ _ sh => Ret (lookupAnswer (ext sh)) sh;
  ddAddEntry := fun _ _ _ _ _ _ sh => Ret (Ok []) sh;
  ddRemoveEntry := fun _ _ _ _ _ sh => Ret (Ok []) sh;
  ddUpdateEntry := fun _ _ _ _ _ _ sh => Ret (Ok []) sh;
  ddGetEntries := fun _ _ _ _ sh => Ret (Ok []) sh;
  fdGetFileBlockAtOffset := fun _ _ _ _ _ _ _ sh => Ret (atOffsetAnswer (ext sh)) sh;
  fdWrite := fun _ file _ _ _ _ _ _ sh =>
    Ret (writeAnswer (ext sh)) (cacheTopBlock file sh);
  fdTruncateShrink := fun _ file _ _ _ _ _ sh =>
    Ret (shrinkAnswer (ext sh)) (cacheTopBlock file sh);
  fdTruncateExtend := fun _ _ _ _ _ _ _ de sh => Ret (Ok (de, [])) sh;
  fdFindIPtrsAndClearSize := fun _ _ _ _ _ _ sh => Ret (Ok []) sh;
  ncGet := fun _ _ => None;
  ncIsUnlinked := fun _ _ => false;
  ncUnlinkedDirEntry := fun _ _ => zeroDirEntry;
  ncUpdateUnlinkedDirEntry := fun _ _ nc => nc;
  ncUnlink := fun _ _ _ nc => (Some (fun x => x), nc);
  ncMove := fun _ _ _ nc => (Ok None, nc);
  ncAllNodes := fun _ => [];
  ncPathFromNode := fun nc _ => nc;
  ncUpdatePointer := fun _ _ nc => (None, nc);
  nodeGetID := fun n => n;
  mdMergedStatus := fun _ => 0%N;
  mdOpsRefs := fun _ => [];
  mdRootPointer := fun _ => zeroPtr;
  mdAsKMD := fun m => m;
  cleanUpBlockState := fun _ _ _ w => w;
  interleave := fun s => s
|}.

Definition contextCanceled : Error := ExternalError 300.

#[global] Instance writeConfig : @WriteConfig World N := {|
  dbcRequestPermissionToDirty := fun _ _ w => (None, w);
  dbcUpdateUnsyncedBytes := fun _ _ _ w => w;
  observersLocalChange := fun _ _ w => w;
  isContextError := fun e =>
    match e with
    | ExternalError 300 => true
    | _ => false
    end
|}.

(** The engine over the third environment: the node cache answers
    [/a.txt]. *)
Definition mkEngine3 (h : lockHold) (dfs : gmap BlockPointer (@dirtyFile bool))
    (w : World) :=
  mkState (mkShared h dfs false {[1%positive := aTxtBlock]} w)
    7 "master" (∅ : gmap siAddr (@syncInfo (list WriteRange) unit)) ∅ ∅ None
    "" ∅ (Some aTxt) ∅.

(** [/a.txt] while its blocks are being synced, with one error listener. *)
Definition syncing : @dirtyFile bool := mkDirtyFile [0%nat] true.

(** A write of one byte that dirties the file's block. *)
Definition oneByte : fdWriteResult :=
  mkFdWriteResult aTxtEntry [filePtr] [] 1 0 None.

(** The block of [/a.txt] in both caches, and an adapter that writes one
    byte. *)
Definition syncedWorld : World :=
  mkWorld {[filePtr := 1%positive]} {[filePtr := 1%positive]} ∅ None
    (Ok directFile) oneByte shrinkTo (Ok aTxtEntry).

(** An [afterUpdateFn] that reports whether the block lock is held for
    writing. *)
Definition lockIsHeld
    : @M World DirtyFileState (gmap BlockRef N) (list WriteRange) unit
        (option Error) :=
  h ← gets (fun s => holds (shared s));
  mret (match h with HeldW => None | _ => Some quotaExceeded end).

End Scripted.

(** * Properties *)

Section Facts.

Context {W DF NC Node SO KMD MD : Type}.
Context `{!@Config W DF NC Node SO KMD MD}.

Abbreviation State := (@State W DF NC SO MD).
Abbreviation M := (@M W DF NC SO MD).

Lemma bind_Ret {A B} (m : M A) (k : A -> M B) (s s' : State) (b : B) :
  (m ≫= k) s = Ret b s' ->
  exists a s1, m s = Ret a s1 /\ k a s1 = Ret b s'.
Proof.
  unfold mbind, M_bind. destruct (m s) as [a s1| |]; try discriminate.
  eauto.
Qed.

Lemma bind_Ret_eq {A B} (m : M A) (k : A -> M B) (s s1 : State) (a : A) :
  m s = Ret a s1 -> (m ≫= k) s = k a s1.
Proof. intros E. unfold mbind, M_bind. by rewrite E. Qed.

(** Unfolding the monad and the lock. *)
Ltac munfold :=
  cbv [mbind M_bind mret M_ret gets modify modShared getsW liftW modW panic
       deref id branch getHolds setHolds Lock Unlock RLock RUnlock
       AssertLocked AssertRLocked AssertAnyLocked tailPointer' tailRef'
       tailName'] in *.

(** ** C9: [GetState] *)

Lemma GetState_returns (st : State) :
  holds (shared st) = NotHeld ->
  exists r, GetState lsTok st = Ret r st.
Proof.
  intros Hh. destruct st as [[h df dw bl w] ? ? ? ? ? ? ? ? ? ?].
  simpl in Hh. subst h. eexists. unfold GetState. munfold. cbn. reflexivity.
Qed.

(** C9: [GetState] returns when the block lock is free, and whenever it
    returns, it returns [cleanState] iff [dirtyFiles] and [dirtyDirs] are
    both empty and [dirtyRootDirEntry] is nil, and [dirtyState] in every
    other state; it leaves the engine as it found it. *)
Theorem GetState_clean_iff (lState : lockStateRef) (st : State) :
  (lState = lsTok -> holds (shared st) = NotHeld ->
   exists r, GetState lState st = Ret r st) /\
  (forall r st',
     GetState lState st = Ret r st' ->
     (r = cleanState <->
        dirtyFiles (shared st) = ∅ /\ dirtyDirs st = ∅ /\
        dirtyRootDirEntry st = None) /\
     (r <> cleanState -> r = dirtyState) /\
     st' = st).
Proof.
  split; [intros ->; apply GetState_returns|].
  intros r st'.
  destruct st as [[h df dw bl w] tlf br sis uc dd root ct de nc ch].
  unfold GetState. munfold.
  destruct lState; [discriminate|].
  destruct h; try discriminate.
  cbn. intros E. injection E as <- <-.
  split; [|split]; [| |reflexivity].
  - rewrite <- !map_size_empty_iff.
    destruct (size df) eqn:E1, (size dd) eqn:E2, root;
      cbn; split; try done; intros (? & ? & ?); done.
  - destruct (_ && _ && _)%bool; congruence.
Qed.

(** ** C2: [ClearCacheInfo], [IsDirty] and [GetDirtyFileBlockRefs] *)

Lemma tailRef_tailPointer (file : path) (tr : BlockRef) :
  tailRef file = Some tr -> exists tp, tailPointer file = Some tp /\ tr = Ref tp.
Proof.
  unfold tailRef. destruct (tailPointer file); cbn; [|discriminate].
  intros [= <-]. eauto.
Qed.



(** ** C1: [getFileBlockLocked] for writing *)

Lemma AssertLocked_Ret (lState : lockStateRef) (s s' : State) (u : unit) :
  AssertLocked lState s = Ret u s' ->
  s' = s /\ lState = lsTok /\ holds (shared s) = HeldW.
Proof.
  unfold AssertLocked. munfold. destruct lState; [discriminate|].
  destruct (holds (shared s)); try discriminate. by intros [= _ <-].
Qed.

Lemma DeepCopyFileBlock_Ret (a fb : addr) (s s' : State) :
  DeepCopyFileBlock a s = Ret fb s' -> isDeepCopyOf a fb s s'.
Proof.
  unfold DeepCopyFileBlock, newBlockIn, alloc. munfold.
  destruct (blocks (shared s) !! a) as [[b| |]|] eqn:Ea; try discriminate.
  cbn. intros [= <- <-]. exists b.
  assert (Hf : blocks (shared s) !! fresh (dom (blocks (shared s))) = None).
  { apply not_elem_of_dom. apply is_fresh. }
  repeat split; try done. intros E. rewrite E in Hf. congruence.
Qed.

(** C1: a successful [getFileBlockLocked] with [blockWrite] returns
    whether the block was already dirty in the dirty block cache, and
    returns a deep copy of the cached block exactly when the block was not
    dirty, or a [dirtyFile] exists for the file's tail pointer and its
    [blockNeedsCopy(ptr)] is true; in all other cases it returns the cached
    block itself. *)
Theorem getFileBlockLocked_write_copy (lState : lockStateRef) (kmd : KMD)
    (ptr : BlockPointer) (file : path) (st st' : State) (fb : addr)
    (wasDirty : bool) :
  getFileBlockLocked lState kmd ptr file blockWrite st
    = Ret (Ok (fb, wasDirty)) st' ->
  exists cached st1 tp,
    getFileBlockHelperLocked lState kmd ptr (Branch file) file blockWrite st
      = Ret (Ok cached) st1 /\
    tailPointer file = Some tp /\
    wasDirty = dbcIsDirty (ext (shared st1)) (folderTlf st1) ptr (Branch file) /\
    (if needsCopyForWrite wasDirty ptr tp st1
     then isDeepCopyOf cached fb st1 st'
     else fb = cached /\ st' = st1).
Proof.
  unfold getFileBlockLocked. cbn [bool_decide decide_rel].
  intros H0.
  apply bind_Ret in H0 as (u & s0 & Ha & H0).
  change (AssertLocked lState st = Ret u s0) in Ha.
  apply AssertLocked_Ret in Ha as (-> & -> & Hh).
  apply bind_Ret in H0 as ([cached|e] & s1 & Hhelper & H0);
    [|by inversion H0].
  exists cached, s1.
  apply bind_Ret in H0 as (tlf & s2 & Htlf & H0).
  unfold id, gets in Htlf. injection Htlf as <- <-.
  apply bind_Ret in H0 as (wd & s2 & Hwd & H0).
  unfold getsW, gets in Hwd. injection Hwd as <- <-.
  change (bool_decide (blockWrite = blockWrite)) with true in H0. cbn iota in H0.
  apply bind_Ret in H0 as (tp & s2 & Htp & H0).
  unfold tailPointer', deref in Htp.
  destruct (tailPointer file) as [tp'|] eqn:Etp; [|discriminate].
  unfold mret, M_ret in Htp. injection Htp as <- <-.
  exists tp'.
  apply bind_Ret in H0 as (df & s2 & Hdf & H0).
  unfold gets in Hdf. injection Hdf as <- <-.
  unfold needsCopyForWrite.
  destruct (negb _ || _)%bool eqn:Hc.
  - apply bind_Ret in H0 as (copy & s2 & Hcopy & H0).
    unfold mret, M_ret in H0. injection H0 as <- <- <-.
    apply DeepCopyFileBlock_Ret in Hcopy. rewrite Hc. done.
  - unfold mret, M_ret in H0. injection H0 as <- <- <-.
    rewrite Hc. done.
Qed.

(** ** Frame conditions

    [keeps proj m]: whenever [m] returns, the part [proj] of the engine is
    what it was. *)

Lemma keeps_ret {X A} (proj : State -> X) (a : A) : keeps proj (mret a).
Proof. intros s b s'. unfold mret, M_ret. by intros [= _ <-]. Qed.

Lemma keeps_panic {X A} (proj : State -> X) (msg : string) :
  keeps proj (panic (A:=A) msg).
Proof. intros s b s'. discriminate. Qed.

Lemma keeps_gets {X A} (proj : State -> X) (f : State -> A) :
  keeps proj (gets f).
Proof. intros s b s'. unfold gets. by intros [= _ <-]. Qed.

Lemma keeps_bind {X A B} (proj : State -> X) (m : M A) (k : A -> M B) :
  keeps proj m -> (forall a, keeps proj (k a)) -> keeps proj (m ≫= k).
Proof.
  intros Hm Hk s b s' Hb. apply bind_Ret in Hb as (a & s1 & H1 & H2).
  rewrite (Hk a _ _ _ H2). eauto.
Qed.

Lemma keeps_modify {X} (proj : State -> X) (f : State -> State) :
  (forall s, proj (f s) = proj s) -> keeps proj (modify f).
Proof. intros Hf s b s'. unfold modify. intros [= _ <-]. apply Hf. Qed.

Lemma keeps_liftS {X A} (proj : State -> X) (f : Shared -> outcome Shared A) :
  (forall sh s, proj (set_shared sh s) = proj s) -> keeps proj (liftS f).
Proof.
  intros Hf s b s'. unfold liftS. destruct (f (shared s)); try discriminate.
  intros [= _ <-]. apply Hf.
Qed.

Lemma keeps_direct {X A} (proj : State -> X) (m : M A) :
  (forall s, match m s with Ret _ s' => proj s' = proj s | _ => True end) ->
  keeps proj m.
Proof. intros Hm s a s' E. specialize (Hm s). by rewrite E in Hm. Qed.

Lemma keeps_forEach {X A} (proj : State -> X) (l : list A) (f : A -> M unit) :
  (forall x, keeps proj (f x)) -> keeps proj (forEach l f).
Proof.
  intros Hf. induction l as [|x l IH]; cbn.
  - apply keeps_ret.
  - apply keeps_bind; [apply Hf|]. intros _. apply IH.
Qed.

Lemma keeps_untilErr {X A} (proj : State -> X) (l : list A)
    (f : A -> M (option Error)) :
  (forall x, keeps proj (f x)) -> keeps proj (untilErr l f).
Proof.
  intros Hf. induction l as [|x l IH]; cbn.
  - apply keeps_ret.
  - apply keeps_bind; [apply Hf|]. intros [e|]; [apply keeps_ret|apply IH].
Qed.

Ltac head_of t :=
  lazymatch t with
  | ?f _ => head_of f
  | _ => t
  end.

(** One step of a frame proof: split a bind, close a primitive, or case on
    the scrutinee of a match. *)
Create HintDb keeps_db.

Ltac keeps_step :=
  first [ solve [auto 1 with keeps_db nocore] | lazymatch goal with
  | |- keeps _ (mbind _ _) => apply keeps_bind; [|intros ?]
  | |- keeps _ (mret _) => apply keeps_ret
  | |- keeps _ (panic _) => apply keeps_panic
  | |- keeps _ (gets _) => apply keeps_gets
  | |- keeps _ (modify _) => apply keeps_modify; intros; reflexivity
  | |- keeps _ (liftS _) => apply keeps_liftS; intros; reflexivity
  | |- keeps _ (forEach _ _) => apply keeps_forEach; intros ?
  | |- keeps _ (untilErr _ _) => apply keeps_untilErr; intros ?
  | |- keeps _ (match ?x with _ => _ end) => destruct x
  | |- keeps _ (let _ := _ in _) => cbv zeta
  | |- keeps _ (liftW _) => apply keeps_direct; intros ?; reflexivity
  | |- keeps _ (newBlockIn _) => apply keeps_direct; intros ?; reflexivity
  | |- keeps _ (runBopsGet _ _ _ _) => apply keeps_direct; intros ?; reflexivity
  | |- keeps _ (allocSyncInfo _) => apply keeps_direct; intros ?; reflexivity
  | |- keeps _ ?m =>
      let h := head_of m in unfold h
  end ].

Ltac keeps_auto := repeat keeps_step.

(** Nothing but the sync infos and their cache is out of reach of the
    listener channels' frame. *)
Lemma keeps_chans_updateEntryLocked lState kmd file de incl :
  keeps chans (updateEntryLocked lState kmd file de incl).
Proof. keeps_auto. Qed.

(** ** C6: [CleanupSyncState] and the error listeners *)

Lemma foldl_send_received (e : Error) (ls : list chanId)
    (m : gmap chanId (list Error)) (c : chanId) :
  c ∈ ls -> exists l, foldl (send e) m ls !! c = Some (l ++ [e]).
Proof.
  induction ls as [|x ls IH] using rev_ind; [by intros ?%elem_of_nil|].
  rewrite foldl_app. cbn. unfold send at 1. intros Hin.
  destruct (decide (c = x)) as [->|Hne].
  - rewrite lookup_insert_eq. eauto.
  - rewrite lookup_insert_ne by done. apply IH.
    apply elem_of_app in Hin as [?|Hx]; [done|].
    apply list_elem_of_singleton in Hx. done.
Qed.

Lemma notifyErrListenersLocked_chans lState tp e (s s' : State) (u : unit) :
  notifyErrListenersLocked lState tp e s = Ret u s' ->
  chans s' = notified e tp s.
Proof.
  unfold notifyErrListenersLocked, notified. intros H0.
  apply bind_Ret in H0 as (? & s0 & Ha & H0).
  apply AssertLocked_Ret in Ha as (-> & _ & _).
  destruct (isRecoverableBlockError e).
  - unfold mret, M_ret in H0. by inversion H0.
  - apply bind_Ret in H0 as (df & s1 & Hdf & H0).
    unfold gets in Hdf. injection Hdf as <- <-.
    destruct (dirtyFiles (shared s) !! tp) as [d|].
    + unfold notifyErrListeners, modify in H0. by inversion H0.
    + unfold mret, M_ret in H0. by inversion H0.
Qed.

(** C6: when [CleanupSyncState] is called with a non-nil error, every
    listener registered on the file's [dirtyFile] is sent that error iff the
    error is not a recoverable block error; for a recoverable block error
    the listener channels are left as they were. *)
Theorem CleanupSyncState_notifies (lState : lockStateRef) (md : MD)
    (file : path) (blocksToRemove : list BlockPointer)
    (result : fileSyncState) (e : Error) (st st' : State) (u : unit) :
  CleanupSyncState lState md file blocksToRemove result (Some e) st
    = Ret u st' ->
  exists tp,
    tailPointer file = Some tp /\
    chans st' = notified e tp st /\
    (isRecoverableBlockError e = true -> chans st' = chans st) /\
    (isRecoverableBlockError e = false ->
     forall df c, dirtyFiles (shared st) !! tp = Some df ->
       c ∈ errListeners df ->
       exists l, chans st' !! c = Some (l ++ [e])).
Proof.
  unfold CleanupSyncState. intros H0.
  apply bind_Ret in H0 as (j & s0 & Hj & H0).
  unfold getsW, gets in Hj. injection Hj as <- <-.
  apply bind_Ret in H0 as (? & s1 & Hl & H0).
  assert (Hk1 : keeps (fun s : State => (chans s, dirtyFiles (shared s))) (Lock lState))
    by keeps_auto.
  apply Hk1 in Hl. injection Hl as Hch Hdf.
  apply bind_Ret in H0 as (tp & s2 & Htp & H0).
  unfold tailPointer', deref in Htp.
  destruct (tailPointer file) as [tp'|]; [|discriminate].
  unfold mret, M_ret in Htp. injection Htp as <- <-.
  apply bind_Ret in H0 as (? & s2 & Hn & H0).
  apply notifyErrListenersLocked_chans in Hn.
  match type of H0 with
  | ?m _ = _ => assert (Hk2 : keeps chans m) by keeps_auto
  end.
  apply Hk2 in H0.
  assert (E : chans st' = notified e tp' st).
  { rewrite H0, Hn. unfold notified. by rewrite Hch, Hdf. }
  exists tp'. repeat split; try done.
  - intros Hr. rewrite E. unfold notified. by rewrite Hr.
  - intros Hr df c Hd Hc. rewrite E. unfold notified. rewrite Hr, Hd.
    by apply foldl_send_received.
Qed.

(** ** C5: [FinishSyncLocked] and [stillDirty] *)

Lemma doDeferredWritesLocked_stillDirty lState kmd oldPath newPath
    (s s' : State) (stillDirty : bool) (err : option Error) :
  doDeferredWritesLocked lState kmd oldPath newPath s
    = Ret (stillDirty, err) s' ->
  (forall e, err = Some e -> stillDirty = true) /\
  (err = None ->
   exists tr, tailRef oldPath = Some tr /\
     (stillDirty = true <-> queuedWrites s tr <> [])).
Proof.
  unfold doDeferredWritesLocked. intros H0.
  apply bind_Ret in H0 as (? & s0 & Ha & H0).
  apply AssertLocked_Ret in Ha as (-> & _ & _).
  apply bind_Ret in H0 as (tr & s1 & Htr & H0).
  unfold tailRef', deref in Htr.
  destruct (tailRef oldPath) as [tr'|]; [|discriminate].
  unfold mret, M_ret in Htr. injection Htr as <- <-.
  apply bind_Ret in H0 as (ds & s1 & Hds & H0).
  unfold gets in Hds. injection Hds as <- <-.
  apply bind_Ret in H0 as (? & s1 & _ & H0).
  apply bind_Ret in H0 as (? & s2 & _ & H0).
  apply bind_Ret in H0 as ([e1|] & s3 & _ & H0).
  { unfold mret, M_ret in H0. injection H0 as <- <- <-.
    split; [done|discriminate]. }
  apply bind_Ret in H0 as ([e2|] & s4 & _ & H0);
    unfold mret, M_ret in H0; injection H0 as <- <- <-.
  { split; [done|discriminate]. }
  split; [discriminate|]. intros _. exists tr'. split; [done|].
  unfold queuedWrites.
  destruct (writes (default zeroDeferredState (deferred s !! tr'))); cbn;
    split; congruence.
Qed.

(** C5, amended: when [FinishSyncLocked] returns without an error,
    [stillDirty] is true iff at least one deferred write was queued for
    [oldPath.tailRef] at the time of the call; when it returns an error,
    [stillDirty] is true whatever was queued. *)
Theorem FinishSyncLocked_stillDirty (lState : lockStateRef)
    (oldPath newPath : path) (md : MD) (syncState : fileSyncState)
    (st st' : State) (stillDirty : bool) (err : option Error) :
  FinishSyncLocked lState oldPath newPath md syncState st
    = Ret (stillDirty, err) st' ->
  (forall e, err = Some e -> stillDirty = true) /\
  (err = None ->
   exists tr, tailRef oldPath = Some tr /\
     (stillDirty = true <-> queuedWrites st tr <> [])).
Proof.
  unfold FinishSyncLocked. intros H0.
  apply bind_Ret in H0 as (? & s0 & Ha & H0).
  apply AssertLocked_Ret in Ha as (-> & _ & _).
  apply bind_Ret in H0 as ([e1|] & s1 & Hd1 & H0).
  { unfold mret, M_ret in H0. injection H0 as <- <- <-.
    split; [done|discriminate]. }
  assert (K1 : keeps deferred (untilErr (oldFileBlockPtrs syncState) dbcDelete_))
    by keeps_auto.
  apply K1 in Hd1.
  apply bind_Ret in H0 as (? & s2 & Hd2 & H0).
  match type of Hd2 with
  | ?m _ = _ => assert (K2 : keeps deferred m) by keeps_auto
  end.
  apply K2 in Hd2.
  apply bind_Ret in H0 as ([sd derr] & s3 & Hw & H0).
  apply doDeferredWritesLocked_stillDirty in Hw as [Hw1 Hw2].
  cbn [fst snd] in H0.
  destruct derr as [e2|].
  { unfold mret, M_ret in H0. injection H0 as <- <- <-.
    split; [done|discriminate]. }
  apply bind_Ret in H0 as ([e3|] & s4 & _ & H0).
  { unfold mret, M_ret in H0. injection H0 as <- <- <-.
    split; [done|discriminate]. }
  apply bind_Ret in H0 as ([e4|] & s5 & _ & H0);
    unfold mret, M_ret in H0; injection H0 as <- <- <-.
  { split; [done|discriminate]. }
  split; [discriminate|]. intros _.
  destruct (Hw2 eq_refl) as (tr & Htr & Hiff). exists tr. split; [done|].
  unfold queuedWrites in *. by rewrite <- Hd1, <- Hd2.
Qed.

(** ** Frames and inversions for the sync infos *)

Lemma keeps_unrefs_withSyncOp {A} (a si : siAddr) (f : SO -> A * SO) :
  keeps (fun s : State => unrefs <$> syncInfos s !! a) (withSyncOp si f).
Proof.
  unfold withSyncOp. intros s r s' H0.
  apply bind_Ret in H0 as (i & s0 & Hi & H0).
  unfold getSyncInfo in Hi.
  apply bind_Ret in Hi as (o & s1 & Ho & Hi).
  unfold gets in Ho. injection Ho as <- <-.
  destruct (syncInfos s !! si) as [i'|] eqn:Ei; [|discriminate].
  cbn in Hi. unfold mret, M_ret in Hi. injection Hi as <- <-.
  apply bind_Ret in H0 as (so & s1 & Hso & H0).
  destruct (op i') as [so'|]; [|discriminate].
  cbn in Hso. unfold mret, M_ret in Hso. injection Hso as <- <-.
  apply bind_Ret in H0 as (? & s1 & Hp & H0).
  unfold putSyncInfo, modify in Hp. injection Hp as <-.
  unfold mret, M_ret in H0. inversion H0; subst. cbn [syncInfos set_syncInfos].
  destruct (decide (a = si)) as [->|Hne].
  - by rewrite lookup_insert_eq, Ei.
  - by rewrite lookup_insert_ne.
Qed.

#[local] Hint Resolve keeps_unrefs_withSyncOp : keeps_db.

Lemma appendUnrefs_Ret (si : siAddr) (u : list BlockInfo) (s s' : State)
    (x : unit) :
  appendUnrefs si u s = Ret x s' ->
  exists s0, syncInfos s !! si = Some s0 /\
    unrefs <$> syncInfos s' !! si = Some (unrefs s0 ++ u).
Proof.
  unfold appendUnrefs, getSyncInfo. intros H0.
  apply bind_Ret in H0 as (i & s0 & Hi & H0).
  apply bind_Ret in Hi as (o & s1 & Ho & Hi).
  unfold gets in Ho. injection Ho as <- <-.
  destruct (syncInfos s !! si) as [i'|] eqn:Ei; [|discriminate].
  cbn in Hi. unfold mret, M_ret in Hi. injection Hi as <- <-.
  unfold putSyncInfo, modify in H0. inversion H0; subst.
  exists i'. split; [done|]. cbn [syncInfos set_syncInfos].
  by rewrite lookup_insert_eq.
Qed.

Lemma liftS_Ret {A} (f : Shared -> outcome Shared A) (s s' : State) (a : A) :
  liftS f s = Ret a s' ->
  exists sh, f (shared s) = Ret a sh /\ s' = set_shared sh s.
Proof.
  unfold liftS. destruct (f (shared s)) as [a' sh| |]; try discriminate.
  intros [= <- <-]. eauto.
Qed.

(** ** C8: renaming an entry onto itself *)

Lemma RenameDirEntryInCache_noop_returns (kmd : KMD)
    (oldParent newParent : path) (name : string) (newDe replacedDe : DirEntry)
    (p : BlockPointer) (st : State) :
  tailPointer newParent = Some p ->
  tailPointer oldParent = Some p ->
  holds (shared st) = NotHeld ->
  exists undo,
    RenameDirEntryInCache lsTok kmd oldParent name newParent name newDe
      replacedDe st = Ret (undo, None) st /\ undo = None.
Proof.
  intros Hn Ho Hh.
  destruct st as [[h df dw bl w] tlf br sis uc dd root ct de nc ch].
  cbn in Hh. subst h. exists None. split; [|done].
  unfold RenameDirEntryInCache. munfold. cbn. rewrite Hn, Ho. cbn.
  rewrite bool_decide_eq_true_2 by done. rewrite String.eqb_refl. cbn.
  reflexivity.
Qed.

(** C8: when the new parent's tail pointer equals the old parent's and
    the new name equals the old name, [RenameDirEntryInCache] returns (it
    does so whenever the block lock is free), and what it returns is a nil
    undo function and a nil error, leaving the whole engine, its
    collaborators included, as it was. *)
Theorem RenameDirEntryInCache_noop (lState : lockStateRef) (kmd : KMD)
    (oldParent newParent : path) (name : string) (newDe replacedDe : DirEntry)
    (p : BlockPointer) (st : State) :
  tailPointer newParent = Some p ->
  tailPointer oldParent = Some p ->
  (lState = lsTok -> holds (shared st) = NotHeld ->
   RenameDirEntryInCache lState kmd oldParent name newParent name newDe
     replacedDe st = Ret (None, None) st) /\
  (forall r st',
     RenameDirEntryInCache lState kmd oldParent name newParent name newDe
       replacedDe st = Ret r st' ->
     r = (None, None) /\ st' = st).
Proof.
  intros Hn Ho. split.
  { intros -> Hh.
    destruct (RenameDirEntryInCache_noop_returns kmd oldParent newParent name
                newDe replacedDe p st Hn Ho Hh) as (undo & E & ->).
    exact E. }
  intros r st'.
  destruct st as [[h df dw bl w] tlf br sis uc dd root ct de nc ch].
  unfold RenameDirEntryInCache. munfold.
  destruct lState; [discriminate|].
  destruct h; try discriminate.
  cbn. rewrite Hn, Ho. cbn.
  rewrite bool_decide_eq_true_2 by done. rewrite String.eqb_refl. cbn.
  intros [= <- <-]. done.
Qed.

(** ** C10: fast-forward with nothing cached *)

(** C10: if the node cache is nil or holds no nodes, [FastForwardAllNodes]
    returns (with a nil cache always, with an empty one whenever the block
    lock is free), and what it returns is empty change and affected-node
    lists and a nil error, leaving the node cache and the rest of the engine
    as they were. *)
Theorem FastForwardAllNodes_empty (fuel : nat) (lState : lockStateRef)
    (md : MD) (st : State) :
  (nodeCache st = None \/
   exists nc, nodeCache st = Some nc /\ ncAllNodes nc = []) ->
  (nodeCache st = None \/ lState = lsTok /\ holds (shared st) = NotHeld ->
   FastForwardAllNodes fuel lState md st = Ret ([], [], None) st) /\
  (forall r st',
     FastForwardAllNodes fuel lState md st = Ret r st' ->
     r = ([], [], None) /\ st' = st).
Proof.
  destruct st as [[h df dw bl w] tlf br sis uc dd root ct de nc ch].
  unfold FastForwardAllNodes, withNodeCache. munfold. cbn.
  intros [->|(nc' & -> & Hn)].
  - split; [done|]. intros r st' [= <- <-]. done.
  - split.
    + intros [?|[-> ->]]; [done|]. cbn. rewrite Hn. reflexivity.
    + intros r st'. destruct lState; [discriminate|].
      destruct h; try discriminate. cbn. rewrite Hn. cbn.
      intros [= <- <-]. done.
Qed.

(** ** C3: the branch [truncateLocked] takes *)

Lemma int64_id (z : Z) : is_int64 z -> int64 z = z.
Proof.
  unfold is_int64, int64. intros Hz.
  rewrite Z.mod_small by lia. lia.
Qed.

(** Where nothing overflows [int64], the code takes the branch the
    specification names. *)
Lemma truncateChoice_in_range (size startOff len nextBlockOff : Z) :
  0 <= size < 2 ^ 63 ->
  0 <= startOff -> 0 <= len ->
  startOff + len + truncateExtendCutoffPoint < 2 ^ 63 ->
  truncateChoice (int64 size) startOff len nextBlockOff
    = truncateChoice_spec size (startOff + len) (0 <=? nextBlockOff).
Proof.
  intros Hs Ho Hl Hb. unfold truncateExtendCutoffPoint in Hb.
  unfold truncateChoice, truncateChoice_spec, truncateExtendCutoffPoint.
  rewrite (int64_id size) by (unfold is_int64; lia).
  rewrite (int64_id startOff) by (unfold is_int64; lia).
  rewrite (int64_id len) by (unfold is_int64; lia).
  rewrite (int64_id (startOff + len)) by (unfold is_int64; lia).
  rewrite (int64_id (startOff + len + 128 * 1024)) by (unfold is_int64; lia).
  destruct (startOff + len + 128 * 1024 <? size) eqn:E1; [done|].
  destruct (startOff + len <? size) eqn:E2.
  - rewrite int64_id; [done|]. unfold is_int64. lia.
  - rewrite (Z.eqb_sym size).
    replace (negb (0 <=? nextBlockOff)) with (nextBlockOff <? 0) by lia.
    done.
Qed.

(** "Truncate-extend by exactly 128 KiB uses the write path; by 128 KiB + 1
    uses the hole path." *)
Lemma truncateChoice_boundary (currLen : Z) :
  0 <= currLen -> currLen + 128 * 1024 + 1 < 2 ^ 63 ->
  truncateChoice (int64 (currLen + 128 * 1024)) 0 currLen (-1)
    = ExtendByWrite (128 * 1024) /\
  truncateChoice (int64 (currLen + 128 * 1024 + 1)) 0 currLen (-1)
    = ExtendWithHole.
Proof.
  intros H0 H1. split.
  - rewrite truncateChoice_in_range;
      unfold truncateExtendCutoffPoint; try lia.
    unfold truncateChoice_spec.
    replace (0 + currLen + 128 * 1024 <? currLen + 128 * 1024) with false by lia.
    replace (0 + currLen <? currLen + 128 * 1024) with true by lia.
    f_equal. lia.
  - rewrite truncateChoice_in_range;
      unfold truncateExtendCutoffPoint; try lia.
    unfold truncateChoice_spec.
    by replace (0 + currLen + 128 * 1024 <? currLen + 128 * 1024 + 1)
      with true by lia.
Qed.

(** A requested size of [2^63] or more becomes negative in
    [iSize := int64(size)], and the code shrinks where the specification
    extends with a hole. *)
Lemma truncateChoice_overflow (size len nextBlockOff : Z) :
  2 ^ 63 <= size < 2 ^ 64 ->
  0 <= len -> len + truncateExtendCutoffPoint < 2 ^ 63 ->
  truncateChoice (int64 size) 0 len nextBlockOff = Shrink /\
  truncateChoice_spec size len (0 <=? nextBlockOff) = ExtendWithHole.
Proof.
  intros Hs Hl Hb. unfold truncateExtendCutoffPoint in Hb.
  assert (Hi : int64 size = size - 2 ^ 64).
  { unfold int64.
    replace (size + 2 ^ 63) with (size - 2 ^ 63 + 1 * 2 ^ 64) by lia.
    rewrite Z.mod_add by lia. rewrite Z.mod_small by lia. lia. }
  unfold truncateChoice, truncateChoice_spec, truncateExtendCutoffPoint.
  rewrite Hi.
  rewrite (int64_id 0) by (unfold is_int64; lia).
  rewrite (int64_id len) by (unfold is_int64; lia).
  rewrite (int64_id (0 + len)) by (unfold is_int64; lia).
  rewrite (int64_id (0 + len + 128 * 1024)) by (unfold is_int64; lia).
  replace (0 + len + 128 * 1024 <? size - 2 ^ 64) with false by lia.
  replace (0 + len <? size - 2 ^ 64) with false by lia.
  replace (0 + len =? size - 2 ^ 64) with false by lia.
  replace (len + 128 * 1024 <? size) with true by lia.
  done.
Qed.

(** ** C4: [GetCleanEncodedBlocksSizeSum] *)

Lemma foldl_wrap64 (a : Z) (l : list Z) :
  foldl (fun sum size => wrap64 (sum + size)) (wrap64 a) l
    = wrap64 (a + sumZ l).
Proof.
  revert a. induction l as [|x l IH]; intros a; cbn [foldl sumZ].
  - by rewrite Z.add_0_r.
  - replace (wrap64 (wrap64 a + x)) with (wrap64 (a + x))
      by (unfold wrap64; by rewrite Zplus_mod_idemp_l).
    rewrite IH. f_equal. lia.
Qed.

Lemma sumSizes_wrap (l : list Z) : sumSizes l = wrap64 (sumZ l).
Proof. exact (foldl_wrap64 0 l). Qed.

Lemma sumZ_app (l1 l2 : list Z) : sumZ (l1 ++ l2) = sumZ l1 + sumZ l2.
Proof. induction l1 as [|x l1 IH]; cbn; lia. Qed.

Lemma sumZ_Permutation (l1 l2 : list Z) : l1 ≡ₚ l2 -> sumZ l1 = sumZ l2.
Proof. induction 1; cbn; lia. Qed.

Lemma inFlight_insert (ws : list worker) (i : nat) (w w' : worker) :
  ws !! i = Some w ->
  inFlight ws =
    inFlight (take i ws) ++ inFlight [w] ++ inFlight (drop (S i) ws) /\
  inFlight (<[i := w']> ws) =
    inFlight (take i ws) ++ inFlight [w'] ++ inFlight (drop (S i) ws).
Proof.
  intros Hi. pose proof (lookup_lt_Some _ _ _ Hi) as Hlt.
  split.
  - rewrite <- (take_drop_middle ws i w Hi) at 1.
    unfold inFlight. rewrite omap_app. f_equal.
    change (w :: drop (S i) ws) with ([w] ++ drop (S i) ws).
    by rewrite omap_app.
  - rewrite insert_take_drop by done.
    unfold inFlight. rewrite omap_app. f_equal.
    change (w' :: drop (S i) ws) with ([w'] ++ drop (S i) ws).
    by rewrite omap_app.
Qed.

Lemma getCleanEncodedBlockSizeLocked_parallel_pure (kmd : KMD)
    (ptr : BlockPointer) (br : string) :
  keeps (fun s : State => s)
    (getCleanEncodedBlockSizeLocked lsNil kmd ptr br blockReadParallel).
Proof.
  unfold getCleanEncodedBlockSizeLocked.
  change (bool_decide (blockReadParallel <> blockReadParallel)) with false.
  cbn [andb]. unfold getsW, deref. keeps_auto.
Qed.

Section Pool.

Variables (kmd : KMD) (br : string) (ignore : gmap BlockPointer bool).
Variables (ptrs : list BlockPointer) (st1 : State).

#[local] Abbreviation F := (fetchedSize kmd br st1).
#[local] Abbreviation skip := (skipped kmd br ignore st1).
#[local] Abbreviation size := (encodedSizeOf kmd br st1).
#[local] Abbreviation handled := (handled kmd br ignore st1).
#[local] Abbreviation poolInv := (poolInv kmd br ignore ptrs st1).
#[local] Abbreviation sent := (sentSizes kmd br ignore st1).

Lemma poolInv_init : poolInv (initPool ptrs st1).
Proof.
  split; [cbn; by rewrite length_replicate|]. intros _. cbn.
  repeat split.
  - intros i e Hi. apply lookup_replicate in Hi as [? _]. done.
  - intros [i Hi]. apply lookup_replicate in Hi as [? _]. done.
  - exists []. cbn. split; [|by split].
    assert (E : forall n, inFlight (replicate n Receiving) = []).
    { intros n. induction n; [done|]. cbn. done. }
    by rewrite E.
Qed.

Lemma finish_groupErr (i : nat) (q : BlockPointer) (r : res Z) (p : pool) :
  groupErr (finish ignore i q r p) = None -> groupErr p = None.
Proof.
  unfold finish. destruct r as [sz|e]; [done|].
  destruct (_ && _); [done|]. cbn. by destruct (groupErr p).
Qed.

Lemma lookup_insert_exited (ws : list worker) (i j : nat) (w : worker)
    (x : option Error) :
  <[i := w]> ws !! j = Some (Exited x) ->
  w <> Exited x ->
  ws !! j = Some (Exited x).
Proof.
  intros Hj Hw. destruct (decide (i = j)) as [->|Hne].
  - destruct (decide (j < length ws)%nat) as [Hlt|Hge].
    + rewrite list_lookup_insert_eq in Hj by done. congruence.
    + by rewrite list_insert_ge in Hj by lia.
  - by rewrite list_lookup_insert_ne in Hj.
Qed.

(** What the invariant needs from a fetch that was handled: the pointer
    moves from the flight list to [done]. *)
Lemma poolInv_finish (p : pool) (i : nat) (q : BlockPointer) (r : res Z) :
  poolInv p ->
  workers p !! i = Some (Fetching q) ->
  (groupErr p = None -> F q = Some r) ->
  poolInv (finish ignore i q r p).
Proof.
  intros [Hlen Hinv] Hi HF. split.
  { unfold finish. destruct r as [sz|e]; [|destruct (_ && _)]; cbn;
      by rewrite length_insert. }
  intros Hg. pose proof (finish_groupErr _ _ _ _ Hg) as Hg0.
  specialize (Hinv Hg0) as (Heng & Hex & Hnone & done & Hperm & Hdone & Hsum).
  specialize (HF Hg0).
  destruct (inFlight_insert _ i _ Receiving Hi) as [E1 E2].
  assert (Hq : handled q /\
               sumZ (sumCh (finish ignore i q r p))
                 = sumZ (size <$> (done ++ [q])) /\
               workers (finish ignore i q r p) = <[i := Receiving]> (workers p) /\
               ptrCh (finish ignore i q r p) = ptrCh p /\
               engine (finish ignore i q r p) = engine p).
  { unfold finish in *. destruct r as [sz|e].
    - cbn. repeat split; try done.
      + right. eauto.
      + rewrite fmap_app, !sumZ_app, Hsum. cbn.
        unfold encodedSizeOf. rewrite HF. lia.
    - destruct (isRecoverableBlockErrorForRemoval e && ignored ignore q)
        eqn:Hs; [|cbn in Hg; by destruct (groupErr p)].
      cbn. repeat split; try done.
      + left. unfold skipped. by rewrite HF.
      + rewrite fmap_app, !sumZ_app, Hsum. cbn.
        unfold encodedSizeOf. rewrite HF. lia. }
  destruct Hq as (Hh & Hs & Hw & Hc & He). rewrite Hw, Hc, He.
  repeat split; try done.
  - intros j e Hj. apply lookup_insert_exited in Hj; [|done]. eauto.
  - intros [j Hj]. apply lookup_insert_exited in Hj; [|done]. eauto.
  - exists (done ++ [q]). split; [|split; [|done]].
    + rewrite Hperm, E1, E2. cbn. solve_Permutation.
    + apply Forall_app. split; [done|]. by apply Forall_singleton.
Qed.

Lemma poolInv_step (p p' : pool) :
  pool_step kmd br ignore p p' -> poolInv p -> poolInv p'.
Proof.
  intros Hstep Hp. destruct Hstep as
    [p Hc | p i q rest Hi Hch | p i Hi Hch Hc | p i q r st' Hi Hf | p i q e Hi Hg].
  - exact Hp.
  - destruct Hp as [Hlen Hinv]. split; [cbn; by rewrite length_insert|].
    cbn [groupErr engine workers ptrCh sumCh ptrChClosed]. intros Hg.
    specialize (Hinv Hg) as (Heng & Hex & Hnone & done & Hperm & Hdone & Hsum).
    destruct (inFlight_insert _ i _ (Fetching q) Hi) as [E1 E2].
    repeat split; try done.
    + intros j e Hj. apply lookup_insert_exited in Hj; [|done]. eauto.
    + intros [j Hj]. apply lookup_insert_exited in Hj; [|done].
      assert (ptrCh p = []) by eauto. congruence.
    + exists done. split; [|done].
      rewrite Hperm, Hch, E1, E2. cbn. solve_Permutation.
  - destruct Hp as [Hlen Hinv]. split; [cbn; by rewrite length_insert|].
    cbn [groupErr engine workers ptrCh sumCh ptrChClosed]. intros Hg.
    specialize (Hinv Hg) as (Heng & Hex & Hnone & done & Hperm & Hdone & Hsum).
    destruct (inFlight_insert _ i _ (Exited None) Hi) as [E1 E2].
    repeat split; try done.
    + intros j e Hj. apply lookup_insert_exited in Hj; [|done]. eauto.
    + exists done. split; [|done]. rewrite E2. rewrite E1 in Hperm.
      exact Hperm.
  - assert (Hpe : poolInv (withEngine st' p) /\
                  (groupErr p = None -> F q = Some r)).
    { destruct Hp as [Hlen Hinv]. split.
      - split; [done|]. cbn. intros Hg. specialize (Hinv Hg).
        destruct Hinv as (Heng & ?). rewrite Heng in Hf.
        by rewrite (getCleanEncodedBlockSizeLocked_parallel_pure _ _ _ _ _ _ Hf).
      - intros Hg. destruct (Hinv Hg) as (Heng & _). rewrite Heng in Hf.
        unfold fetchedSize. by rewrite Hf. }
    destruct Hpe as [Hpe HF]. by apply poolInv_finish.
  - apply poolInv_finish; try done.
Qed.

Lemma poolInv_rtc (p : pool) :
  rtc (pool_step kmd br ignore) (initPool ptrs st1) p -> poolInv p.
Proof.
  revert p. apply rtc_ind_r.
  - apply poolInv_init.
  - intros y z _ Hs Hy. by eapply poolInv_step.
Qed.

Lemma sumZ_skip (l : list BlockPointer) :
  Forall handled l ->
  sumZ (size <$> l) = sumZ (size <$> filter (fun q => skip q = false) l).
Proof.
  induction 1 as [|q l Hq Hl IH]; [done|].
  rewrite filter_cons. destruct (decide (skip q = false)) as [Hs|Hs]; cbn.
  - by rewrite IH.
  - rewrite IH. apply not_false_is_true in Hs.
    unfold skipped in Hs. unfold encodedSizeOf.
    destruct (fetchedSize kmd br st1 q) as [[sz|e]|]; try discriminate. lia.
Qed.

(** Once [eg.Wait] has returned nil, every pointer was handled and the sum
    channel holds the sizes of those that were not skipped. *)
Lemma pool_finished (p : pool) :
  rtc (pool_step kmd br ignore) (initPool ptrs st1) p ->
  Forall isExited (workers p) ->
  groupErr p = None ->
  engine p = st1 /\
  Forall handled ptrs /\
  sumSizes (sumCh p)
    = wrap64 (sumZ (size <$> filter (fun q => skip q = false) ptrs)).
Proof.
  intros Hr Hex Hg. destruct (poolInv_rtc p Hr) as [Hlen Hinv].
  specialize (Hinv Hg) as (Heng & Hnoerr & Hnone & done & Hperm & Hdone & Hsum).
  assert (Hfl : inFlight (workers p) = []).
  { clear -Hex. induction Hex as [|w ws Hw _ IH]; [done|].
    destruct w; cbn in *; try done. }
  assert (Hch : ptrCh p = []).
  { destruct (workers p) as [|w ws] eqn:Ew.
    - cbn in Hlen. unfold numWorkers, numBlockSizeWorkersMax in Hlen.
      destruct ptrs as [|q l]; [|cbn in Hlen; case_match; lia].
      rewrite Hfl in Hperm. cbn in Hperm.
      apply Permutation_nil_l in Hperm. symmetry in Hperm.
      by apply app_eq_nil in Hperm as [_ ?].
    - apply Hnone. exists 0%nat. cbn.
      apply Forall_cons in Hex as [Hw _]. destruct w as [| |[e|]]; try done.
      exfalso. by apply (Hnoerr 0%nat e). }
  rewrite Hfl, Hch, !app_nil_r in Hperm.
  split; [done|]. split.
  - by rewrite Hperm.
  - rewrite sumSizes_wrap, Hsum. f_equal.
    rewrite <- sumZ_skip by (by rewrite Hperm).
    apply sumZ_Permutation. by rewrite Hperm.
Qed.

(** *** Some schedule completes

    Worker 0 takes every pointer in turn, then all workers find the channel
    drained. *)

Lemma handled_fetch (q : BlockPointer) :
  handled q ->
  exists r, getCleanEncodedBlockSizeLocked lsNil kmd q br blockReadParallel st1
              = Ret r st1 /\
    ((exists e, r = Err e /\
                isRecoverableBlockErrorForRemoval e && ignored ignore q = true /\
                sent [q] = []) \/
     (exists sz, r = Ok sz /\ sent [q] = [sz])).
Proof.
  intros Hq.
  destruct (getCleanEncodedBlockSizeLocked lsNil kmd q br blockReadParallel st1)
    as [r s'| |] eqn:E.
  2,3: exfalso; destruct Hq as [Hq|[sz Hq]];
       unfold skipped, fetchedSize in Hq; rewrite E in Hq;
       discriminate.
  pose proof (getCleanEncodedBlockSizeLocked_parallel_pure _ _ _ _ _ _ E)
    as Hpure. cbn in Hpure. subst s'.
  assert (Ef : fetchedSize kmd br st1 q = Some r)
    by (unfold fetchedSize; by rewrite E).
  exists r. split; [done|].
  unfold sentSizes, skipped, encodedSizeOf.
  destruct r as [sz|e].
  - right. exists sz. split; [done|].
    rewrite filter_cons, decide_True by (by rewrite Ef).
    cbn. by rewrite Ef.
  - destruct Hq as [Hq|[sz Hq]];
      unfold skipped in Hq; rewrite Ef in Hq; [|discriminate].
    left. exists e. split; [done|]. split; [done|].
    rewrite filter_cons, decide_False; [done|]. rewrite Ef, Hq. done.
Qed.

Lemma sentSizes_cons (q : BlockPointer) (ch : list BlockPointer) :
  sent (q :: ch) = sent [q] ++ sent ch.
Proof.
  unfold sentSizes. change (q :: ch) with ([q] ++ ch).
  by rewrite filter_app, fmap_app.
Qed.

Lemma run_worker0 (n : nat) (ch : list BlockPointer) (sums : list Z) :
  Forall handled ch ->
  rtc (pool_step kmd br ignore)
    (mkPool ch true sums (replicate (S n) Receiving) None st1)
    (mkPool [] true (sums ++ sent ch) (replicate (S n) Receiving) None st1).
Proof.
  intros Hch. revert sums.
  induction Hch as [|q ch Hq Hch IH]; intros sums.
  - unfold sentSizes. cbn. by rewrite app_nil_r.
  - destruct (handled_fetch q Hq) as (r & Hf & Hr).
    eapply rtc_l.
    { by apply (step_receive kmd br ignore
                  (mkPool (q :: ch) true sums (replicate (S n) Receiving) None st1)
                  0%nat q ch). }
    eapply rtc_l.
    { apply (step_fetched kmd br ignore _ 0%nat q r st1); [done|exact Hf]. }
    rewrite sentSizes_cons.
    destruct Hr as [(e & -> & Hs & ->)|(sz & -> & ->)].
    + unfold finish. rewrite Hs. cbn. apply IH.
    + unfold finish. cbn.
      replace (sums ++ sz :: sent ch)
        with ((sums ++ [sz]) ++ sent ch) by (by rewrite <- app_assoc).
      apply IH.
Qed.

Lemma run_drain (k m : nat) (sums : list Z) :
  rtc (pool_step kmd br ignore)
    (mkPool [] true sums
       (replicate k (Exited None) ++ replicate m Receiving) None st1)
    (mkPool [] true sums (replicate (k + m) (Exited None)) None st1).
Proof.
  revert k. induction m as [|m IH]; intros k.
  - cbn. rewrite app_nil_r, Nat.add_0_r. done.
  - eapply rtc_l.
    { apply (step_drained kmd br ignore _ k); [|done|done]. cbn.
      rewrite lookup_app_r by (by rewrite length_replicate).
      by rewrite length_replicate, Nat.sub_diag. }
    cbn [ptrCh ptrChClosed sumCh workers groupErr engine].
    replace (<[k:=Exited None]>
               (replicate k (Exited None) ++ replicate (S m) Receiving))
      with (replicate (S k) (Exited None) ++ replicate m Receiving).
    + replace (k + S m)%nat with (S k + m)%nat by lia. apply IH.
    + rewrite insert_app_r_alt by (by rewrite length_replicate).
      rewrite length_replicate, Nat.sub_diag.
      rewrite replicate_S_end, <- app_assoc. done.
Qed.

Lemma run_to_completion :
  Forall handled ptrs ->
  exists p,
    rtc (pool_step kmd br ignore) (initPool ptrs st1) p /\
    ptrChClosed p = true /\ Forall isExited (workers p) /\
    groupErr p = None /\ engine p = st1.
Proof.
  intros Hh. unfold initPool.
  destruct (Z.to_nat (numWorkers ptrs)) as [|n] eqn:En.
  - exists (mkPool ptrs true [] [] None st1). cbn. repeat split; try done.
    apply rtc_once. by apply (step_close kmd br ignore (mkPool ptrs false [] [] None st1)).
  - exists (mkPool [] true ([] ++ sent ptrs)
              (replicate (0 + S n) (Exited None)) None st1).
    cbn [ptrCh ptrChClosed sumCh workers groupErr engine].
    repeat split; try done.
    + eapply rtc_l.
      { by apply (step_close kmd br ignore
                    (mkPool ptrs false [] (replicate (S n) Receiving) None st1)). }
      etrans; [by apply run_worker0|].
      apply (run_drain 0 (S n)).
    + apply Forall_replicate. done.
Qed.

End Pool.

Lemma RLock_Ret (lState : lockStateRef) (s s1 : State) (u : unit) :
  RLock lState s = Ret u s1 ->
  lState = lsTok /\ holds (shared s) = NotHeld /\
  s1 = set_shared (set_holds HeldR (shared s)) s.
Proof.
  unfold RLock. munfold. destruct lState; [discriminate|].
  destruct (holds (shared s)) eqn:E; try discriminate.
  by intros [= _ <-].
Qed.

Lemma RUnlock_Ret (lState : lockStateRef) (s s1 : State) (u : unit) :
  RUnlock lState s = Ret u s1 ->
  s1 = set_shared (set_holds NotHeld (shared s)) s.
Proof.
  unfold RUnlock. munfold. destruct lState; [discriminate|].
  destruct (holds (shared s)) eqn:E; try discriminate.
  by intros [= _ <-].
Qed.

(** A parallel fetch does not look at the lock. *)
Lemma fetchedSize_holds (kmd : KMD) (br : string) (h : lockHold) (s : State)
    (q : BlockPointer) :
  fetchedSize kmd br (set_shared (set_holds h (shared s)) s) q
    = fetchedSize kmd br s q.
Proof.
  unfold fetchedSize, getCleanEncodedBlockSizeLocked.
  change (bool_decide (blockReadParallel <> blockReadParallel)) with false.
  munfold. cbn.
  destruct (ptrIsValid q); cbn; [|done].
  destruct (bcGet (ext (shared s)) q) as [a|e]; cbn.
  - by destruct (blocks (shared s) !! a).
  - destruct (checkDataVersion (ext (shared s)) zeroPath q); cbn; [done|].
    by destruct (bopsGetEncodedSize (ext (shared s)) kmd q).
Qed.

Lemma numWorkers_min (ptrs : list BlockPointer) :
  numWorkers ptrs = Z.min numBlockSizeWorkersMax (Z.of_nat (length ptrs)) /\
  0 <= numWorkers ptrs <= 50.
Proof.
  unfold numWorkers, numBlockSizeWorkersMax. case_match; lia.
Qed.

(** C4: when [GetCleanEncodedBlocksSizeSum(ptrs, ignore)] returns without
    error, under any interleaving of its workers, the value returned is the
    [uint64] sum of the encoded sizes of the blocks of every pointer in
    [ptrs] except exactly those that are in the ignore set and whose fetch
    failed with a recoverable-for-removal error; every other pointer's
    fetch succeeded; and the fan-out runs [min(50, len(ptrs))] workers, never
    more than 50. *)
Theorem GetCleanEncodedBlocksSizeSum_sum (lState : lockStateRef) (kmd : KMD)
    (ptrs : list BlockPointer) (ignore : gmap BlockPointer bool)
    (br : string) (st st' : State) (sum : Z) :
  GetCleanEncodedBlocksSizeSum_returns lState kmd ptrs ignore br st sum None
    st' ->
  st' = st /\
  Forall (fun q => skipped kmd br ignore st q = false ->
                   exists sz, fetchedSize kmd br st q = Some (Ok sz)) ptrs /\
  sum = wrap64 (sumZ (encodedSizeOf kmd br st <$>
                        filter (fun q => skipped kmd br ignore st q = false)
                          ptrs)) /\
  numWorkers ptrs = Z.min numBlockSizeWorkersMax (Z.of_nat (length ptrs)) /\
  numWorkers ptrs <= 50 /\
  (forall st1 p,
     RLock lState st = Ret tt st1 ->
     rtc (pool_step kmd br ignore) (initPool ptrs st1) p ->
     Z.of_nat (length (workers p)) = numWorkers ptrs).
Proof.
  intros (st1 & p & Hl & Hr & _ & Hex & Hres & Hu).
  destruct (groupErr p) as [e|] eqn:Hg; [discriminate|].
  injection Hres as ->.
  destruct (pool_finished kmd br ignore ptrs st1 p Hr Hex Hg)
    as (Heng & Hh & Hs).
  pose proof (RLock_Ret _ _ _ _ Hl) as (-> & Hh0 & ->).
  rewrite Heng in Hu. apply RUnlock_Ret in Hu.
  assert (EF : forall q,
    fetchedSize kmd br (set_shared (set_holds HeldR (shared st)) st) q
      = fetchedSize kmd br st q) by (intros q; apply fetchedSize_holds).
  assert (ES : forall q,
    skipped kmd br ignore (set_shared (set_holds HeldR (shared st)) st) q
      = skipped kmd br ignore st q).
  { intros q. unfold skipped. by rewrite EF. }
  assert (EZ : forall q,
    encodedSizeOf kmd br (set_shared (set_holds HeldR (shared st)) st) q
      = encodedSizeOf kmd br st q).
  { intros q. unfold encodedSizeOf. by rewrite EF. }
  split; [|split; [|split; [|split; [|split]]]].
  - subst st'. destruct st as [[h ? ? ? ?] ? ? ? ? ? ? ? ? ? ?].
    cbn in Hh0. by subst h.
  - eapply Forall_impl; [exact Hh|]. intros q [Hq|[sz Hq]] Hn.
    + rewrite ES in Hq. congruence.
    + exists sz. by rewrite <- EF.
  - rewrite Hs. f_equal. f_equal.
    rewrite (list_filter_iff _
      (fun q => skipped kmd br ignore st q = false)) by (intros q; by rewrite ES).
    apply list_fmap_ext. intros i q _. apply EZ.
  - apply numWorkers_min.
  - apply numWorkers_min.
  - intros st1 p' Hl' Hr'.
    destruct (poolInv_rtc kmd br ignore ptrs st1 p' Hr') as [Hlen _].
    rewrite Hlen. pose proof (numWorkers_min ptrs). lia.
Qed.

(** The call does return when every fetch either succeeds or fails in a
    way that is ignored. *)
Lemma GetCleanEncodedBlocksSizeSum_can_return (kmd : KMD)
    (ptrs : list BlockPointer) (ignore : gmap BlockPointer bool)
    (br : string) (st : State) :
  holds (shared st) = NotHeld ->
  Forall (fun q => skipped kmd br ignore st q = true \/
                   exists sz, fetchedSize kmd br st q = Some (Ok sz)) ptrs ->
  exists sum,
    GetCleanEncodedBlocksSizeSum_returns lsTok kmd ptrs ignore br st sum None st.
Proof.
  intros Hh Hp.
  set (st1 := set_shared (set_holds HeldR (shared st)) st).
  assert (Hp1 : Forall (handled kmd br ignore st1) ptrs).
  { eapply Forall_impl; [exact Hp|]. intros q Hq. unfold handled, skipped.
    unfold st1. rewrite !fetchedSize_holds. exact Hq. }
  destruct (run_to_completion kmd br ignore ptrs st1 Hp1)
    as (p & Hr & Hc & Hex & Hg & He).
  exists (sumSizes (sumCh p)), st1, p.
  repeat split; try done.
  - unfold RLock. munfold. by rewrite Hh.
  - by rewrite Hg.
  - rewrite He. unfold RUnlock, st1. munfold. cbn.
    destruct st as [[h ? ? ? ?] ? ? ? ? ? ? ? ? ? ?]. cbn in Hh. by subst h.
Qed.

(** ** [removeReplacedBlock] *)

Lemma removeIndex_elems {A} (i : nat) (s : slice A) (l1 l2 : list A) (x : A) :
  wfSlice s -> elems s = l1 ++ x :: l2 -> i = length l1 ->
  exists s', removeIndex i s = Some s' /\ elems s' = l1 ++ l2 /\
    wfSlice s' /\ length (backing s') = length (backing s) /\
    len s' = (len s - 1)%nat /\
    backing s' = l1 ++ l2 ++ drop (len s - 1) (backing s).
Proof.
  unfold wfSlice, elems, removeIndex. intros Hwf He ->.
  assert (Hlen : len s = (length l1 + S (length l2))%nat).
  { apply (f_equal length) in He. rewrite length_take, length_app in He.
    cbn in He. lia. }
  assert (Hb : backing s = (l1 ++ x :: l2) ++ drop (len s) (backing s))
    by (by rewrite <- He, take_drop).
  rewrite decide_True by lia. eexists. split; [done|]. cbn.
  assert (E1 : take (length l1) (backing s) = l1).
  { rewrite Hb, <- app_assoc. by rewrite take_app_length. }
  assert (E2 : take (len s - (length l1 + 1))
                 (drop (length l1 + 1) (backing s)) = l2).
  { rewrite Hb at 1. rewrite <- app_assoc.
    replace (length l1 + 1)%nat with (length (l1 ++ [x]))
      by (rewrite length_app; cbn; lia).
    change (l1 ++ (x :: l2) ++ drop (len s) (backing s))
      with (l1 ++ ([x] ++ l2) ++ drop (len s) (backing s)).
    rewrite <- (app_assoc [x]), (app_assoc l1 [x]), drop_app_length.
    replace (len s - length (l1 ++ [x]))%nat with (length l2)
      by (rewrite length_app; cbn; lia).
    by rewrite take_app_length. }
  rewrite E1, E2. repeat split.
  - rewrite app_assoc.
    replace (len s - 1)%nat with (length (l1 ++ l2)) at 1
      by (rewrite length_app; lia).
    by rewrite take_app_length.
  - rewrite !length_app, length_drop. lia.
  - rewrite !length_app, length_drop. lia.
Qed.

Lemma removeUnrefs_app (ptr : BlockPointer) (js1 js2 : list nat)
    (s : slice BlockInfo) :
  removeUnrefs ptr (js1 ++ js2) s =
    match removeUnrefs ptr js1 s with
    | Some s' => removeUnrefs ptr js2 s'
    | None => None
    end.
Proof.
  revert s. induction js1 as [|j js1 IH]; intros s; cbn; [done|].
  destruct (backing s !! j) as [u|]; [|done].
  destruct (bool_decide (biPointer u = ptr)); [|apply IH].
  destruct (removeIndex j s); [apply IH|done].
Qed.

(** Indices whose cells hold other pointers leave the slice alone. *)
Lemma removeUnrefs_nomatch (ptr : BlockPointer) (js : list nat)
    (s : slice BlockInfo) :
  Forall (fun j => exists u, backing s !! j = Some u /\ biPointer u <> ptr) js ->
  removeUnrefs ptr js s = Some s.
Proof.
  induction 1 as [|j js (u & Hu & Hne) _ IH]; cbn; [done|].
  rewrite Hu, bool_decide_eq_false_2 by done. exact IH.
Qed.

Lemma elems_backing {A} (s : slice A) :
  backing s = elems s ++ drop (len s) (backing s).
Proof. unfold elems. by rewrite take_drop. Qed.

Lemma elems_length {A} (s : slice A) :
  wfSlice s -> length (elems s) = len s.
Proof. unfold wfSlice, elems. rewrite length_take. lia. Qed.

(** One unref carries the pointer: it is deleted, the others stay in
    order. *)
Lemma removeUnrefs_single (ptr : BlockPointer) (s : slice BlockInfo)
    (l1 l2 : list BlockInfo) (y : BlockInfo) :
  wfSlice s ->
  elems s = l1 ++ y :: l2 ->
  biPointer y = ptr ->
  Forall (fun u => biPointer u <> ptr) l1 ->
  Forall (fun u => biPointer u <> ptr) l2 ->
  exists s', removeUnrefs ptr (seq 0 (len s)) s = Some s' /\
    elems s' = l1 ++ l2 /\ wfSlice s'.
Proof.
  intros Hwf He Hy H1 H2.
  pose proof (elems_length s Hwf) as Hlen. rewrite He, length_app in Hlen.
  cbn in Hlen.
  pose proof (elems_backing s) as Hb. rewrite He in Hb.
  assert (Hseq : seq 0 (len s) =
            seq 0 (length l1) ++ length l1 :: seq (S (length l1)) (length l2)).
  { rewrite <- Hlen, seq_app. cbn. reflexivity. }
  assert (Ey : backing s !! length l1 = Some y).
  { rewrite Hb, <- app_assoc. rewrite lookup_app_r by lia.
    by rewrite Nat.sub_diag. }
  destruct (removeIndex_elems (length l1) s l1 l2 y Hwf He eq_refl)
    as (s' & Hri & He' & Hwf' & Hcap & Hlen' & Hb').
  exists s'. split; [|done].
  rewrite Hseq, removeUnrefs_app.
  rewrite removeUnrefs_nomatch; cycle 1.
  { apply Forall_forall. intros j Hj. apply elem_of_seq in Hj.
    destruct (lookup_lt_is_Some_2 l1 j) as [u Hu]; [lia|].
    exists u. split.
    - rewrite Hb, <- app_assoc. by apply lookup_app_l_Some.
    - rewrite Forall_forall in H1. apply H1. by eapply list_elem_of_lookup_2. }
  cbn [removeUnrefs].
  rewrite Ey, bool_decide_eq_true_2, Hri by done.
  apply removeUnrefs_nomatch. apply Forall_forall. intros j Hj.
  apply elem_of_seq in Hj. rewrite Hb'.
  rewrite lookup_app_r by lia.
  destruct (decide (j - length l1 < length l2)%nat) as [Hlt|Hge].
  - destruct (lookup_lt_is_Some_2 l2 (j - length l1)) as [u Hu]; [lia|].
    exists u. split; [by apply lookup_app_l_Some|].
    rewrite Forall_forall in H2. apply H2. by eapply list_elem_of_lookup_2.
  - assert (j = (length l1 + length l2)%nat) as -> by lia.
    rewrite lookup_app_r by lia.
    replace (length l1 + length l2 - length l1 - length l2)%nat with 0%nat
      by lia.
    rewrite lookup_drop, Hb, <- app_assoc.
    rewrite lookup_app_r by lia.
    replace (len s - 1 + 0 - length l1)%nat with (S (length l2 - 1)) by lia.
    cbn. destruct (lookup_lt_is_Some_2 l2 (length l2 - 1)) as [u Hu]; [lia|].
    exists u. split; [by apply lookup_app_l_Some|].
    rewrite Forall_forall in H2. apply H2. by eapply list_elem_of_lookup_2.
Qed.

(** After a deletion, the cell that held the last unref still holds it:
    when it carries the pointer, reaching its index panics. *)
Lemma removeUnrefs_stale (ptr : BlockPointer) (n : nat) (x : BlockInfo)
    (js : list nat) (s : slice BlockInfo) :
  biPointer x = ptr ->
  (len s <= n)%nat ->
  wfSlice s ->
  backing s !! n = Some x ->
  removeUnrefs ptr (js ++ [n]) s = None.
Proof.
  intros Hx. revert s. induction js as [|j js IH]; intros s Hlen Hwf Hn; cbn.
  - rewrite Hn, bool_decide_eq_true_2 by done.
    unfold removeIndex. by rewrite decide_False by lia.
  - destruct (backing s !! j) as [u|]; [|done].
    destruct (bool_decide (biPointer u = ptr)); [|by apply IH].
    unfold removeIndex. destruct (decide (j + 1 <= len s)%nat); [|done].
    apply IH; cbn.
    + lia.
    + unfold wfSlice in *. cbn. rewrite !length_app, !length_take, length_drop.
      rewrite length_drop. lia.
    + unfold wfSlice in Hwf.
      pose proof (lookup_lt_Some _ _ _ Hn) as Hcap.
      rewrite lookup_app_r by (rewrite length_take; lia).
      rewrite lookup_app_r
        by (rewrite !length_take, length_drop; lia).
      rewrite lookup_drop, !length_take, length_drop.
      rewrite <- Hn. f_equal. lia.
Qed.

Lemma removeRef_skip (ptr : BlockPointer) (i : nat) (r1 rest : list BlockPointer)
    (refBlocks : slice BlockPointer) (unrefs : slice BlockInfo) :
  ptr ∉ r1 ->
  removeRef ptr i (r1 ++ rest) refBlocks unrefs
    = removeRef ptr (i + length r1) rest refBlocks unrefs.
Proof.
  revert i. induction r1 as [|r r1 IH]; intros i Hn; cbn.
  - by rewrite Nat.add_0_r.
  - apply not_elem_of_cons in Hn as [Hr Hn].
    rewrite bool_decide_eq_false_2 by done.
    rewrite IH by done. f_equal. lia.
Qed.

Lemma first_carrying (ptr : BlockPointer) (l : list BlockInfo) (y : BlockInfo) :
  y ∈ l -> biPointer y = ptr ->
  exists l1 y' l2, l = l1 ++ y' :: l2 /\ biPointer y' = ptr /\
    Forall (fun u => biPointer u <> ptr) l1.
Proof.
  induction l as [|u l IH]; [by intros ?%elem_of_nil|].
  intros Hin Hy. destruct (decide (biPointer u = ptr)) as [Hu|Hu].
  - exists [], u, l. by repeat split.
  - apply elem_of_cons in Hin as [->|Hin]; [done|].
    destruct (IH Hin Hy) as (l1 & y' & l2 & -> & Hy' & H1).
    exists (u :: l1), y', l2. repeat split; [done|]. by constructor.
Qed.

Lemma at_most_one_carrying (ptr : BlockPointer) (l : list BlockInfo) :
  (length (filter (fun u => biPointer u = ptr) l) <= 1)%nat ->
  Forall (fun u => biPointer u <> ptr) l \/
  exists l1 y l2, l = l1 ++ y :: l2 /\ biPointer y = ptr /\
    Forall (fun u => biPointer u <> ptr) l1 /\
    Forall (fun u => biPointer u <> ptr) l2.
Proof.
  induction l as [|u l IH]; [by left|].
  rewrite filter_cons. destruct (decide (biPointer u = ptr)) as [Hu|Hu]; cbn.
  - intros Hl. right. exists [], u, l. repeat split; [done|done|].
    apply Forall_forall. intros v Hv Hp.
    assert (Hin : v ∈ filter (fun u => biPointer u = ptr) l)
      by (by apply list_elem_of_filter).
    destruct (filter _ l); [by apply elem_of_nil in Hin|cbn in Hl; lia].
  - intros Hl. destruct (IH Hl) as [Hall|(l1 & y & l2 & -> & Hy & H1 & H2)].
    + left. by constructor.
    + right. exists (u :: l1), y, l2. repeat split; try done. by constructor.
Qed.

Lemma filter_others (ptr : BlockPointer) (l : list BlockInfo) :
  Forall (fun u => biPointer u <> ptr) l ->
  filter (fun u => biPointer u <> ptr) l = l.
Proof.
  induction 1 as [|u l Hu _ IH]; [done|].
  by rewrite filter_cons, decide_True, IH.
Qed.

(** X1: a pointer that [si.op.RefBlocks] does not hold: nothing is
    touched, whatever the unrefs are. *)
Theorem removeReplacedBlock_not_referenced (ptr : BlockPointer)
    (refBlocks : slice BlockPointer) (unrefs : slice BlockInfo) :
  ptr ∉ elems refBlocks ->
  removeReplacedBlock ptr refBlocks unrefs = Some (refBlocks, unrefs).
Proof.
  intros Hn. unfold removeReplacedBlock.
  rewrite <- (app_nil_r (elems refBlocks)).
  by rewrite removeRef_skip.
Qed.

(** X2: a referenced pointer that at most one unref carries: the first
    reference to it is deleted from [RefBlocks], the unref that carries it
    is deleted from [unrefs], and everything else stays, in order. *)
Theorem removeReplacedBlock_removes (ptr : BlockPointer)
    (refBlocks : slice BlockPointer) (unrefs : slice BlockInfo)
    (r1 r2 : list BlockPointer) :
  wfSlice refBlocks -> wfSlice unrefs ->
  elems refBlocks = r1 ++ ptr :: r2 ->
  ptr ∉ r1 ->
  (length (filter (fun u => biPointer u = ptr) (elems unrefs)) <= 1)%nat ->
  exists refBlocks' unrefs',
    removeReplacedBlock ptr refBlocks unrefs = Some (refBlocks', unrefs') /\
    elems refBlocks' = r1 ++ r2 /\
    elems unrefs' = filter (fun u => biPointer u <> ptr) (elems unrefs).
Proof.
  intros Hwr Hwu Hr Hr1 Hone. unfold removeReplacedBlock.
  rewrite Hr, removeRef_skip by done. cbn.
  rewrite bool_decide_eq_true_2 by done.
  destruct (removeIndex_elems (length r1) refBlocks r1 r2 ptr Hwr Hr eq_refl)
    as (refs' & -> & Hr' & _).
  destruct (at_most_one_carrying ptr _ Hone)
    as [Hall|(l1 & y & l2 & Hl & Hy & H1 & H2)].
  - rewrite removeUnrefs_nomatch.
    + exists refs', unrefs. by rewrite filter_others.
    + apply Forall_forall. intros j Hj. apply elem_of_seq in Hj.
      pose proof (elems_length unrefs Hwu) as Hlen.
      destruct (lookup_lt_is_Some_2 (elems unrefs) j) as [u Hu]; [lia|].
      exists u. split.
      * rewrite (elems_backing unrefs). by apply lookup_app_l_Some.
      * rewrite Forall_forall in Hall. apply Hall.
        by eapply list_elem_of_lookup_2.
  - destruct (removeUnrefs_single ptr unrefs l1 l2 y Hwu Hl Hy H1 H2)
      as (u' & -> & Hu' & _).
    exists refs', u'. repeat split; [done|]. rewrite Hu', Hl.
    rewrite filter_app, filter_cons, decide_False by (by intros ?).
    by rewrite !filter_others.
Qed.

(** X3: a referenced pointer that the last unref and an earlier unref both
    carry: the loop deletes the earlier one, later reaches the cell the
    last one was moved out of, finds the pointer there again, and panics on
    [si.unrefs[j+1:]] with the slice bounds out of range. *)
Theorem removeReplacedBlock_panics (ptr : BlockPointer)
    (refBlocks : slice BlockPointer) (unrefs : slice BlockInfo)
    (l : list BlockInfo) (x y : BlockInfo) :
  wfSlice refBlocks -> wfSlice unrefs ->
  ptr ∈ elems refBlocks ->
  elems unrefs = l ++ [x] ->
  biPointer x = ptr ->
  y ∈ l -> biPointer y = ptr ->
  removeReplacedBlock ptr refBlocks unrefs = None.
Proof.
  intros Hwr Hwu Hin Hl Hx Hy Hyp. unfold removeReplacedBlock.
  apply list_elem_of_split_l in Hin as (r1 & r2 & Hr & Hr1).
  rewrite Hr, removeRef_skip by done. cbn.
  rewrite bool_decide_eq_true_2 by done.
  destruct (removeIndex_elems (length r1) refBlocks r1 r2 ptr Hwr Hr eq_refl)
    as (refs' & -> & _).
  destruct (first_carrying ptr l y Hy Hyp) as (l1 & y' & l2 & -> & Hy' & H1).
  rewrite <- app_assoc in Hl. cbn in Hl.
  pose proof (elems_length unrefs Hwu) as Hlen.
  rewrite Hl, length_app in Hlen. cbn in Hlen. rewrite length_app in Hlen.
  cbn in Hlen.
  pose proof (elems_backing unrefs) as Hb. rewrite Hl in Hb.
  assert (Hseq : seq 0 (len unrefs) =
            seq 0 (length l1) ++
            length l1 :: seq (S (length l1)) (length l2) ++ [(len unrefs - 1)%nat]).
  { rewrite <- Hlen.
    replace (length l1 + S (length l2 + 1))%nat
      with (length l1 + (1 + (length l2 + 1)))%nat by lia.
    rewrite seq_app. cbn. rewrite seq_app. cbn.
    do 4 f_equal. lia. }
  assert (Ey : backing unrefs !! length l1 = Some y').
  { rewrite Hb, <- app_assoc. rewrite lookup_app_r by lia.
    by rewrite Nat.sub_diag. }
  destruct (removeIndex_elems (length l1) unrefs l1 (l2 ++ [x]) y' Hwu Hl
              eq_refl) as (s' & Hri & He' & Hwf' & Hcap & Hlen' & Hb').
  rewrite Hseq, removeUnrefs_app.
  rewrite removeUnrefs_nomatch; cycle 1.
  { apply Forall_forall. intros j Hj. apply elem_of_seq in Hj.
    destruct (lookup_lt_is_Some_2 l1 j) as [u Hu]; [lia|].
    exists u. split.
    - rewrite Hb, <- app_assoc. by apply lookup_app_l_Some.
    - rewrite Forall_forall in H1. apply H1. by eapply list_elem_of_lookup_2. }
  cbn [removeUnrefs].
  rewrite Ey, bool_decide_eq_true_2, Hri by done.
  rewrite (removeUnrefs_stale ptr (len unrefs - 1) x); try done; [lia|].
  rewrite Hb'. rewrite app_assoc.
  rewrite lookup_app_r by (rewrite !length_app; cbn; lia).
  rewrite lookup_drop.
  replace (len unrefs - 1 + (len unrefs - 1 - length (l1 ++ l2 ++ [x])))%nat
    with (len unrefs - 1)%nat by (rewrite !length_app; cbn; lia).
  rewrite Hb, <- app_assoc. rewrite lookup_app_r by lia.
  replace (len unrefs - 1 - length l1)%nat with (S (length l2)) by lia.
  change (((l2 ++ [x]) ++ drop (len unrefs) (backing unrefs)) !! length l2
          = Some x).
  rewrite <- app_assoc, lookup_app_r by lia.
  by rewrite Nat.sub_diag.
Qed.

(** ** Undoing directory-cache operations *)

Lemma undoes_keeps {A} (m : M A) (k : A -> M unit) pre post :
  keeps dirBook m -> (forall a, undoes (k a) pre post) ->
  undoes (m ≫= k) pre post.
Proof.
  intros Hm Hu s s' u Hs H0.
  apply bind_Ret in H0 as (a & s1 & H1 & H2).
  eapply Hu; [|exact H2]. by rewrite (Hm _ _ _ H1).
Qed.

Lemma undoes_seq (u2 u1 : M unit) pre mid post :
  undoes u2 mid post -> undoes u1 pre mid -> undoes (u2;; u1) pre post.
Proof.
  intros H2 H1 s s' u Hs H0.
  apply bind_Ret in H0 as (a & s1 & Ha & Hb).
  eapply H1; [|exact Hb]. eapply H2; [exact Hs|exact Ha].
Qed.

Lemma undoes_then_keeps (undo m : M unit) pre post :
  undoes undo pre post -> keeps dirBook m -> undoes (undo;; m) pre post.
Proof.
  intros Hu Hm s s' u Hs H0.
  apply bind_Ret in H0 as (a & s1 & Ha & Hb).
  rewrite (Hm _ _ _ Hb). eapply Hu; [exact Hs|exact Ha].
Qed.

Lemma keeps_dirBook_deletes (unrefs : list BlockInfo) :
  keeps dirBook
    (forEach unrefs (fun unref => dbcDelete_ (biPointer unref);; mret tt)).
Proof. keeps_auto. Qed.

(** What [makeDirDirtyLocked] does to the book, and that its undo function
    takes it back. *)
Lemma makeDirDirtyLocked_book (lState : lockStateRef) (ptr : BlockPointer)
    (unrefs : list BlockInfo) (st st1 : State) (undo : M unit) :
  makeDirDirtyLocked lState ptr unrefs st = Ret undo st1 ->
  dirtyDirs st1 =
    <[ptr := default [] (dirtyDirs st !! ptr) ++ unrefs]> (dirtyDirs st) /\
  dirtyRootDirEntry st1 = dirtyRootDirEntry st /\
  shared st1 = shared st /\
  undoes undo (dirBook st) (dirBook st1).
Proof.
  unfold makeDirDirtyLocked. intros H0.
  apply bind_Ret in H0 as (? & s0 & Ha & H0).
  apply AssertLocked_Ret in Ha as (-> & _ & _).
  apply bind_Ret in H0 as (old & s1 & Ho & H0).
  unfold gets in Ho. injection Ho as <- <-.
  apply bind_Ret in H0 as (? & s1 & Hm & H0).
  unfold modify in Hm. simplify_eq.
  unfold mret, M_ret in H0. simplify_eq.
  cbn [dirtyDirs set_dirtyDirs dirtyRootDirEntry shared].
  repeat split.
  intros s s' u Hs Hu.
  apply bind_Ret in Hu as (? & s1 & H1 & H2).
  pose proof (keeps_dirBook_deletes unrefs _ _ _ H2) as K2. clear H2.
  rewrite K2. clear K2.
  unfold dirBook in Hs. cbn in Hs. injection Hs as Hdd Hroot.
  destruct (dirtyDirs st !! ptr) as [oldUnrefs|] eqn:Eo.
  - unfold modify in H1. inversion H1 as [[Hx Hs1]]. unfold dirBook. cbn.
    rewrite Hdd, Hroot, insert_insert_eq. f_equal. by apply insert_id.
  - apply bind_Ret in H1 as (? & s2 & Hd & H1).
    assert (K : keeps dirBook (dbcDelete_ ptr)) by keeps_auto.
    apply K in Hd. unfold dirBook in Hd. injection Hd as Hd1 Hd2.
    unfold modify in H1. inversion H1 as [[Hx Hs1]]. unfold dirBook. cbn.
    rewrite Hd1, Hd2, Hdd, Hroot. f_equal. by apply delete_insert_id.
Qed.

(** Inverting one bind of a run that returned; the frame of the step is
    recorded when the step keeps the directory book. *)
Tactic Notation "kstep" hyp(H) "as" simple_intropattern(a) ident(s1) ident(Hm) :=
  lazymatch type of H with
  | (?m ≫= _) _ = Ret _ _ =>
      apply bind_Ret in H as (a & s1 & Hm & H);
      try (let K := fresh "K" in
           assert (K : keeps dirBook m) by keeps_auto;
           apply K in Hm; clear K)
  end.

Ltac kret H :=
  unfold mret, M_ret in H; inversion H; subst; clear H.

Lemma undoes_refl_keeps (undo : M unit) b :
  keeps dirBook undo -> undoes undo b b.
Proof. intros K s s' u Hs Hu. by rewrite (K _ _ _ Hu). Qed.

Lemma updateParentDirEntryLocked_undoable (lState : lockStateRef) (dir : path)
    (kmd : KMD) (setMtime setCtime : bool) :
  undoable (updateParentDirEntryLocked lState dir kmd setMtime setCtime).
Proof.
  intros st r st1 H0. unfold updateParentDirEntryLocked in H0.
  kstep H0 as ? s0 Ha. kstep H0 as [chargedTo|e] s1 Hc; [|kret H0; congruence].
  kstep H0 as now s2 Hn. destruct (pathIsValid (pathParentPath dir)).
  - kstep H0 as ? s3 Hd. kstep H0 as name s4 Hna.
    kstep H0 as [de|e] s5 Hl; [|kret H0; congruence].
    kstep H0 as name' s6 Hna'.
    kstep H0 as [unrefs|e] s7 Hu; [|kret H0; congruence].
    kstep H0 as ptr s8 Hp. kstep H0 as undoDirtyFn s9 Hmk.
    apply makeDirDirtyLocked_book in Hmk as (_ & _ & _ & Hund).
    kret H0.
    replace (dirBook st) with (dirBook s8) by congruence.
    apply undoes_keeps; [keeps_auto|intros ?].
    apply undoes_keeps; [keeps_auto|intros ?]. exact Hund.
  - apply bind_Ret in H0 as (old & s3 & Ho & H0).
    unfold gets in Ho. inversion Ho; subst.
    apply bind_Ret in H0 as (? & s4 & Hmo & H0).
    unfold modify in Hmo. inversion Hmo; subst. kret H0.
    intros s s' u Hs Hu. unfold modify in Hu. inversion Hu; subst.
    unfold dirBook in *. cbn in *. f_equal; congruence.
Qed.

Lemma addDirEntryInCacheLocked_undoable (lState : lockStateRef) (kmd : KMD)
    (dir : path) (newName : string) (newDe : DirEntry) :
  undoable (addDirEntryInCacheLocked lState kmd dir newName newDe).
Proof.
  intros st r st1 H0. unfold addDirEntryInCacheLocked in H0.
  kstep H0 as ? s0 Ha. kstep H0 as [chargedTo|e] s1 Hc; [|kret H0; congruence].
  kstep H0 as ? s2 Hd. kstep H0 as [unrefs|e] s3 Hadd; [|kret H0; congruence].
  apply bind_Ret in H0 as (p & s4 & Hp & H0).
  apply updateParentDirEntryLocked_undoable in Hp.
  destruct p as [parentUndo|e].
  - kstep H0 as ptr s5 Hptr. kstep H0 as undoDirtyFn s6 Hmk.
    apply makeDirDirtyLocked_book in Hmk as (_ & _ & _ & Hund).
    kret H0.
    apply undoes_keeps; [keeps_auto|intros ?].
    eapply undoes_seq; [exact Hund|].
    replace (dirBook st) with (dirBook s3) by congruence.
    replace (dirBook s5) with (dirBook s4) by congruence. exact Hp.
  - kstep H0 as ? s5 Hrm. kret H0. congruence.
Qed.

Lemma removeDirEntryInCacheLocked_undoable (lState : lockStateRef) (kmd : KMD)
    (dir : path) (oldName : string) (oldDe : DirEntry) :
  undoable (removeDirEntryInCacheLocked lState kmd dir oldName oldDe).
Proof.
  intros st r st1 H0. unfold removeDirEntryInCacheLocked in H0.
  kstep H0 as ? s0 Ha. kstep H0 as [chargedTo|e] s1 Hc; [|kret H0; congruence].
  kstep H0 as ? s2 Hd. kstep H0 as [unrefs0|e] s3 Hrm; [|kret H0; congruence].
  kstep H0 as child s4 Hch. kstep H0 as unlinkUndoFn s5 Hul.
  apply bind_Ret in H0 as (p & s6 & Hp & H0).
  apply updateParentDirEntryLocked_undoable in Hp.
  destruct p as [parentUndo|e].
  - kstep H0 as ptr s7 Hptr. kstep H0 as undoDirtyFn s8 Hmk.
    apply makeDirDirtyLocked_book in Hmk as (_ & _ & _ & Hund).
    kret H0.
    apply undoes_keeps; [keeps_auto|intros ?].
    eapply undoes_seq; [exact Hund|].
    apply undoes_then_keeps; [|keeps_auto].
    replace (dirBook st) with (dirBook s5) by congruence.
    replace (dirBook s7) with (dirBook s6) by congruence. exact Hp.
  - kstep H0 as ? s7 Hun. kstep H0 as ? s8 Hadd. kret H0. congruence.
Qed.

Lemma restores_wrap (fn : M unit) (pre post : State) :
  undoes fn (dirBook pre) (dirBook post) ->
  restores (Some (wrapWithBlockLock (Some fn))) pre post.
Proof.
  intros Hu lState s s' u Hs H0. unfold wrapWithBlockLock in H0.
  kstep H0 as ? s0 Hl. apply bind_Ret in H0 as (? & s1 & Hf & H0).
  assert (K : keeps dirBook (Unlock lState)) by keeps_auto.
  rewrite (K _ _ _ H0). eapply Hu; [|exact Hf]. congruence.
Qed.

Lemma Unlock_Ret (lState : lockStateRef) (s s1 : State) (u : unit) :
  Unlock lState s = Ret u s1 ->
  s1 = set_shared (set_holds NotHeld (shared s)) s.
Proof.
  unfold Unlock. munfold. destruct lState; [discriminate|].
  destruct (holds (shared s)) eqn:E; try discriminate.
  by intros [= _ <-].
Qed.

Lemma wrapped_undo (lState : lockStateRef) (op : M (res (M unit)))
    (st st1 : State) (undo : option dirCacheUndoFn) (err : option Error) :
  undoable op ->
  (Lock lState;;
   r ← op;
   match r with
   | Err e => Unlock lState;; mret (None, Some e)
   | Ok fn => Unlock lState;; mret (Some (wrapWithBlockLock (Some fn)), None)
   end) st = Ret (undo, err) st1 ->
  holds (shared st1) = NotHeld /\
  (err <> None -> undo = None) /\
  (err = None -> undo <> None) /\
  restores undo st st1.
Proof.
  intros Hund H0.
  kstep H0 as ? s0 Hl. apply bind_Ret in H0 as (r & s1 & Hop & H0).
  apply Hund in Hop.
  destruct r as [fn|e].
  - apply bind_Ret in H0 as (? & s2 & Hu & H0). kret H0.
    pose proof (Unlock_Ret _ _ _ _ Hu) as Hs2.
    assert (K : keeps dirBook (Unlock lState)) by keeps_auto.
    apply K in Hu. split; [by rewrite Hs2|].
    split; [done|]. split; [done|].
    apply restores_wrap. by rewrite Hu, <- Hl.
  - apply bind_Ret in H0 as (? & s2 & Hu & H0). kret H0.
    pose proof (Unlock_Ret _ _ _ _ Hu) as Hs2.
    assert (K : keeps dirBook (Unlock lState)) by keeps_auto.
    apply K in Hu. split; [by rewrite Hs2|].
    split; [done|]. split; [done|]. cbn. congruence.
Qed.

(** X4: [AddDirEntryInCache] returns with the block lock released; when it
    fails it returns no undo function and the engine's record of dirty
    directories ([dirtyDirs] and [dirtyRootDirEntry]) is what it was; when
    it succeeds, running the undo function it returns takes that record
    back to what it was. *)
Theorem AddDirEntryInCache_undo (lState : lockStateRef) (kmd : KMD)
    (dir : path) (newName : string) (newDe : DirEntry) (st st1 : State)
    (undo : option dirCacheUndoFn) (err : option Error) :
  AddDirEntryInCache lState kmd dir newName newDe st = Ret (undo, err) st1 ->
  holds (shared st1) = NotHeld /\
  (err <> None -> undo = None) /\
  (err = None -> undo <> None) /\
  restores undo st st1.
Proof.
  apply wrapped_undo, addDirEntryInCacheLocked_undoable.
Qed.

(** X5: [RemoveDirEntryInCache] returns with the block lock released; when
    it fails it returns no undo function and the engine's record of dirty
    directories is what it was; when it succeeds, running the undo function
    it returns takes that record back to what it was. *)
Theorem RemoveDirEntryInCache_undo (lState : lockStateRef) (kmd : KMD)
    (dir : path) (oldName : string) (oldDe : DirEntry) (st st1 : State)
    (undo : option dirCacheUndoFn) (err : option Error) :
  RemoveDirEntryInCache lState kmd dir oldName oldDe st = Ret (undo, err) st1 ->
  holds (shared st1) = NotHeld /\
  (err <> None -> undo = None) /\
  (err = None -> undo <> None) /\
  restores undo st st1.
Proof.
  apply wrapped_undo, removeDirEntryInCacheLocked_undoable.
Qed.

Lemma undoes_runIfSet_None b : undoes (runIfSet None : M unit) b b.
Proof. apply undoes_refl_keeps. unfold runIfSet. apply keeps_ret. Qed.

(** X6: [RenameDirEntryInCache] returns with the block lock released.  When
    it fails, at whichever of its steps, it returns no undo function and
    has undone the steps it had taken: the engine's record of dirty
    directories is what it was.  When it succeeds, running the undo
    function it returns takes that record back to what it was. *)
Theorem RenameDirEntryInCache_undo (lState : lockStateRef) (kmd : KMD)
    (oldParent : path) (oldName : string) (newParent : path)
    (newName : string) (newDe replacedDe : DirEntry) (st st1 : State)
    (undo : option dirCacheUndoFn) (err : option Error) :
  RenameDirEntryInCache lState kmd oldParent oldName newParent newName newDe
    replacedDe st = Ret (undo, err) st1 ->
  holds (shared st1) = NotHeld /\
  (err <> None -> undo = None) /\
  restores undo st st1.
Proof.
  unfold RenameDirEntryInCache. intros H0.
  assert (KU : keeps dirBook (Unlock lState)) by keeps_auto.
  kstep H0 as ? s0 Hl. kstep H0 as np s1 Hnp. kstep H0 as op s2 Hop.
  destruct (bool_decide (np = op) && String.eqb oldName newName).
  { apply bind_Ret in H0 as (? & s3 & Hu & H0). kret H0.
    pose proof (Unlock_Ret _ _ _ _ Hu) as Hst1. apply KU in Hu.
    split; [by rewrite Hst1|]. split; [done|]. cbn. congruence. }
  apply bind_Ret in H0 as (r1 & s3 & H1 & H0).
  assert (R1 : match r1 with
               | Err _ => dirBook s3 = dirBook s2
               | Ok o => undoes (runIfSet o) (dirBook s2) (dirBook s3)
               end).
  { destruct (ptrIsInitialized (dePointer replacedDe)).
    - apply bind_Ret in H1 as (r & s' & Hr & H1).
      apply removeDirEntryInCacheLocked_undoable in Hr.
      destruct r; kret H1; exact Hr.
    - kret H1. apply undoes_runIfSet_None. }
  clear H1. destruct r1 as [undoReplace|e]; cycle 1.
  { apply bind_Ret in H0 as (? & s4 & Hu & H0). kret H0.
    pose proof (Unlock_Ret _ _ _ _ Hu) as Hst1. apply KU in Hu.
    split; [by rewrite Hst1|]. split; [done|]. cbn. congruence. }
  apply bind_Ret in H0 as (r2 & s4 & H2 & H0).
  apply addDirEntryInCacheLocked_undoable in H2.
  destruct r2 as [undoAdd|e]; cycle 1.
  { apply bind_Ret in H0 as (? & s5 & Hur & H0).
    apply bind_Ret in H0 as (? & s6 & Hu & H0). kret H0.
    pose proof (Unlock_Ret _ _ _ _ Hu) as Hst1. apply KU in Hu.
    split; [by rewrite Hst1|]. split; [done|]. cbn. rewrite Hu.
    rewrite (R1 s4 s5 _ H2 Hur). congruence. }
  apply bind_Ret in H0 as (r3 & s5 & H3 & H0).
  apply removeDirEntryInCacheLocked_undoable in H3.
  destruct r3 as [undoRm|e]; cycle 1.
  { apply bind_Ret in H0 as (? & s6 & Hua & H0).
    apply bind_Ret in H0 as (? & s7 & Hur & H0).
    apply bind_Ret in H0 as (? & s8 & Hu & H0). kret H0.
    pose proof (Unlock_Ret _ _ _ _ Hu) as Hst1. apply KU in Hu.
    split; [by rewrite Hst1|]. split; [done|]. cbn. rewrite Hu.
    pose proof (H2 s5 s6 _ H3 Hua) as E6.
    rewrite (R1 s6 s7 _ E6 Hur). congruence. }
  kstep H0 as nr s6 Hnr. kstep H0 as newParentNode s7 Hget.
  kstep H0 as r4 s8 Hmv.
  destruct r4 as [undoMove|e]; cycle 1.
  { apply bind_Ret in H0 as (? & s9 & Hum & H0).
    apply bind_Ret in H0 as (? & s10 & Hua & H0).
    apply bind_Ret in H0 as (? & s11 & Hur & H0).
    apply bind_Ret in H0 as (? & s12 & Hu & H0). kret H0.
    pose proof (Unlock_Ret _ _ _ _ Hu) as Hst1. apply KU in Hu.
    split; [by rewrite Hst1|]. split; [done|]. cbn. rewrite Hu.
    assert (E8 : dirBook s8 = dirBook s5) by congruence.
    pose proof (H3 s8 s9 _ E8 Hum) as E9.
    pose proof (H2 s9 s10 _ E9 Hua) as E10.
    rewrite (R1 s10 s11 _ E10 Hur). congruence. }
  apply bind_Ret in H0 as (? & s9 & Hu & H0). kret H0.
  pose proof (Unlock_Ret _ _ _ _ Hu) as Hst1. apply KU in Hu.
  split; [by rewrite Hst1|]. split; [done|].
  apply restores_wrap.
  replace (dirBook st1) with (dirBook s5) by congruence.
  replace (dirBook st) with (dirBook s2) by congruence.
  apply undoes_keeps;
    [destruct undoMove; [keeps_auto|apply keeps_ret]|intros ?].
  eapply undoes_seq; [exact H3|].
  eapply undoes_seq; [exact H2|]. exact R1.
Qed.

(** ** Dirty directories: [makeDirDirtyLocked] *)

Lemma forEach_deletes_returns (unrefs : list BlockInfo) (s : State) :
  exists s',
    forEach unrefs (fun unref => dbcDelete_ (biPointer unref);; mret tt) s
      = Ret tt s'.
Proof.
  revert s. induction unrefs as [|u l IH]; intros s; cbn; [by eexists|].
  unfold dbcDelete_, id, branch, liftW. munfold. cbn. apply IH.
Qed.

(** X7: [makeDirDirtyLocked] appends the unrefs to what [dirtyDirs] holds
    for the directory and touches no other directory; the undo function it
    returns always runs through, and run right away it leaves [dirtyDirs]
    exactly as it was before the call. *)
Theorem makeDirDirtyLocked_round_trip (lState : lockStateRef)
    (ptr : BlockPointer) (unrefs : list BlockInfo) (st st1 : State)
    (undo : M unit) :
  makeDirDirtyLocked lState ptr unrefs st = Ret undo st1 ->
  dirtyDirs st1 !! ptr = Some (default [] (dirtyDirs st !! ptr) ++ unrefs) /\
  (forall q, q <> ptr -> dirtyDirs st1 !! q = dirtyDirs st !! q) /\
  exists st2, undo st1 = Ret tt st2 /\ dirtyDirs st2 = dirtyDirs st.
Proof.
  intros H0.
  destruct (makeDirDirtyLocked_book _ _ _ _ _ _ H0) as (Hdd & _ & _ & Hund).
  split; [by rewrite Hdd, lookup_insert_eq|].
  split; [intros q Hq; by rewrite Hdd, lookup_insert_ne|].
  assert (Hret : exists st2, undo st1 = Ret tt st2).
  { unfold makeDirDirtyLocked in H0.
    apply bind_Ret in H0 as (? & s0 & Ha & H0).
    apply bind_Ret in H0 as (old & s1 & Ho & H0).
    apply bind_Ret in H0 as (? & s2 & Hm & H0).
    unfold mret, M_ret in H0. inversion H0; subst. clear H0.
    destruct old as [o|].
    - unfold modify. munfold. apply forEach_deletes_returns.
    - unfold dbcDelete_, id, branch, liftW, modify. munfold. cbn.
      apply forEach_deletes_returns. }
  destruct Hret as [st2 Hst2]. exists st2. split; [done|].
  specialize (Hund st1 st2 tt eq_refl Hst2).
  unfold dirBook in Hund. by injection Hund.
Qed.

(** ** Sync infos: [getOrCreateSyncInfoLocked] *)

(** X8: after a successful [getOrCreateSyncInfoLocked(de)] the unref cache
    maps [de.Ref()] to the returned sync info and its other entries are
    untouched; a sync info created by the call is a new object with the
    entry's block info, a fresh sync op and no unrefs; a second call
    returns the same sync info and changes nothing; and once the lock is
    released [IsDirty] answers true for every path whose tail ref is
    [de.Ref()]. *)
Theorem getOrCreateSyncInfoLocked_registers (lState : lockStateRef)
    (de : DirEntry) (st st1 : State) (a : siAddr) :
  getOrCreateSyncInfoLocked lState de st = Ret (Ok a) st1 ->
  unrefCache st1 !! deRef de = Some a /\
  (forall ref, ref <> deRef de -> unrefCache st1 !! ref = unrefCache st !! ref) /\
  (unrefCache st !! deRef de = None ->
   syncInfos st !! a = None /\
   exists so, newSyncOp (dePointer de) = Ok so /\
     syncInfos st1 !! a = Some (mkSyncInfo (deInfo de) (Some so) [] None 0 0 [])) /\
  getOrCreateSyncInfoLocked lState de st1 = Ret (Ok a) st1 /\
  (forall file s2,
     tailRef file = Some (deRef de) ->
     Unlock lState st1 = Ret tt s2 ->
     IsDirty lState file s2 = Ret true s2).
Proof.
  unfold getOrCreateSyncInfoLocked. intros H0.
  apply bind_Ret in H0 as (? & s0 & Ha & H0).
  pose proof Ha as Ha'.
  apply AssertLocked_Ret in Ha as (-> & -> & Hh).
  apply bind_Ret in H0 as (si & s1 & Hsi & H0).
  unfold gets in Hsi. inversion Hsi; subst. clear Hsi.
  assert (Hdirty : forall s, unrefCache s !! deRef de = Some a ->
            holds (shared s) = HeldW ->
            forall file s2, tailRef file = Some (deRef de) ->
              Unlock lsTok s = Ret tt s2 -> IsDirty lsTok file s2 = Ret true s2).
  { intros s Hs Hhs file s2 Hf Hu. apply Unlock_Ret in Hu. subst s2.
    destruct (tailRef_tailPointer _ _ Hf) as (tp & Htp & Hr).
    unfold IsDirty, RLock, RUnlock. munfold. cbn. rewrite Htp. cbn.
    unfold tailRef. rewrite Htp. cbn.
    destruct s as [[h df dw bl w] tlf br sis uc dd root ct de' nc ch].
    cbn in *.
    destruct (dbcIsDirty w tlf tp (Branch file)); cbn; [done|].
    destruct (df !! tp); cbn; [done|].
    rewrite <- Hr, Hs. cbn. try rewrite bool_decide_eq_true_2 by eauto.
    done. }
  destruct (unrefCache s1 !! deRef de) as [a'|] eqn:Ec.
  - unfold mret, M_ret in H0. inversion H0; subst. clear H0.
    repeat split; try done.
    + rewrite (bind_Ret_eq _ _ _ _ _ Ha'). unfold mbind, M_bind, gets.
      rewrite Ec. done.
    + by apply Hdirty.
  - destruct (newSyncOp (dePointer de)) as [so|e] eqn:Eso;
      [|unfold mret, M_ret in H0; by inversion H0].
    apply bind_Ret in H0 as (a' & s2 & Hal & H0).
    unfold allocSyncInfo in Hal. inversion Hal; subst. clear Hal.
    apply bind_Ret in H0 as (? & s3 & Hm & H0).
    unfold modify in Hm. inversion Hm; subst. clear Hm.
    unfold mret, M_ret in H0. inversion H0; subst. clear H0.
    cbn [unrefCache set_unrefCache set_syncInfos syncInfos].
    assert (Hfresh : syncInfos s1 !! fresh (dom (syncInfos s1)) = None).
    { apply not_elem_of_dom. apply is_fresh. }
    repeat split.
    + by rewrite lookup_insert_eq.
    + intros ref Hne. by rewrite lookup_insert_ne.
    + done.
    + exists so. split; [done|]. by rewrite lookup_insert_eq.
    + unfold AssertLocked. munfold. cbn. rewrite Hh. cbn.
      by rewrite lookup_insert_eq.
    + apply Hdirty; [by cbn; rewrite lookup_insert_eq|done].
Qed.

(** ** [ClearCacheInfo] when [finishSync] fails *)

(** X9: when [ClearCacheInfo] returns an error, the error is
    [finishSync]'s on the path's dirty file; the dirty file is still in
    [dirtyFiles], but the path's entry in the unref cache is already gone;
    the block lock is released. *)
Theorem ClearCacheInfo_error (lState : lockStateRef) (file : path)
    (st st1 : State) (e : Error) :
  ClearCacheInfo lState file st = Ret (Some e) st1 ->
  exists tp df,
    tailPointer file = Some tp /\
    dirtyFiles (shared st) !! tp = Some df /\
    (dfFinishSync (dfState df, ext (shared st))).1 = Some e /\
    is_Some (dirtyFiles (shared st1) !! tp) /\
    unrefCache st1 = delete (Ref tp) (unrefCache st) /\
    holds (shared st1) = NotHeld.
Proof.
  destruct st as [[h df dw bl w] tlf br sis uc dd root ct de nc ch].
  unfold ClearCacheInfo, clearCacheInfoLocked, withDirtyFile, onDFW.
  munfold. unfold tailRef.
  destruct lState; [discriminate|].
  destruct h; try discriminate. cbn.
  destruct (tailPointer file) as [tp|] eqn:Etp; [|discriminate]. cbn.
  destruct (df !! tp) as [d|] eqn:Ed; cbn; rewrite ?Ed; cbn; [|discriminate].
  destruct (dfFinishSync (dfState d, w)) as [[e'|] [d' w']] eqn:Ef; cbn;
    [|discriminate].
  intros [= <- <-]. exists tp, d. cbn. rewrite Ef. cbn.
  repeat split; try done. rewrite lookup_insert_eq. eauto.
Qed.

(** ** The charged-to id: [getChargedToLocked] and [ClearChargedTo] *)

(** X10: once [getChargedToLocked] has returned a non-nil id, every later
    call returns that id without asking the KBPKI again, whatever key
    metadata it is given, and changes nothing; after [ClearChargedTo] the
    cached id is nil again, so that the next call asks afresh. *)
Theorem getChargedToLocked_caches (lState : lockStateRef) (kmd : KMD)
    (st st1 : State) (c : string) :
  getChargedToLocked lState kmd st = Ret (Ok c) st1 ->
  c <> "" ->
  chargedTo st1 = c /\
  (forall kmd', getChargedToLocked lState kmd' st1 = Ret (Ok c) st1) /\
  (forall s2 s3, Unlock lState st1 = Ret tt s2 ->
     ClearChargedTo lState s2 = Ret tt s3 ->
     s3 = set_chargedTo "" s2 /\
     forall s4 kmd', Lock lState s3 = Ret tt s4 ->
       getChargedToLocked lState kmd' s4 =
         match chargedToForTLF (ext (shared s4)) kmd' with
         | Ok c' => Ret (Ok c') (set_chargedTo c' s4)
         | Err e => Ret (Err e) s4
         end).
Proof.
  destruct st as [[h df dw bl w] tlf br sis uc dd root ct de nc ch].
  unfold getChargedToLocked, AssertAnyLocked, ClearChargedTo, Lock, Unlock.
  munfold. cbn.
  destruct lState; [discriminate|].
  destruct h; try discriminate; cbn.
  all: destruct (String.eqb ct "") eqn:Ec; cbn.
  all: try (destruct (chargedToForTLF w kmd) as [c'|e] eqn:Ek; cbn;
            [|discriminate]).
  all: intros [= <- <-] Hc; cbn.
  all: split; [done|].
  all: apply String.eqb_neq in Hc as Hc'; rewrite ?Hc', ?Ec; cbn.
  all: split; [done|].
  all: intros s2 s3; try discriminate.
  all: intros [= <-]; cbn; intros [= <-].
  all: split; [reflexivity|].
  all: intros s4 kmd'; cbn; intros [= <-]; cbn.
  all: by destruct (chargedToForTLF w kmd').
Qed.

(** ** [UpdatePointers] *)

Lemma keeps_holds_updateAll (kmd : KMD) (shouldPrefetch : bool)
    (updates : list (BlockPointer * BlockPointer)) (acc : list N) :
  keeps (fun s : State => holds (shared s))
    (updateAll kmd shouldPrefetch updates acc).
Proof.
  revert acc. induction updates as [|u l IH]; intros acc; cbn.
  - apply keeps_ret.
  - apply keeps_bind; [keeps_auto|]. intros ?. apply IH.
Qed.

Lemma Lock_Ret (lState : lockStateRef) (s s1 : State) (u : unit) :
  Lock lState s = Ret u s1 ->
  lState = lsTok /\ holds (shared s) = NotHeld /\
  s1 = set_shared (set_holds HeldW (shared s)) s.
Proof.
  unfold Lock. munfold. destruct lState; [discriminate|].
  destruct (holds (shared s)) eqn:E; try discriminate.
  by intros [= _ <-].
Qed.

(** X11: with a non-nil [afterUpdateFn], [UpdatePointers] first applies all
    the pointer updates, then calls [afterUpdateFn] with the block lock
    still held for writing, and returns its error together with the
    affected node ids; the lock is released when it returns. *)
Theorem UpdatePointers_afterUpdateFn_locked (kmd : KMD) (lState : lockStateRef)
    (allUpdates : list (BlockPointer * BlockPointer)) (shouldPrefetch : bool)
    (afterUpdateFn : M (option Error)) (st st' : State)
    (affectedNodeIDs : list N) (err : option Error) :
  UpdatePointers kmd lState allUpdates shouldPrefetch (Some afterUpdateFn) st
    = Ret (affectedNodeIDs, err) st' ->
  exists s0 s1 s2,
    Lock lState st = Ret tt s0 /\
    updateAll kmd shouldPrefetch allUpdates [] s0 = Ret affectedNodeIDs s1 /\
    holds (shared s1) = HeldW /\
    afterUpdateFn s1 = Ret err s2 /\
    Unlock lState s2 = Ret tt st' /\
    holds (shared st') = NotHeld.
Proof.
  unfold UpdatePointers. intros H0.
  apply bind_Ret in H0 as ([] & s0 & Hl & H0).
  apply bind_Ret in H0 as (ids & s1 & Hup & H0).
  apply bind_Ret in H0 as (e & s2 & Hf & H0).
  apply bind_Ret in H0 as ([] & s3 & Hu & H0).
  unfold mret, M_ret in H0. inversion H0; subst. clear H0.
  exists s0, s1, s2. repeat split; try done.
  - rewrite (keeps_holds_updateAll _ _ _ _ _ _ _ Hup).
    apply Lock_Ret in Hl as (_ & _ & ->). done.
  - by rewrite (Unlock_Ret _ _ _ _ Hu).
Qed.

Lemma updateAll_same_ID (kmd : KMD) (shouldPrefetch : bool)
    (updates : list (BlockPointer * BlockPointer)) (acc ids : list N)
    (s s' : State) :
  Forall (fun u => ID u.1 = ID u.2) updates ->
  updateAll kmd shouldPrefetch updates acc s = Ret ids s' ->
  ids = acc /\ s' = set_nodeCache (nodeCache s') s.
Proof.
  intros Hall. revert acc s.
  induction Hall as [|u l Hu _ IH]; intros acc s; cbn.
  - intros [= <- <-]. split; [done|]. by destruct s.
  - intros H0. apply bind_Ret in H0 as (n & s1 & Hp & H0).
    assert (n = None /\ s1 = set_nodeCache (nodeCache s1) s) as [-> Hs1].
    { unfold updatePointer, withNodeCache, deref, gets, modify in Hp.
      unfold mbind, M_bind, mret, M_ret in Hp.
      destruct (nodeCache s) as [nc|] eqn:Enc; [|discriminate]. cbn in Hp.
      destruct (ncUpdatePointer (Ref u.1) u.2 nc) as [[n'|] nc'] eqn:Eu;
        cbn in Hp.
      - rewrite bool_decide_eq_true_2 in Hp by done. by inversion Hp.
      - by inversion Hp. }
    apply IH in H0 as [-> Hs']. split; [done|].
    rewrite Hs', Hs1. by destruct s.
Qed.

(** X12: pointer updates that keep the block id (only the other fields of
    the pointer change) are applied to the node cache and to nothing
    else: no node id is reported as affected, no prefetch is requested or
    cancelled. *)
Theorem UpdatePointers_same_ID (kmd : KMD) (lState : lockStateRef)
    (allUpdates : list (BlockPointer * BlockPointer)) (shouldPrefetch : bool)
    (st st' : State) (r : list N * option Error) :
  Forall (fun u => ID u.1 = ID u.2) allUpdates ->
  UpdatePointers kmd lState allUpdates shouldPrefetch None st = Ret r st' ->
  r = ([], None) /\ st' = set_nodeCache (nodeCache st') st.
Proof.
  intros Hall. unfold UpdatePointers. intros H0.
  apply bind_Ret in H0 as ([] & s0 & Hl & H0).
  apply bind_Ret in H0 as (ids & s1 & Hup & H0).
  apply bind_Ret in H0 as ([] & s2 & Hu & H0).
  unfold mret, M_ret in H0. inversion H0; subst. clear H0.
  apply (updateAll_same_ID _ _ _ _ _ _ _ Hall) in Hup as [-> Hs1].
  split; [done|].
  apply Lock_Ret in Hl as (_ & Hh & ->). apply Unlock_Ret in Hu. subst st'.
  rewrite Hs1. destruct st as [[h ? ? ? ?] ? ? ? ? ? ? ? ? ? ?].
  cbn in *. by subst h.
Qed.

(** ** A failed sync and the deferred writes *)

(** Inverting one bind of a run that returned, recording the frame of the
    step for the projection [proj] when the step keeps it. *)
Tactic Notation "fstep" constr(proj) hyp(H) "as"
    simple_intropattern(a) ident(s1) ident(Hm) :=
  lazymatch type of H with
  | (?m ≫= _) _ = Ret _ _ =>
      apply bind_Ret in H as (a & s1 & Hm & H);
      try (let K := fresh "K" in
           assert (K : keeps proj m) by keeps_auto;
           apply K in Hm; clear K)
  end.

(** X13: what [CleanupSyncState] does with the writes deferred during the
    sync.  With a nil error it touches nothing of the engine (only the
    journal is told the operation ended).  After a recoverable block error
    the deferred writes are kept for the retry.  After any other error the
    deferred state of the file is deleted: its writes are already part of
    the dirty blocks. *)
Theorem CleanupSyncState_deferred (lState : lockStateRef) (md : MD)
    (file : path) (blocksToRemove : list BlockPointer)
    (result : fileSyncState) (err : option Error) (st st' : State)
    (u : unit) :
  CleanupSyncState lState md file blocksToRemove result err st = Ret u st' ->
  match err with
  | None => st' = set_shared (set_ext (ext (shared st')) (shared st)) st
  | Some e =>
      if isRecoverableBlockError e then deferred st' = deferred st
      else exists tr, tailRef file = Some tr /\
             deferred st' = delete tr (deferred st)
  end.
Proof.
  unfold CleanupSyncState. intros H0.
  destruct err as [e|]; cycle 1.
  { destruct st as [[h df dw bl w] tlf br sis uc dd root ct de nc ch].
    unfold journalEnd, id, modW, liftW, getsW, gets in H0. munfold.
    cbn in H0. destruct (getJournalServer w); cbn in H0; by inversion H0. }
  apply bind_Ret in H0 as (j & s0 & Hj & H0).
  unfold getsW, gets in Hj. inversion Hj; subst s0; clear Hj.
  fstep (@deferred W DF NC SO MD) H0 as ? s1 Hl.
  fstep (@deferred W DF NC SO MD) H0 as tp s2 Htp.
  fstep (@deferred W DF NC SO MD) H0 as ? s3 Hn.
  fstep (@deferred W DF NC SO MD) H0 as ? s4 Hsi.
  apply bind_Ret in H0 as (? & s5 & Hmid & H0).
  assert (Hrest : deferred st' = deferred s5).
  { match type of H0 with
    | ?m _ = _ => assert (K : keeps (@deferred W DF NC SO MD) m) by keeps_auto
    end.
    by apply K in H0. }
  rewrite Hrest. clear H0 Hrest.
  destruct (isRecoverableBlockError e).
  - match type of Hmid with
    | ?m _ = _ => assert (K : keeps (@deferred W DF NC SO MD) m) by keeps_auto
    end.
    apply K in Hmid. congruence.
  - fstep (@deferred W DF NC SO MD) Hmid as tr s6 Htr.
    fstep (@deferred W DF NC SO MD) Hmid as ds s7 Hds.
    fstep (@deferred W DF NC SO MD) Hmid as tp' s8 Htp'.
    fstep (@deferred W DF NC SO MD) Hmid as df s9 Hdf.
    fstep (@deferred W DF NC SO MD) Hmid as ? s10 Hup.
    apply bind_Ret in Hmid as (tr' & s11 & Htr' & Hmid).
    unfold tailRef', deref in Htr'.
    destruct (tailRef file) as [r|]; [|discriminate].
    unfold mret, M_ret in Htr'. inversion Htr'; subst. clear Htr'.
    unfold modify in Hmid. inversion Hmid; subst. clear Hmid.
    exists tr'. split; [done|]. cbn. congruence.
Qed.

(** ** [FinishSyncLocked] and the bookkeeping of the old path *)

Lemma clearCacheInfoLocked_post (lState : lockStateRef) (file : path)
    (s s' : State) :
  clearCacheInfoLocked lState file s = Ret None s' ->
  exists tp,
    tailPointer file = Some tp /\
    unrefCache s' !! Ref tp = None /\
    dirtyFiles (shared s') !! tp = None.
Proof.
  destruct s as [[h df dw bl w] tlf br sis uc dd root ct de nc ch].
  unfold clearCacheInfoLocked, withDirtyFile, onDFW.
  munfold. unfold tailRef.
  destruct lState; [discriminate|].
  destruct h; try discriminate. cbn.
  destruct (tailPointer file) as [tp|] eqn:Etp; [|discriminate]. cbn.
  destruct (df !! tp) as [d|] eqn:Ed; cbn; rewrite ?Ed; cbn.
  - destruct (dfFinishSync (dfState d, w)) as [[e|] [d' w']] eqn:Ef; cbn;
      [discriminate|].
    intros [= <-]. exists tp. cbn. by rewrite !lookup_delete_eq.
  - intros [= <-]. exists tp. cbn. by rewrite lookup_delete_eq.
Qed.

(** X14: after a successful [FinishSyncLocked], deferred writes replayed or
    not, the engine holds no sync info under the old path's tail ref and no
    dirty file under its tail pointer. *)
Theorem FinishSyncLocked_clears (lState : lockStateRef)
    (oldPath newPath : path) (md : MD) (syncState : fileSyncState)
    (st st' : State) (stillDirty : bool) :
  FinishSyncLocked lState oldPath newPath md syncState st
    = Ret (stillDirty, None) st' ->
  exists tp,
    tailPointer oldPath = Some tp /\
    unrefCache st' !! Ref tp = None /\
    dirtyFiles (shared st') !! tp = None.
Proof.
  unfold FinishSyncLocked. intros H0.
  apply bind_Ret in H0 as (? & s0 & Ha & H0).
  apply bind_Ret in H0 as ([e1|] & s1 & Hd1 & H0); [by inversion H0|].
  apply bind_Ret in H0 as (? & s2 & Hd2 & H0).
  apply bind_Ret in H0 as ([sd [e2|]] & s3 & Hw & H0); [by inversion H0|].
  cbn [fst snd] in H0.
  apply bind_Ret in H0 as ([e3|] & s4 & Hc & H0); [by inversion H0|].
  apply bind_Ret in H0 as ([e4|] & s5 & Hu & H0); [by inversion H0|].
  unfold mret, M_ret in H0. inversion H0; subst. clear H0.
  destruct (clearCacheInfoLocked_post _ _ _ _ Hc) as (tp & Htp & Huc & Hdf).
  exists tp. split; [done|].
  assert (K : keeps (fun s : State => (unrefCache s, dirtyFiles (shared s)))
                (cleanUpUnusedBlocks md syncState)).
  { unfold cleanUpUnusedBlocks. keeps_auto.
    generalize (@nil BlockPointer).
    induction (toCleanIfUnused a0) as [|o l IH]; intros seen; cbn;
      keeps_auto. }
  apply K in Hu. injection Hu as -> ->. done.
Qed.

(** ** Writers only *)

(** X15: when the current session is not a writer of the folder,
    [writeDataLocked] and [truncateLocked] return a write access error
    naming the user and the file before anything is fetched or recorded:
    the engine is as it was, and of the collaborators only the journal has
    been told that a dirty operation started and ended. *)
Theorem write_refused_for_non_writer (kmd : KMD) (file : path)
    (data : list Byte.byte) (off size : Z) (st : State) (session : Session) :
  let j := getJournalServer (ext (shared st)) in
  let w1 := if j then dirtyOpStart (folderTlf st) (ext (shared st))
            else ext (shared st) in
  let w2 := if j then dirtyOpEnd (folderTlf st) w1 else w1 in
  let st' := set_shared (set_ext w2 (shared st)) st in
  holds (shared st) = HeldW ->
  is_Some (tailPointer file) ->
  getCurrentSession w1 = Ok session ->
  kmdIsWriter w1 kmd (sessUID session) (sessKey session) = Ok false ->
  writeDataLocked lsTok kmd file data off st
    = Ret (zeroWriteRange, [], 0,
           Some (WriteAccessError (sessName session) file)) st' /\
  truncateLocked lsTok kmd file size st
    = Ret (Some zeroWriteRange, [], 0,
           Some (WriteAccessError (sessName session) file)) st'.
Proof.
  destruct st as [[h df dw bl w] tlf br sis uc dd root ct de nc ch].
  cbn. intros -> [tp Htp] Hs Hw.
  unfold writeDataLocked, truncateLocked, journalStart, journalEnd,
    writeGetFileLocked, id, getsW, modW, liftW.
  munfold. cbn. rewrite Htp. cbn.
  destruct (getJournalServer w); cbn; cbn in Hs, Hw; rewrite Hs; cbn;
    rewrite Hw; cbn; done.
Qed.

(** ** Reading a dirty file block *)

(** X16: a file block that the dirty block cache holds is what a read gets:
    the cached object itself, not a copy, without the clean cache or the
    server being consulted and with the engine unchanged; the flag returned
    with it is the dirty block cache's [IsDirty]. *)
Theorem getFileBlockLocked_read_dirty (kmd : KMD) (ptr : BlockPointer)
    (file : path) (st : State) (a : addr) (fb : FileBlock) :
  holds (shared st) = HeldR ->
  ptrIsValid ptr = true ->
  dbcGet (ext (shared st)) (folderTlf st) ptr (Branch file) = Ok a ->
  blocks (shared st) !! a = Some (BFile fb) ->
  getFileBlockLocked lsTok kmd ptr file blockRead st
    = Ret (Ok (a, dbcIsDirty (ext (shared st)) (folderTlf st) ptr
                    (Branch file))) st.
Proof.
  destruct st as [[h df dw bl w] tlf br sis uc dd root ct de nc ch].
  cbn. intros -> Hv Hg Hb.
  unfold getFileBlockLocked, getFileBlockHelperLocked, getBlockHelperLocked,
    checkParallel, id, getsW.
  change (bool_decide (blockRead = blockRead)) with true.
  change (bool_decide (blockRead <> blockReadParallel)) with true.
  change (bool_decide (blockRead = blockWrite)) with false.
  munfold. cbn. rewrite Hv. cbn. rewrite Hg. cbn. rewrite Hb. done.
Qed.

(** ** Cleaning up after failed revisions: [cleanUpUnusedBlocks] *)


(** ** [GetCleanEncodedBlocksSizeSum] when it fails *)

Section PoolError.

Variables (kmd : KMD) (br : string) (ignore : gmap BlockPointer bool).
Variables (ptrs : list BlockPointer) (st1 : State).

#[local] Abbreviation errInv := (errInv kmd br ignore ptrs st1).

Lemma errInv_init : errInv (initPool ptrs st1).
Proof.
  repeat split; cbn; try done.
  intros i q Hi. apply lookup_replicate in Hi as [? _]. done.
Qed.

Lemma lookup_insert_fetching (ws : list worker) (i j : nat) (w : worker)
    (q : BlockPointer) :
  <[i := w]> ws !! j = Some (Fetching q) ->
  w = Fetching q \/ ws !! j = Some (Fetching q).
Proof.
  intros Hj. destruct (decide (i = j)) as [->|Hne].
  - destruct (decide (j < length ws)%nat) as [Hlt|Hge].
    + rewrite list_lookup_insert_eq in Hj by done. left. congruence.
    + rewrite list_insert_ge in Hj by lia. by right.
  - rewrite list_lookup_insert_ne in Hj by done. by right.
Qed.

Lemma errInv_finish (p : pool) (i : nat) (q : BlockPointer) (r : res Z) :
  errInv p ->
  workers p !! i = Some (Fetching q) ->
  (groupErr p = None -> fetchedSize kmd br st1 q = Some r) ->
  errInv (finish ignore i q r p).
Proof.
  intros (Heng & Hch & Hfl & Herr) Hi HF.
  assert (Hq : q ∈ ptrs) by eauto.
  unfold finish. destruct r as [sz|e];
    [|destruct (isRecoverableBlockErrorForRemoval e && ignored ignore q)
        eqn:Hs]; split; cbn; try done; (split; [done|]); split.
  all: try (intros j q' Hj; apply lookup_insert_fetching in Hj as [?|?];
            [done|eauto]).
  all: try done.
  intros e'. destruct (groupErr p) as [e0|] eqn:Hg.
  - intros [= <-]. by apply Herr.
  - intros [= <-]. exists q. split; [done|]. split; [by apply HF|].
    unfold skipped. by rewrite (HF eq_refl).
Qed.

Lemma errInv_step (p p' : pool) :
  pool_step kmd br ignore p p' -> errInv p -> errInv p'.
Proof.
  intros Hstep Hp. destruct Hstep as
    [p Hc | p i q rest Hi Hch | p i Hi Hch Hc | p i q r st' Hi Hf | p i q e Hi Hg].
  - exact Hp.
  - destruct Hp as (Heng & Hch' & Hfl & Herr). repeat split; cbn; try done.
    + intros q' Hq'. apply Hch'. rewrite Hch. by right.
    + intros j q' Hj. apply lookup_insert_fetching in Hj as [[= <-]|?].
      * apply Hch'. rewrite Hch. by left.
      * eauto.
  - destruct Hp as (Heng & Hch' & Hfl & Herr). repeat split; cbn; try done.
    intros j q' Hj. apply lookup_insert_fetching in Hj as [?|?]; [done|eauto].
  - destruct Hp as (Heng & Hch' & Hfl & Herr).
    rewrite Heng in Hf.
    pose proof (getCleanEncodedBlockSizeLocked_parallel_pure _ _ _ _ _ _ Hf)
      as Hpure. cbn in Hpure. subst st'.
    apply errInv_finish; [by repeat split|done|].
    intros _. unfold fetchedSize. by rewrite Hf.
  - apply errInv_finish; try done.
Qed.

Lemma errInv_rtc (p : pool) :
  rtc (pool_step kmd br ignore) (initPool ptrs st1) p -> errInv p.
Proof.
  revert p. apply rtc_ind_r.
  - apply errInv_init.
  - intros y z _ Hs Hy. by eapply errInv_step.
Qed.

End PoolError.

(** X18: when [GetCleanEncodedBlocksSizeSum] returns an error, under any
    interleaving of its workers, the error is the one the fetch of one of
    the given pointers answered, and it is not a recoverable-for-removal
    error on a pointer of the ignore set; the sum returned with it is 0 and
    the engine is as it was. *)
Theorem GetCleanEncodedBlocksSizeSum_error (lState : lockStateRef) (kmd : KMD)
    (ptrs : list BlockPointer) (ignore : gmap BlockPointer bool)
    (br : string) (st st' : State) (sum : Z) (e : Error) :
  GetCleanEncodedBlocksSizeSum_returns lState kmd ptrs ignore br st sum
    (Some e) st' ->
  st' = st /\ sum = 0 /\
  exists q, q ∈ ptrs /\
    fetchedSize kmd br st q = Some (Err e) /\
    skipped kmd br ignore st q = false.
Proof.
  intros (st1 & p & Hl & Hr & _ & Hex & Hres & Hu).
  destruct (errInv_rtc kmd br ignore ptrs st1 p Hr) as (Heng & _ & _ & Herr).
  destruct (groupErr p) as [e'|] eqn:Hg; [|discriminate].
  injection Hres as -> ->.
  destruct (Herr e' eq_refl) as (q & Hq & Hf & Hs).
  pose proof (RLock_Ret _ _ _ _ Hl) as (-> & Hh0 & ->).
  rewrite Heng in Hu. apply RUnlock_Ret in Hu.
  split; [|split; [done|]].
  - subst st'. destruct st as [[h ? ? ? ?] ? ? ? ? ? ? ? ? ? ?].
    cbn in Hh0. by subst h.
  - exists q. split; [done|].
    unfold skipped in *. rewrite fetchedSize_holds in Hf, Hs. done.
Qed.

(** A schedule that returns the error exists: with a single pointer whose
    fetch fails and is not skipped, the one worker receives it, fetches it
    and returns the error to the group. *)
Lemma GetCleanEncodedBlocksSizeSum_can_fail (kmd : KMD) (q : BlockPointer)
    (ignore : gmap BlockPointer bool) (br : string) (st : State) (e : Error) :
  holds (shared st) = NotHeld ->
  fetchedSize kmd br st q = Some (Err e) ->
  skipped kmd br ignore st q = false ->
  GetCleanEncodedBlocksSizeSum_returns lsTok kmd [q] ignore br st 0 (Some e) st.
Proof.
  intros Hh Hf Hs.
  set (st1 := set_shared (set_holds HeldR (shared st)) st).
  assert (Hf1 : fetchedSize kmd br st1 q = Some (Err e))
    by (unfold st1; by rewrite fetchedSize_holds).
  assert (Hrun : getCleanEncodedBlockSizeLocked lsNil kmd q br
                   blockReadParallel st1 = Ret (Err e) st1).
  { unfold fetchedSize in Hf1.
    destruct (getCleanEncodedBlockSizeLocked lsNil kmd q br blockReadParallel
                st1) as [r s'| |] eqn:E; try discriminate.
    pose proof (getCleanEncodedBlockSizeLocked_parallel_pure _ _ _ _ _ _ E)
      as Hp. cbn in Hp. subst s'. by injection Hf1 as ->. }
  assert (Hne : isRecoverableBlockErrorForRemoval e && ignored ignore q = false).
  { unfold skipped in Hs. by rewrite Hf in Hs. }
  exists st1, (mkPool [] true [] [Exited (Some e)] (Some e) st1).
  split; [unfold RLock; munfold; by rewrite Hh|].
  split.
  { change (initPool [q] st1) with (mkPool [q] false [] [Receiving] None st1).
    eapply rtc_l.
    { by apply (step_close kmd br ignore
                  (mkPool [q] false [] [Receiving] None st1)). }
    eapply rtc_l.
    { by apply (step_receive kmd br ignore
                  (mkPool [q] true [] [Receiving] None st1) 0%nat q []). }
    eapply rtc_l.
    { apply (step_fetched kmd br ignore
               (mkPool [] true [] [Fetching q] None st1) 0%nat q (Err e) st1);
        [done|exact Hrun]. }
    unfold finish. rewrite Hne. cbn. done. }
  split; [done|].
  split; [repeat constructor|].
  split; [done|].
  cbn [engine]. unfold RUnlock, st1. munfold. cbn.
  destruct st as [[h ? ? ? ?] ? ? ? ? ? ? ? ? ? ?]. cbn in Hh. by subst h.
Qed.

(** ** A cached directory operation makes the folder dirty *)

Lemma tailPointer'_Ret (p : path) (s s1 : State) (ptr : BlockPointer) :
  tailPointer' p s = Ret ptr s1 -> tailPointer p = Some ptr /\ s1 = s.
Proof.
  unfold tailPointer', deref. destruct (tailPointer p); [|discriminate].
  unfold mret, M_ret. by intros [= -> ->].
Qed.

Lemma addDirEntryInCacheLocked_dirties (lState : lockStateRef) (kmd : KMD)
    (dir : path) (newName : string) (newDe : DirEntry) (st st1 : State)
    (undo : M unit) :
  addDirEntryInCacheLocked lState kmd dir newName newDe st = Ret (Ok undo) st1 ->
  exists tp, tailPointer dir = Some tp /\ is_Some (dirtyDirs st1 !! tp).
Proof.
  intros H0. unfold addDirEntryInCacheLocked in H0.
  kstep H0 as ? s0 Ha. kstep H0 as [chargedTo|e] s1 Hc; [|kret H0].
  kstep H0 as ? s2 Hd. kstep H0 as [unrefs|e] s3 Hadd; [|kret H0].
  apply bind_Ret in H0 as ([parentUndo|e] & s4 & Hp & H0).
  - apply bind_Ret in H0 as (ptr & s5 & Hptr & H0).
    apply tailPointer'_Ret in Hptr as (Hptr & ->).
    apply bind_Ret in H0 as (undoDirtyFn & s6 & Hmk & H0).
    apply makeDirDirtyLocked_book in Hmk as (Hdd & _).
    kret H0. exists ptr. split; [done|].
    rewrite Hdd, lookup_insert_eq. by eexists.
  - kstep H0 as ? s5 Hrm. kret H0.
Qed.

Lemma removeDirEntryInCacheLocked_dirties (lState : lockStateRef) (kmd : KMD)
    (dir : path) (oldName : string) (oldDe : DirEntry) (st st1 : State)
    (undo : M unit) :
  removeDirEntryInCacheLocked lState kmd dir oldName oldDe st
    = Ret (Ok undo) st1 ->
  exists tp, tailPointer dir = Some tp /\ is_Some (dirtyDirs st1 !! tp).
Proof.
  intros H0. unfold removeDirEntryInCacheLocked in H0.
  kstep H0 as ? s0 Ha. kstep H0 as [chargedTo|e] s1 Hc; [|kret H0].
  kstep H0 as ? s2 Hd. kstep H0 as [unrefs0|e] s3 Hrm; [|kret H0].
  kstep H0 as child s4 Hch. kstep H0 as unlinkUndoFn s5 Hul.
  apply bind_Ret in H0 as ([parentUndo|e] & s6 & Hp & H0).
  - apply bind_Ret in H0 as (ptr & s7 & Hptr & H0).
    apply tailPointer'_Ret in Hptr as (Hptr & ->).
    apply bind_Ret in H0 as (undoDirtyFn & s8 & Hmk & H0).
    apply makeDirDirtyLocked_book in Hmk as (Hdd & _).
    kret H0. exists ptr. split; [done|].
    rewrite Hdd, lookup_insert_eq. by eexists.
  - kstep H0 as ? s7 Hun. kstep H0 as ? s8 Hadd. kret H0.
Qed.

Lemma GetState_dirty_dir (st : State) (tp : BlockPointer) :
  holds (shared st) = NotHeld ->
  is_Some (dirtyDirs st !! tp) ->
  GetState lsTok st = Ret dirtyState st.
Proof.
  intros Hh [unrefs Hd].
  assert (Hsz : (size (dirtyDirs st) =? 0)%nat = false).
  { apply Nat.eqb_neq. intros Hz. apply map_size_empty_iff in Hz.
    by rewrite Hz, lookup_empty in Hd. }
  destruct st as [[h df dw bl w] ? ? ? ? dd ? ? ? ? ?].
  cbn in Hh, Hsz. subst h. unfold GetState. munfold. cbn.
  rewrite Hsz, andb_false_r. reflexivity.
Qed.

Lemma GetDirtyDirBlockRefs_Ret (st : State) :
  holds (shared st) = NotHeld ->
  GetDirtyDirBlockRefs lsTok st
    = Ret (Ref <$> (map_to_list (dirtyDirs st)).*1) st.
Proof.
  intros Hh. destruct st as [[h df dw bl w] ? ? ? ? dd ? ? ? ? ?].
  cbn in Hh. subst h. unfold GetDirtyDirBlockRefs. munfold. reflexivity.
Qed.

(** X19: after a successful [AddDirEntryInCache] or [RemoveDirEntryInCache]
    on a directory, the folder is dirty: [GetState] answers [dirtyState],
    and [GetDirtyDirBlockRefs] returns the refs of the pointers in
    [dirtyDirs], the directory's tail ref among them. *)
Theorem DirEntryInCache_dirties (lState : lockStateRef) (kmd : KMD)
    (dir : path) (name : string) (de : DirEntry) (st st1 : State)
    (undo : option dirCacheUndoFn) :
  AddDirEntryInCache lState kmd dir name de st = Ret (undo, None) st1 \/
  RemoveDirEntryInCache lState kmd dir name de st = Ret (undo, None) st1 ->
  exists tp refs,
    tailPointer dir = Some tp /\
    GetState lState st1 = Ret dirtyState st1 /\
    GetDirtyDirBlockRefs lState st1 = Ret refs st1 /\
    Ref tp ∈ refs /\
    (forall r, r ∈ refs <->
       exists ptr, r = Ref ptr /\ is_Some (dirtyDirs st1 !! ptr)).
Proof.
  intros H0.
  assert (Hl : lState = lsTok /\ holds (shared st1) = NotHeld /\
               exists tp, tailPointer dir = Some tp /\
                 is_Some (dirtyDirs st1 !! tp)).
  { destruct H0 as [H0|H0];
      [unfold AddDirEntryInCache in H0|unfold RemoveDirEntryInCache in H0];
      apply bind_Ret in H0 as (? & s0 & Hlock & H0);
      apply Lock_Ret in Hlock as (-> & _ & _);
      apply bind_Ret in H0 as ([fn|e] & s1 & Hop & H0);
      [|apply bind_Ret in H0 as (? & s2 & Hu & H0); kret H0
       | |apply bind_Ret in H0 as (? & s2 & Hu & H0); kret H0].
    all: apply bind_Ret in H0 as (? & s2 & Hu & H0); kret H0.
    all: pose proof (Unlock_Ret _ _ _ _ Hu) as Hs2.
    all: split; [done|]; split; [by rewrite Hs2|].
    - apply addDirEntryInCacheLocked_dirties in Hop as (tp & Htp & Hd).
      exists tp. split; [done|]. by rewrite Hs2.
    - apply removeDirEntryInCacheLocked_dirties in Hop as (tp & Htp & Hd).
      exists tp. split; [done|]. by rewrite Hs2. }
  destruct Hl as (-> & Hh & tp & Htp & Hd).
  exists tp, (Ref <$> (map_to_list (dirtyDirs st1)).*1).
  split; [done|].
  split; [by apply (GetState_dirty_dir st1 tp)|].
  split; [by apply GetDirtyDirBlockRefs_Ret|].
  assert (Hall : forall r,
            r ∈ Ref <$> (map_to_list (dirtyDirs st1)).*1 <->
            exists ptr, r = Ref ptr /\ is_Some (dirtyDirs st1 !! ptr)).
  { intros r. rewrite list_elem_of_fmap. split.
    - intros (ptr & -> & Hin). exists ptr. split; [done|].
      apply list_elem_of_fmap in Hin as ([p u] & -> & Hin).
      apply elem_of_map_to_list in Hin. by eexists.
    - intros (ptr & -> & [u Hu]). exists ptr. split; [done|].
      apply list_elem_of_fmap. exists (ptr, u). split; [done|].
      by apply elem_of_map_to_list. }
  split; [|exact Hall].
  apply Hall. by exists tp.
Qed.

(** ** [Write] and [Truncate]: waiting, and deferring during a sync *)

Context {writeConfig : @WriteConfig W Node}.

Lemma pathFromNodeForBlockWriteLocked_Ret (lState : lockStateRef) (n : Node)
    (s s1 : State) (r : res path) :
  pathFromNodeForBlockWriteLocked lState n s = Ret r s1 ->
  s1 = s /\ holds (shared s) = HeldW /\
  exists nc, nodeCache s = Some nc /\
    r = if pathIsValid (ncPathFromNode nc (Some n))
        then Ok (ncPathFromNode nc (Some n))
        else Err (InvalidPathError (ncPathFromNode nc (Some n))).
Proof.
  unfold pathFromNodeForBlockWriteLocked. intros H0.
  apply bind_Ret in H0 as (? & s0 & Ha & H0).
  apply AssertLocked_Ret in Ha as (-> & _ & Hh).
  apply bind_Ret in H0 as (p & s2 & Hp & H0).
  unfold withNodeCache in Hp.
  apply bind_Ret in Hp as (o & s3 & Ho & Hp).
  unfold gets in Ho. inversion Ho; subst; clear Ho.
  destruct (nodeCache s3) as [nc|] eqn:Enc; [|discriminate].
  cbn in Hp. unfold mbind, M_bind, modify, mret, M_ret in Hp. cbn in Hp.
  inversion Hp; subst; clear Hp.
  assert (Hs : set_nodeCache (Some nc) s3 = s3)
    by (destruct s3; cbn in *; by subst).
  rewrite Hs in H0.
  split; [|split; [done|exists nc; split; [done|]]];
    destruct (pathIsValid (ncPathFromNode nc (Some n)));
    unfold mret, M_ret in H0; by inversion H0.
Qed.

Lemma leaveWrite_Ret (lState : lockStateRef) (bytes : Z) (s s' : State)
    (u : unit) :
  leaveWrite lState bytes s = Ret u s' ->
  holds (shared s') = NotHeld /\ doDeferWrite (shared s') = false /\
  deferred s' = deferred s.
Proof.
  unfold leaveWrite. intros H0.
  apply bind_Ret in H0 as (? & s1 & H1 & H0).
  unfold modShared, modify in H1. inversion H1; subst; clear H1.
  apply bind_Ret in H0 as (? & s2 & H2 & H0).
  apply Unlock_Ret in H2. subst s2.
  apply bind_Ret in H0 as (tlf & s3 & H3 & H0).
  unfold id, gets in H3. inversion H3; subst; clear H3.
  unfold modW, modShared, modify in H0. inversion H0; subst. cbn. done.
Qed.

Lemma deferLocked_Ret (filePath : path) (d : deferredOp)
    (dirtyPtrs : list BlockPointer) (n : Z) (s s' : State) (u : unit) :
  deferLocked filePath d dirtyPtrs n s = Ret u s' ->
  shared s' = shared s /\
  exists tr, tailRef filePath = Some tr /\
    deferred s' =
      <[tr := deferOne d dirtyPtrs n
                (default zeroDeferredState (deferred s !! tr))]> (deferred s).
Proof.
  unfold deferLocked. intros H0.
  apply bind_Ret in H0 as (tr & s1 & Ht & H0).
  unfold tailRef', deref in Ht.
  destruct (tailRef filePath) as [tr'|]; [|discriminate].
  unfold mret, M_ret in Ht. inversion Ht; subst; clear Ht.
  unfold modify in H0. inversion H0; subst. cbn.
  split; [done|]. by exists tr.
Qed.

(** X20: what a successful [Write] leaves behind.  The block lock is
    released and [doDeferWrite] is false again.  The data was written to
    the path the node cache gives for the node, under the write lock; and
    if that write found [doDeferWrite] set (it dirtied a block that is
    being synced), the write is queued once more for the file's tail ref:
    a closure with the same path, a copy of the data and the offset is
    appended to the deferred writes, the dirtied pointers to the deferred
    dirty deletes, and the newly dirtied bytes are added to the bytes to
    wait for.  Otherwise nothing is queued. *)
Theorem Write_defers (lState : lockStateRef) (kmd : KMD) (file : Node)
    (data : list Byte.byte) (off : Z) (script : list selectEvent)
    (st st' : State) :
  Write lState kmd file data off script st = Ret None st' ->
  holds (shared st') = NotHeld /\ doDeferWrite (shared st') = false /\
  exists filePath nc s1 s2 w,
    holds (shared s1) = HeldW /\
    nodeCache s1 = Some nc /\ filePath = ncPathFromNode nc (Some file) /\
    writeDataLocked lState kmd filePath data off s1 = Ret w s2 /\
    w.2 = None /\
    (doDeferWrite (shared s2) = false -> deferred st' = deferred s2) /\
    (doDeferWrite (shared s2) = true ->
     exists tr, tailRef filePath = Some tr /\
       deferred st' =
         <[tr := deferOne (DeferredWrite filePath data off w.1.2) w.1.1.2
                   w.1.2 (default zeroDeferredState (deferred s2 !! tr))]>
           (deferred s2)).
Proof.
  unfold Write. intros H0.
  apply bind_Ret in H0 as (tlf & s0 & _ & H0).
  apply bind_Ret in H0 as ([e|] & s0' & _ & H0); [by kret H0|].
  apply bind_Ret in H0 as ([e|] & s0'' & _ & H0).
  { apply bind_Ret in H0 as (? & ? & _ & H0). by kret H0. }
  apply bind_Ret in H0 as (? & sl & Hl & H0).
  apply bind_Ret in H0 as (p & s1 & Hp & H0).
  apply pathFromNodeForBlockWriteLocked_Ret in Hp as (-> & Hh & nc & Hnc & ->).
  destruct (pathIsValid (ncPathFromNode nc (Some file))).
  2:{ apply bind_Ret in H0 as (? & ? & _ & H0).
      apply bind_Ret in H0 as (? & ? & _ & H0). by kret H0. }
  apply bind_Ret in H0 as (w & s2 & Hw & H0).
  destruct (w.2) as [e|] eqn:Ew.
  { apply bind_Ret in H0 as (? & ? & _ & H0). by kret H0. }
  apply bind_Ret in H0 as (? & s3 & Hobs & H0).
  unfold modW, modShared, modify in Hobs. inversion Hobs; subst s3; clear Hobs.
  apply bind_Ret in H0 as (d & s4 & Hd & H0).
  unfold gets in Hd. inversion Hd; subst d s4; clear Hd.
  cbn [shared set_shared doDeferWrite set_ext] in H0.
  apply bind_Ret in H0 as (? & s5 & Hdef & H0).
  apply bind_Ret in H0 as (? & s6 & Hleave & H0). kret H0.
  apply leaveWrite_Ret in Hleave as (Hh' & Hdw & Hdf).
  split; [done|]. split; [done|].
  exists (ncPathFromNode nc (Some file)), nc, sl, s2, w.
  split; [done|]. split; [done|]. split; [done|]. split; [done|].
  split; [done|].
  destruct (doDeferWrite (shared s2)).
  - apply deferLocked_Ret in Hdef as (_ & tr & Htr & Hdef).
    split; [discriminate|]. intros _. exists tr. split; [done|].
    by rewrite Hdf, Hdef.
  - unfold mret, M_ret in Hdef. inversion Hdef; subst s5.
    split; [|discriminate]. intros _. by rewrite Hdf.
Qed.

(** X21: the same for a successful [Truncate]: the closure queued when the
    truncate found [doDeferWrite] set carries the path and the size, and
    nothing is queued otherwise. *)
Theorem Truncate_defers (lState : lockStateRef) (kmd : KMD) (file : Node)
    (size : Z) (script : list selectEvent) (st st' : State) :
  Truncate lState kmd file size script st = Ret None st' ->
  holds (shared st') = NotHeld /\ doDeferWrite (shared st') = false /\
  exists filePath nc s1 s2 t,
    holds (shared s1) = HeldW /\
    nodeCache s1 = Some nc /\ filePath = ncPathFromNode nc (Some file) /\
    truncateLocked lState kmd filePath size s1 = Ret t s2 /\
    t.2 = None /\
    (doDeferWrite (shared s2) = false -> deferred st' = deferred s2) /\
    (doDeferWrite (shared s2) = true ->
     exists tr, tailRef filePath = Some tr /\
       deferred st' =
         <[tr := deferOne (DeferredTruncate filePath size t.1.2) t.1.1.2
                   t.1.2 (default zeroDeferredState (deferred s2 !! tr))]>
           (deferred s2)).
Proof.
  unfold Truncate. intros H0.
  apply bind_Ret in H0 as (tlf & s0 & _ & H0).
  apply bind_Ret in H0 as ([e|] & s0' & _ & H0); [by kret H0|].
  apply bind_Ret in H0 as ([e|] & s0'' & _ & H0).
  { apply bind_Ret in H0 as (? & ? & _ & H0). by kret H0. }
  apply bind_Ret in H0 as (? & sl & Hl & H0).
  apply bind_Ret in H0 as (p & s1 & Hp & H0).
  apply pathFromNodeForBlockWriteLocked_Ret in Hp as (-> & Hh & nc & Hnc & ->).
  destruct (pathIsValid (ncPathFromNode nc (Some file))).
  2:{ apply bind_Ret in H0 as (? & ? & _ & H0).
      apply bind_Ret in H0 as (? & ? & _ & H0). by kret H0. }
  apply bind_Ret in H0 as (t & s2 & Ht & H0).
  destruct (t.2) as [e|] eqn:Et.
  { apply bind_Ret in H0 as (? & ? & _ & H0). by kret H0. }
  apply bind_Ret in H0 as (? & s3 & Hobs & H0).
  assert (Hs3 : doDeferWrite (shared s3) = doDeferWrite (shared s2) /\
                deferred s3 = deferred s2).
  { destruct (t.1.1.1).
    - unfold modW, modShared, modify in Hobs. by inversion Hobs.
    - unfold mret, M_ret in Hobs. by inversion Hobs. }
  destruct Hs3 as (Hdw3 & Hdf3). clear Hobs.
  apply bind_Ret in H0 as (d & s4 & Hd & H0).
  unfold gets in Hd. inversion Hd; subst d s4; clear Hd.
  apply bind_Ret in H0 as (? & s5 & Hdef & H0).
  apply bind_Ret in H0 as (? & s6 & Hleave & H0). kret H0.
  apply leaveWrite_Ret in Hleave as (Hh' & Hdw & Hdf).
  split; [done|]. split; [done|].
  exists (ncPathFromNode nc (Some file)), nc, sl, s2, t.
  split; [done|]. split; [done|]. split; [done|]. split; [done|].
  split; [done|].
  rewrite Hdw3 in Hdef.
  destruct (doDeferWrite (shared s2)).
  - apply deferLocked_Ret in Hdef as (_ & tr & Htr & Hdef).
    split; [discriminate|]. intros _. exists tr. split; [done|].
    by rewrite Hdf, Hdef, Hdf3.
  - unfold mret, M_ret in Hdef. inversion Hdef; subst s5.
    split; [|discriminate]. intros _. by rewrite Hdf, Hdf3.
Qed.

Lemma yield_Ret (s s1 : State) (u : unit) :
  yield s = Ret u s1 -> holds (shared s1) = holds (shared s).
Proof.
  unfold yield, getHolds, setHolds, modShared, modify, gets, mbind, M_bind.
  intros Hrun. by inversion Hrun.
Qed.

Lemma registerErr_Ret (lState : lockStateRef) (file : Node) (st st1 : State)
    (r : res chanId) :
  registerErr lState file st = Ret r st1 ->
  holds (shared st1) = NotHeld /\
  match r with
  | Err e => exists p, e = InvalidPathError p
  | Ok _ => True
  end.
Proof.
  unfold registerErr. intros Hrun.
  apply bind_Ret in Hrun as (? & s0 & Hl & Hrun).
  apply bind_Ret in Hrun as (p & s1 & Hp & Hrun).
  apply pathFromNodeForBlockWriteLocked_Ret in Hp as (-> & Hh & nc & Hnc & ->).
  destruct (pathIsValid (ncPathFromNode nc (Some file))).
  - apply bind_Ret in Hrun as (df & s2 & _ & Hrun).
    apply bind_Ret in Hrun as (c & s3 & _ & Hrun).
    apply bind_Ret in Hrun as (? & s4 & _ & Hrun).
    apply bind_Ret in Hrun as (? & s5 & Hu & Hrun). kret Hrun.
    apply Unlock_Ret in Hu. by subst.
  - apply bind_Ret in Hrun as (? & s5 & Hu & Hrun). kret Hrun.
    apply Unlock_Ret in Hu. subst. split; [done|]. by eexists.
Qed.

Lemma waitLoop_returns (lState : lockStateRef) (file : Node)
    (script : list selectEvent) :
  forall (errListener : chanId) (timerFired : bool) (st st' : State)
         (r : option Error),
    holds (shared st) = NotHeld ->
    waitLoop lState file errListener timerFired script st = Ret r st' ->
    holds (shared st') = NotHeld /\
    match r with
    | None => permissionGranted ∈ script
    | Some e =>
        (exists p, e = InvalidPathError p) \/ ctxDone e ∈ script \/
        (errListened ∈ script /\ isContextError e = false)
    end.
Proof.
  induction script as [|ev rest IH]; intros c tf st st' r Hh Hrun;
    [discriminate|].
  cbn [waitLoop] in Hrun.
  apply bind_Ret in Hrun as (? & s0 & Hy & Hrun).
  apply yield_Ret in Hy. rewrite Hh in Hy.
  destruct ev as [| |ctxErr|].
  - apply bind_Ret in Hrun as (q & s1 & Hq & Hrun).
    unfold queued, gets in Hq. injection Hq as Hq Hs1. subst s1.
    apply bind_Ret in Hrun as (? & s2 & Hpop & Hrun).
    assert (Hh2 : holds (shared s2) = NotHeld).
    { destruct q; [by kret Hpop|].
      unfold setQueued, modify in Hpop. by inversion Hpop. }
    kret Hrun. split; [done|by left].
  - destruct tf; [discriminate|].
    destruct (IH _ _ _ _ _ Hy Hrun) as (Hh' & Hr). split; [done|].
    destruct r as [e|]; [|by right].
    destruct Hr as [Hr|[Hr|[Hr1 Hr2]]]; [by left|right; left; by right|].
    right; right. split; [by right|done].
  - kret Hrun. split; [done|]. right; left. by left.
  - apply bind_Ret in Hrun as (q & s1 & Hq & Hrun).
    unfold queued, gets in Hq. injection Hq as Hq Hs1. subst s1.
    destruct q as [|err q']; [discriminate|].
    apply bind_Ret in Hrun as (? & s2 & Hpop & Hrun).
    unfold setQueued, modify in Hpop. inversion Hpop; subst s2; clear Hpop.
    destruct (isContextError err) eqn:Ectx.
    + apply bind_Ret in Hrun as (rr & s3 & Hreg & Hrun).
      apply registerErr_Ret in Hreg as (Hh3 & Hrr).
      destruct rr as [c'|e].
      * destruct (IH _ _ _ _ _ Hh3 Hrun) as (Hh' & Hr). split; [done|].
        destruct r as [e|]; [|by right].
        destruct Hr as [Hr|[Hr|[Hr1 Hr2]]]; [by left|right; left; by right|].
        right; right. split; [by right|done].
      * kret Hrun. split; [done|]. by left.
    + kret Hrun. split; [done|]. right; right. split; [by left|done].
Qed.

(** X22: how [maybeWaitOnDeferredWrites] ends.  It returns with the block
    lock released.  It returns nil only after the permission channel has
    fired.  An error it returns is an invalid-path error of the node, the
    context's own error after [ctx.Done()], or an error received on its
    error listener that is not a context error: context errors received
    from a sync are never handed to the writer. *)
Theorem maybeWaitOnDeferredWrites_returns (lState : lockStateRef)
    (file : Node) (script : list selectEvent) (st st' : State)
    (r : option Error) :
  maybeWaitOnDeferredWrites lState file script st = Ret r st' ->
  holds (shared st') = NotHeld /\
  match r with
  | None => permissionGranted ∈ script
  | Some e =>
      (exists p, e = InvalidPathError p) \/ ctxDone e ∈ script \/
      (errListened ∈ script /\ isContextError e = false)
  end.
Proof.
  unfold maybeWaitOnDeferredWrites. intros Hrun.
  apply bind_Ret in Hrun as (rr & s1 & Hreg & Hrun).
  apply registerErr_Ret in Hreg as (Hh & Hrr).
  destruct rr as [c|e].
  - by apply (waitLoop_returns lState file script c false s1).
  - kret Hrun. split; [done|]. by left.
Qed.

Lemma getOrCreateDirtyFileLocked_Ret (lState : lockStateRef) (file : path)
    (s s1 : State) (ptr : BlockPointer) :
  getOrCreateDirtyFileLocked lState file s = Ret ptr s1 ->
  tailPointer file = Some ptr /\
  holds (shared s1) = HeldW /\
  chans s1 = chans s /\
  (forall q, q <> ptr ->
     dirtyFiles (shared s1) !! q = dirtyFiles (shared s) !! q) /\
  exists df, dirtyFiles (shared s1) !! ptr = Some df /\
    errListeners df =
      match dirtyFiles (shared s) !! ptr with
      | Some df0 => errListeners df0
      | None => []
      end.
Proof.
  unfold getOrCreateDirtyFileLocked. intros Hrun.
  apply bind_Ret in Hrun as (? & s0 & Ha & Hrun).
  apply AssertLocked_Ret in Ha as (-> & _ & Hh).
  apply bind_Ret in Hrun as (p & s2 & Hp & Hrun).
  apply tailPointer'_Ret in Hp as (Hp & ->).
  apply bind_Ret in Hrun as (df & s3 & Hdf & Hrun).
  unfold gets in Hdf. injection Hdf as Hdf ->.
  destruct df as [df|].
  - kret Hrun. rewrite Hdf. repeat split; try done. by exists df.
  - apply bind_Ret in Hrun as (d & s4 & Hd & Hrun).
    unfold getsW, gets in Hd. injection Hd as Hd ->.
    apply bind_Ret in Hrun as (? & s5 & Hm & Hrun).
    unfold modShared, modify in Hm. injection Hm as <-. kret Hrun.
    cbn. rewrite Hdf. repeat split; try done.
    + intros q Hq. by rewrite lookup_insert_ne.
    + eexists. by rewrite lookup_insert_eq.
Qed.

Lemma newChan_Ret (s s1 : State) (c : chanId) :
  newChan s = Ret c s1 ->
  s1 = set_chans (<[c := []]> (chans s)) s /\
  chans s !! c = None /\
  (forall q df, dirtyFiles (shared s) !! q = Some df -> c ∉ errListeners df).
Proof.
  unfold newChan. intros Hrun.
  apply bind_Ret in Hrun as (c' & s0 & Hc & Hrun).
  unfold gets in Hc. injection Hc as Hc <-.
  apply bind_Ret in Hrun as (? & s2 & Hm & Hrun).
  unfold modify in Hm. injection Hm as <-.
  unfold mret, M_ret in Hrun. injection Hrun as -> <-.
  split; [done|].
  pose proof (is_fresh
    (dom (chans s) ∪
     list_to_set (concat (errListeners <$>
                            (map_to_list (dirtyFiles (shared s))).*2))
     : gset chanId)) as Hfresh.
  rewrite Hc in Hfresh. clear Hc.
  rewrite not_elem_of_union in Hfresh. destruct Hfresh as (Hf1 & Hf2).
  split; [by apply not_elem_of_dom|].
  intros q df Hq Hin. apply Hf2.
  apply elem_of_list_to_set, list_elem_of_In, in_concat.
  exists (errListeners df). split; [|by apply list_elem_of_In].
  apply list_elem_of_In, list_elem_of_fmap. exists df. split; [done|].
  apply list_elem_of_fmap. exists (q, df). split; [done|].
  by apply elem_of_map_to_list.
Qed.

(** X23: a successful [registerErr] subscribes a new listener to the dirty
    file of the node's path.  The channel it makes is empty and was no
    listener of any dirty file before; it is appended to the listeners of
    the dirty file under the path's tail pointer, which is created if the
    file was not dirty yet; no other dirty file and no other channel
    changes; and the block lock is released. *)
Theorem registerErr_subscribes (lState : lockStateRef) (file : Node)
    (st st1 : State) (c : chanId) :
  registerErr lState file st = Ret (Ok c) st1 ->
  holds (shared st1) = NotHeld /\
  chans st1 !! c = Some [] /\
  (forall c', c' <> c -> chans st1 !! c' = chans st !! c') /\
  (forall q df, dirtyFiles (shared st) !! q = Some df -> c ∉ errListeners df) /\
  exists nc tp df,
    nodeCache st = Some nc /\
    tailPointer (ncPathFromNode nc (Some file)) = Some tp /\
    dirtyFiles (shared st1) !! tp = Some df /\
    errListeners df =
      match dirtyFiles (shared st) !! tp with
      | Some df0 => errListeners df0
      | None => []
      end ++ [c] /\
    (forall q, q <> tp ->
       dirtyFiles (shared st1) !! q = dirtyFiles (shared st) !! q).
Proof.
  unfold registerErr. intros Hrun.
  apply bind_Ret in Hrun as (? & s0 & Hl & Hrun).
  apply Lock_Ret in Hl as (-> & Hh0 & ->).
  apply bind_Ret in Hrun as (p & s1 & Hp & Hrun).
  apply pathFromNodeForBlockWriteLocked_Ret in Hp as (-> & Hh & nc & Hnc & ->).
  destruct (pathIsValid (ncPathFromNode nc (Some file)));
    [|apply bind_Ret in Hrun as (? & ? & _ & Hrun); by kret Hrun].
  apply bind_Ret in Hrun as (tp & s2 & Hdf & Hrun).
  apply getOrCreateDirtyFileLocked_Ret in Hdf
    as (Htp & Hh2 & Hch2 & Hoth2 & df2 & Hdf2 & Hl2).
  apply bind_Ret in Hrun as (c' & s3 & Hc & Hrun).
  apply newChan_Ret in Hc as (-> & Hfresh & Hnew).
  apply bind_Ret in Hrun as (? & s4 & Hadd & Hrun).
  unfold addErrListener, withDirtyFile in Hadd.
  apply bind_Ret in Hadd as (o & s5 & Ho & Hadd).
  unfold gets in Ho. injection Ho as Ho <-. cbn in Ho.
  rewrite Hdf2 in Ho. subst o. cbn in Hadd.
  apply bind_Ret in Hadd as (w & s6 & Hw & Hadd).
  unfold getsW, gets in Hw. injection Hw as Hw <-.
  apply bind_Ret in Hadd as (? & s7 & Hm & Hadd).
  unfold modShared, modify in Hm. injection Hm as <-.
  unfold mret, M_ret in Hadd. injection Hadd as <-.
  apply bind_Ret in Hrun as (? & s8 & Hu & Hrun).
  apply Unlock_Ret in Hu. subst s8.
  unfold mret, M_ret in Hrun. injection Hrun as -> <-.
  subst w s7 s4. cbn. cbn in Hl2.
  split; [done|].
  split; [by rewrite lookup_insert_eq|].
  split; [intros c'' Hc''; by rewrite lookup_insert_ne, Hch2|].
  split.
  { intros q df Hq Hin.
    destruct (decide (q = tp)) as [->|Hne].
    - apply (Hnew tp df2); [done|]. rewrite Hl2. cbn in Hq. by rewrite Hq.
    - apply (Hnew q df); [|done]. cbn. by rewrite Hoth2. }
  exists nc, tp, (mkDirtyFile (errListeners df2 ++ [c]) (dfState df2)).
  split; [done|]. split; [done|].
  split; [by rewrite lookup_insert_eq|].
  split; [cbn; by rewrite Hl2|].
  intros q Hq. rewrite lookup_insert_ne by done. by apply Hoth2.
Qed.

(** ** [SetAttrInDirEntryInCache] *)

Lemma setCachedAttrLocked_undo (lState : lockStateRef) (kmd : KMD)
    (dir : path) (name : string) (attr : attrChange) (realEntry : DirEntry)
    (st st1 : State) (undo : option dirCacheUndoFn) (err : option Error) :
  setCachedAttrLocked lState kmd dir name attr realEntry st
    = Ret (undo, err) st1 ->
  (err <> None -> undo = None) /\
  (err = None -> undo <> None) /\
  restores undo st st1.
Proof.
  intros Hrun. unfold setCachedAttrLocked in Hrun.
  kstep Hrun as ? s0 Ha.
  kstep Hrun as [chargedTo|e] s1 Hc;
    [|kret Hrun; repeat split; try done; cbn; congruence].
  destruct (pathIsValid dir); cbn [negb] in Hrun;
    [|kret Hrun; repeat split; try done; cbn; congruence].
  kstep Hrun as ? s2 Hd.
  kstep Hrun as [[oldDe [unlinkedNode|]]|e] s3 Hl.
  - kstep Hrun as ? s4 Hup.
    assert (Hb : dirBook s4 = dirBook st) by congruence.
    kret Hrun. split; [done|]. split; [done|].
    apply restores_wrap. rewrite Hb.
    apply undoes_refl_keeps. keeps_auto.
  - kstep Hrun as [unrefs|e] s4 Hu;
      [|kret Hrun; repeat split; try done; cbn; congruence].
    kstep Hrun as ptr s5 Hptr. kstep Hrun as undoDirtyFn s6 Hmk.
    apply makeDirDirtyLocked_book in Hmk as (_ & _ & _ & Hund).
    kret Hrun. split; [done|]. split; [done|].
    apply restores_wrap.
    apply undoes_keeps; [keeps_auto|intros ?].
    replace (dirBook st) with (dirBook s5) by congruence. exact Hund.
  - kret Hrun. repeat split; try done. cbn. congruence.
Qed.

(** X24: [SetAttrInDirEntryInCache] returns with the block lock released.
    On an error (the root directory's own entry cannot be changed, the
    entry is not found, the update fails) it returns a nil undo function
    and the engine's record of dirty directories is what it was.  On
    success, whether the entry was changed in its directory or in the
    unlinked node that holds it, it returns a non-nil undo function which
    takes that record back to what it was. *)
Theorem SetAttrInDirEntryInCache_undo (lState : lockStateRef) (kmd : KMD)
    (p : path) (newDe : DirEntry) (attr : attrChange) (st st1 : State)
    (undo : option dirCacheUndoFn) (err : option Error) :
  SetAttrInDirEntryInCache lState kmd p newDe attr st = Ret (undo, err) st1 ->
  holds (shared st1) = NotHeld /\
  (err <> None -> undo = None) /\
  (err = None -> undo <> None) /\
  restores undo st st1.
Proof.
  intros Hrun. unfold SetAttrInDirEntryInCache in Hrun.
  kstep Hrun as ? s0 Hl. kstep Hrun as name s1 Hn.
  apply bind_Ret in Hrun as ([undo' err'] & s2 & Hset & Hrun).
  apply setCachedAttrLocked_undo in Hset as (He1 & He2 & Hres).
  apply bind_Ret in Hrun as (? & s3 & Hu & Hrun).
  unfold mret, M_ret in Hrun. injection Hrun as -> -> <-.
  pose proof (Unlock_Ret _ _ _ _ Hu) as Hs3.
  assert (K : keeps dirBook (Unlock lState)) by keeps_auto.
  apply K in Hu.
  split; [by rewrite Hs3|]. split; [done|]. split; [done|].
  destruct undo as [f|]; cbn in *.
  - intros lState' s s' u Hs Hf. rewrite (Hres lState' s s' u); [congruence| |done].
    congruence.
  - congruence.
Qed.

(** ** The root directory's dirty entry *)

Lemma updateParentDirEntryLocked_root (lState : lockStateRef) (dir : path)
    (kmd : KMD) (setMtime setCtime : bool) (st st1 : State)
    (undo : M unit) :
  pathIsValid (pathParentPath dir) = false ->
  updateParentDirEntryLocked lState dir kmd setMtime setCtime st
    = Ret (Ok undo) st1 ->
  dirtyRootDirEntry st1 =
    Some (setTimes setMtime setCtime (nowUnixNano (ext (shared st)))
            (default (kmdGetRootDirEntry kmd) (dirtyRootDirEntry st))).
Proof.
  intros Hpp Hrun. unfold updateParentDirEntryLocked in Hrun.
  apply bind_Ret in Hrun as (? & s0 & Ha & Hrun).
  apply AssertLocked_Ret in Ha as (-> & _ & _).
  apply bind_Ret in Hrun as ([chargedTo|e] & s1 & Hc & Hrun); [|by kret Hrun].
  assert (Kr : keeps dirtyRootDirEntry (getChargedToLocked lState kmd))
    by keeps_auto.
  assert (Ks : keeps (fun s : State => ext (shared s))
                 (getChargedToLocked lState kmd)) by keeps_auto.
  apply Kr in Hc as Hr1. apply Ks in Hc as Hs1. clear Kr Ks Hc.
  apply bind_Ret in Hrun as (now & s2 & Hn & Hrun).
  unfold getsW, gets in Hn. injection Hn as <- <-.
  rewrite Hpp in Hrun.
  apply bind_Ret in Hrun as (old & s3 & Ho & Hrun).
  unfold gets in Ho. injection Ho as <- <-.
  apply bind_Ret in Hrun as (? & s4 & Hm & Hrun).
  unfold modify in Hm. injection Hm as Hm.
  unfold mret, M_ret in Hrun. injection Hrun as _ <-.
  subst s4. cbn. rewrite Hs1, Hr1. by destruct (dirtyRootDirEntry st).
Qed.

Lemma GetEntry_root (kmd : KMD) (file : path) (st : State) :
  holds (shared st) = NotHeld ->
  pathHasValidParent file = false ->
  GetEntry lsTok kmd file st
    = Ret (Ok (default (kmdGetRootDirEntry kmd) (dirtyRootDirEntry st))) st.
Proof.
  intros Hh Hp. destruct st as [[h df dw bl w] ? ? ? ? dd root ? ? ? ?].
  cbn in Hh. subst h.
  unfold GetEntry, getEntryLocked. rewrite Hp. munfold. cbn.
  by destruct root.
Qed.

(** X25: the root directory's entry after a cached operation on the root
    directory.  After a successful [AddDirEntryInCache] or
    [RemoveDirEntryInCache] on a directory whose parent path is not valid,
    [GetEntry] of a path without a valid parent returns the root entry as
    it was (the dirty root entry, or the metadata's root entry if there
    was none) with its mtime and ctime set to the clock's time, and leaves
    the engine as it is. *)
Theorem root_entry_after_cache_op (lState : lockStateRef) (kmd : KMD)
    (dir : path) (name : string) (de : DirEntry) (st st1 : State)
    (undo : option dirCacheUndoFn) :
  AddDirEntryInCache lState kmd dir name de st = Ret (undo, None) st1 \/
  RemoveDirEntryInCache lState kmd dir name de st = Ret (undo, None) st1 ->
  pathIsValid (pathParentPath dir) = false ->
  pathHasValidParent dir = false ->
  exists now,
    GetEntry lState kmd dir st1
      = Ret (Ok (setTimes true true now
                   (default (kmdGetRootDirEntry kmd) (dirtyRootDirEntry st))))
          st1.
Proof.
  intros Hrun Hpp Hvp.
  assert (Hl : lState = lsTok /\ holds (shared st1) = NotHeld /\
               exists now, dirtyRootDirEntry st1 =
                 Some (setTimes true true now
                         (default (kmdGetRootDirEntry kmd)
                            (dirtyRootDirEntry st)))).
  { destruct Hrun as [Hrun|Hrun];
      [unfold AddDirEntryInCache in Hrun
      |unfold RemoveDirEntryInCache in Hrun];
      apply bind_Ret in Hrun as (? & s0 & Hlock & Hrun);
      apply Lock_Ret in Hlock as (-> & _ & ->);
      apply bind_Ret in Hrun as ([fn|e] & s1 & Hop & Hrun);
      [|apply bind_Ret in Hrun as (? & s2 & Hu & Hrun); kret Hrun
       | |apply bind_Ret in Hrun as (? & s2 & Hu & Hrun); kret Hrun].
    all: apply bind_Ret in Hrun as (? & s2 & Hu & Hrun); kret Hrun.
    all: pose proof (Unlock_Ret _ _ _ _ Hu) as Hs2.
    all: split; [done|]; split; [by rewrite Hs2|].
    all: rewrite Hs2; cbn [dirtyRootDirEntry set_shared]; clear Hu Hs2.
    - unfold addDirEntryInCacheLocked in Hop.
      fstep (@dirtyRootDirEntry W DF NC SO MD) Hop as ? s3 Ha.
      fstep (@dirtyRootDirEntry W DF NC SO MD) Hop as [chargedTo|e] s4 Hc; [|kret Hop].
      fstep (@dirtyRootDirEntry W DF NC SO MD) Hop as ? s5 Hd.
      fstep (@dirtyRootDirEntry W DF NC SO MD) Hop as [unrefs|e] s6 Hadd; [|kret Hop].
      apply bind_Ret in Hop as ([parentUndo|e] & s7 & Hp & Hop).
      + apply (updateParentDirEntryLocked_root _ _ _ _ _ _ _ _ Hpp) in Hp.
        fstep (@dirtyRootDirEntry W DF NC SO MD) Hop as ptr s8 Hptr.
        apply bind_Ret in Hop as (undoDirtyFn & s9 & Hmk & Hop).
        apply makeDirDirtyLocked_book in Hmk as (_ & Hroot & _).
        kret Hop. exists (nowUnixNano (ext (shared s6))).
        cbn in Ha. congruence.
      + fstep (@dirtyRootDirEntry W DF NC SO MD) Hop as ? s8 Hrm. kret Hop.
    - unfold removeDirEntryInCacheLocked in Hop.
      fstep (@dirtyRootDirEntry W DF NC SO MD) Hop as ? s3 Ha.
      fstep (@dirtyRootDirEntry W DF NC SO MD) Hop as [chargedTo|e] s4 Hc; [|kret Hop].
      fstep (@dirtyRootDirEntry W DF NC SO MD) Hop as ? s5 Hd.
      fstep (@dirtyRootDirEntry W DF NC SO MD) Hop as [unrefs0|e] s6 Hrm; [|kret Hop].
      fstep (@dirtyRootDirEntry W DF NC SO MD) Hop as child s7 Hch.
      fstep (@dirtyRootDirEntry W DF NC SO MD) Hop as unlinkUndoFn s8 Hul.
      apply bind_Ret in Hop as ([parentUndo|e] & s9 & Hp & Hop).
      + apply (updateParentDirEntryLocked_root _ _ _ _ _ _ _ _ Hpp) in Hp.
        fstep (@dirtyRootDirEntry W DF NC SO MD) Hop as ptr s10 Hptr.
        apply bind_Ret in Hop as (undoDirtyFn & s11 & Hmk & Hop).
        apply makeDirDirtyLocked_book in Hmk as (_ & Hroot & _).
        kret Hop. exists (nowUnixNano (ext (shared s8))).
        cbn in Ha. congruence.
      + fstep (@dirtyRootDirEntry W DF NC SO MD) Hop as ? s10 Hun.
        fstep (@dirtyRootDirEntry W DF NC SO MD) Hop as ? s11 Hadd. kret Hop. }
  destruct Hl as (-> & Hh & now & Hroot).
  exists now. rewrite (GetEntry_root kmd dir st1 Hh Hvp), Hroot. done.
Qed.

(** ** C7: unrefs are recorded before the adapter's error is checked *)

(** From the call of [fd.write] on: the unrefs are appended, and nothing
    that follows takes them away. *)
Lemma writeAndRecord_unrefs (lState : lockStateRef) (kmd : KMD) (file : path)
    (data : list Byte.byte) (off : Z) (chargedTo : string) (fblock : addr)
    (df : BlockPointer) (de : DirEntry) (si : siAddr) (st st' : State)
    (r : writeResult) :
  writeAndRecord lState kmd file data off chargedTo fblock df de si st
    = Ret r st' ->
  exists w sh s0,
    fdWrite lState file chargedTo kmd data off fblock de (shared st)
      = Ret w sh /\
    syncInfos st !! si = Some s0 /\
    unrefs <$> syncInfos st' !! si = Some (unrefs s0 ++ wUnrefs w) /\
    unrefCache st' = unrefCache st /\
    (forall e, wErr w = Some e -> r.2 = Some e).
Proof.
  intros H0. unfold writeAndRecord in H0.
  apply bind_Ret in H0 as (w & s1 & Hw & H0).
  apply liftS_Ret in Hw as (sh & Hw & ->).
  apply bind_Ret in H0 as (? & s2 & Hu & H0).
  assert (Kc : keeps unrefCache (appendUnrefs si (wUnrefs w))) by keeps_auto.
  apply Kc in Hu as Hc. cbn in Hc.
  apply appendUnrefs_Ret in Hu as (s0 & Hs0 & Hu).
  exists w, sh, s0. split; [done|]. split; [done|].
  match type of H0 with
  | ?m _ = _ =>
      assert (K : keeps (fun s : State => unrefs <$> syncInfos s !! si) m)
        by keeps_auto;
      assert (K' : keeps unrefCache m) by keeps_auto
  end.
  split; [by rewrite (K _ _ _ H0)|].
  split; [by rewrite (K' _ _ _ H0)|].
  intros e He. rewrite He in H0. unfold mret, M_ret in H0.
  by injection H0 as <- _.
Qed.

(** The same from the call of [fd.truncateShrink] on. *)
Lemma shrinkAndRecord_unrefs (lState : lockStateRef) (kmd : KMD) (file : path)
    (size : Z) (chargedTo : string) (fblock : addr) (de : DirEntry)
    (si : siAddr) (st st' : State) (r : truncateResult) :
  shrinkAndRecord lState kmd file size chargedTo fblock de si st
    = Ret r st' ->
  exists t sh s0,
    fdTruncateShrink lState file chargedTo kmd size fblock de (shared st)
      = Ret t sh /\
    syncInfos st !! si = Some s0 /\
    unrefs <$> syncInfos st' !! si = Some (unrefs s0 ++ tUnrefs t) /\
    unrefCache st' = unrefCache st /\
    (forall e, tErr t = Some e -> r.2 = Some e).
Proof.
  intros H0. unfold shrinkAndRecord in H0.
  apply bind_Ret in H0 as (t & s1 & Ht & H0).
  apply liftS_Ret in Ht as (sh & Ht & ->).
  apply bind_Ret in H0 as (? & s2 & Hu & H0).
  assert (Kc : keeps unrefCache (appendUnrefs si (tUnrefs t))) by keeps_auto.
  apply Kc in Hu as Hc. cbn in Hc.
  apply appendUnrefs_Ret in Hu as (s0 & Hs0 & Hu).
  exists t, sh, s0. split; [done|]. split; [done|].
  match type of H0 with
  | ?m _ = _ =>
      assert (K : keeps (fun s : State => unrefs <$> syncInfos s !! si) m)
        by keeps_auto;
      assert (K' : keeps unrefCache m) by keeps_auto
  end.
  split; [by rewrite (K _ _ _ H0)|].
  split; [by rewrite (K' _ _ _ H0)|].
  intros e He. rewrite He in H0. unfold mret, M_ret in H0.
  by injection H0 as <- _.
Qed.

(** The sync info [getOrCreateSyncInfoLocked] returns is the one cached
    under the entry's reference. *)
Lemma getOrCreateSyncInfoLocked_cached (lState : lockStateRef)
    (de : DirEntry) (s s' : State) (si : siAddr) :
  getOrCreateSyncInfoLocked lState de s = Ret (Ok si) s' ->
  unrefCache s' !! deRef de = Some si.
Proof.
  unfold getOrCreateSyncInfoLocked. intros H0.
  apply bind_Ret in H0 as (? & s0 & Ha & H0).
  apply AssertLocked_Ret in Ha as (-> & _ & _).
  apply bind_Ret in H0 as (o & s1 & Ho & H0).
  unfold gets in Ho. injection Ho as <- <-.
  destruct (unrefCache s !! deRef de) as [a|] eqn:Ea.
  - unfold mret, M_ret in H0. by injection H0 as <- <-.
  - destruct (newSyncOp (dePointer de)) as [so|e]; [|discriminate].
    apply bind_Ret in H0 as (a & s1 & Hal & H0).
    unfold allocSyncInfo in Hal. injection Hal as <- <-.
    apply bind_Ret in H0 as (? & s2 & Hm & H0).
    unfold modify in Hm. injection Hm as Hm.
    unfold mret, M_ret in H0. injection H0 as <- <-. subst s2.
    cbn [unrefCache set_unrefCache set_syncInfos]. apply lookup_insert_eq.
Qed.

(** C7: a run of [writeDataLocked], and of [truncateLocked], that returns.
    The run is followed step by step up to the call of the file data
    adapter ([fd.write]; [fd.truncateShrink], on the shrinking branch): a
    step that fails before that call gives the function's early error
    result.  Once the adapter has been called, the unrefs it returned are
    appended to the unrefs of the file's sync info (the one the unref cache
    holds under the entry's reference) and they are there when the function
    returns, whether or not the adapter returned an error; an adapter error
    is the function's error. *)
Theorem adapter_unrefs_recorded (lState : lockStateRef) (kmd : KMD)
    (file : path) (st st' : State) :
  (forall data off r,
     writeDataLocked lState kmd file data off st = Ret r st' ->
     exists j s0 g s1,
       journalStart st = Ret j s0 /\
       writeGetFileLocked lState kmd file s0 = Ret g s1 /\
       match g with
       | Err e => r = (zeroWriteRange, [], 0, Some e)
       | Ok fblock =>
         exists c s2,
           getChargedToLocked lState kmd s1 = Ret c s2 /\
           match c with
           | Err e => r = (zeroWriteRange, [], 0, Some e)
           | Ok chargedTo =>
             exists s3 df s4 d s5,
               newFileData lState s2 = Ret tt s3 /\
               getOrCreateDirtyFileLocked lState file s3 = Ret df s4 /\
               getEntryLocked lState kmd file true s4 = Ret d s5 /\
               match d with
               | Err e => r = (zeroWriteRange, [], 0, Some e)
               | Ok de =>
                 exists i s6,
                   getOrCreateSyncInfoLocked lState de s5 = Ret i s6 /\
                   match i with
                   | Err e => r = (zeroWriteRange, [], 0, Some e)
                   | Ok si =>
                     exists w sh old,
                       fdWrite lState file chargedTo kmd data off fblock de
                         (shared s6) = Ret w sh /\
                       unrefCache st' !! deRef de = Some si /\
                       syncInfos s6 !! si = Some old /\
                       unrefs <$> syncInfos st' !! si
                         = Some (unrefs old ++ wUnrefs w) /\
                       (forall e, wErr w = Some e -> r.2 = Some e)
                   end
               end
           end
       end) /\
  (forall size r,
     truncateLocked lState kmd file size st = Ret r st' ->
     exists j s0 g s1,
       journalStart st = Ret j s0 /\
       writeGetFileLocked lState kmd file s0 = Ret g s1 /\
       match g with
       | Err e => r = (Some zeroWriteRange, [], 0, Some e)
       | Ok fblock =>
         exists c s2,
           getChargedToLocked lState kmd s1 = Ret c s2 /\
           match c with
           | Err e => r = (Some zeroWriteRange, [], 0, Some e)
           | Ok chargedTo =>
             exists s3 o sh4,
               newFileData lState s2 = Ret tt s3 /\
               fdGetFileBlockAtOffset lState file chargedTo kmd fblock
                 (int64 size) blockWrite (shared s3) = Ret o sh4 /\
               match o with
               | Err e => r = (Some zeroWriteRange, [], 0, Some e)
               | Ok at_ =>
                 exists n,
                   lenContents (oBlock at_) (set_shared sh4 s3)
                     = Ret n (set_shared sh4 s3) /\
                   (truncateChoice (int64 size) (oStartOff at_) n
                      (oNextBlockOff at_) = Shrink ->
                    exists d s5,
                      getEntryLocked lState kmd file true (set_shared sh4 s3)
                        = Ret d s5 /\
                      match d with
                      | Err e => r = (None, [], 0, Some e)
                      | Ok de =>
                        exists i s6,
                          getOrCreateSyncInfoLocked lState de s5 = Ret i s6 /\
                          match i with
                          | Err e => r = (None, [], 0, Some e)
                          | Ok si =>
                            exists t sh old,
                              fdTruncateShrink lState file chargedTo kmd size
                                fblock de (shared s6) = Ret t sh /\
                              unrefCache st' !! deRef de = Some si /\
                              syncInfos s6 !! si = Some old /\
                              unrefs <$> syncInfos st' !! si
                                = Some (unrefs old ++ tUnrefs t) /\
                              (forall e, tErr t = Some e -> r.2 = Some e)
                          end
                      end)
               end
           end
       end).
Proof.
  split.
  - intros data off r H0. unfold writeDataLocked in H0.
    apply bind_Ret in H0 as (j & s0 & Hj & H0).
    apply bind_Ret in H0 as (r' & s9 & H0 & Hend).
    apply bind_Ret in Hend as (? & s10 & Hje & Hend).
    unfold mret, M_ret in Hend. injection Hend as <- <-.
    assert (Ke1 : keeps unrefCache (journalEnd j)) by keeps_auto.
    assert (Ke2 : keeps (fun s : State => syncInfos s) (journalEnd j))
      by keeps_auto.
    apply Ke1 in Hje as Hc. apply Ke2 in Hje as Hs. cbn in Hc, Hs.
    rewrite Hc, Hs. clear Ke1 Ke2 Hc Hs Hje s10.
    apply bind_Ret in H0 as (? & sa & Ha & H0).
    apply AssertLocked_Ret in Ha as (-> & _ & _).
    apply bind_Ret in H0 as (? & sa & Ht & H0).
    apply tailPointer'_Ret in Ht as (_ & ->).
    apply bind_Ret in H0 as (g & s1 & Hg & H0).
    exists j, s0, g, s1. split; [done|]. split; [done|].
    destruct g as [fblock|e];
      [|unfold mret, M_ret in H0; by injection H0 as <- _].
    apply bind_Ret in H0 as (c & s2 & Hch & H0).
    exists c, s2. split; [done|].
    destruct c as [chargedTo|e];
      [|unfold mret, M_ret in H0; by injection H0 as <- _].
    apply bind_Ret in H0 as ([] & s3 & Hn & H0).
    apply bind_Ret in H0 as (df & s4 & Hdf & H0).
    apply bind_Ret in H0 as (r0 & s7 & Hb & H0).
    apply bind_Ret in H0 as (? & s8 & Hup & H0).
    apply bind_Ret in H0 as (? & s8' & Hfs & H0).
    unfold mret, M_ret in H0. injection H0 as <- <-.
    match type of Hup with
    | ?m _ = _ =>
        assert (Ku1 : keeps unrefCache m) by keeps_auto;
        assert (Ku2 : keeps (fun s : State => syncInfos s) m) by keeps_auto
    end.
    assert (Kf1 : keeps unrefCache maybeForceSync) by keeps_auto.
    assert (Kf2 : keeps (fun s : State => syncInfos s) maybeForceSync)
      by keeps_auto.
    apply Kf1 in Hfs as Hc. apply Kf2 in Hfs as Hs.
    apply Ku1 in Hup as Hc'. apply Ku2 in Hup as Hs'. cbn in Hc, Hs, Hc', Hs'.
    rewrite Hc, Hs, Hc', Hs'. clear Ku1 Ku2 Kf1 Kf2 Hc Hs Hc' Hs' Hfs Hup.
    unfold writeDataBody in Hb.
    apply bind_Ret in Hb as (d & s5 & Hd & Hb).
    exists s3, df, s4, d, s5. split; [done|]. split; [done|]. split; [done|].
    destruct d as [de|e];
      [|unfold mret, M_ret in Hb; by injection Hb as <- _].
    apply bind_Ret in Hb as (? & sb & Ht & Hb).
    apply tailPointer'_Ret in Ht as (_ & ->).
    apply bind_Ret in Hb as (i & s6 & Hi & Hb).
    exists i, s6. split; [done|].
    destruct i as [si|e];
      [|unfold mret, M_ret in Hb; by injection Hb as <- _].
    apply getOrCreateSyncInfoLocked_cached in Hi.
    apply writeAndRecord_unrefs in Hb as (w & sh & old & Hw & Ho & Hu & Hc & He).
    exists w, sh, old. rewrite Hc. done.
  - intros size r H0. unfold truncateLocked in H0.
    apply bind_Ret in H0 as (j & s0 & Hj & H0).
    apply bind_Ret in H0 as (r' & s9 & H0 & Hend).
    apply bind_Ret in Hend as (? & s10 & Hje & Hend).
    unfold mret, M_ret in Hend. injection Hend as <- <-.
    assert (Ke1 : keeps unrefCache (journalEnd j)) by keeps_auto.
    assert (Ke2 : keeps (fun s : State => syncInfos s) (journalEnd j))
      by keeps_auto.
    apply Ke1 in Hje as Hc. apply Ke2 in Hje as Hs. cbn in Hc, Hs.
    rewrite Hc, Hs. clear Ke1 Ke2 Hc Hs Hje s10.
    apply bind_Ret in H0 as (g & s1 & Hg & H0).
    exists j, s0, g, s1. split; [done|]. split; [done|].
    destruct g as [fblock|e];
      [|unfold mret, M_ret in H0; by injection H0 as <- _].
    apply bind_Ret in H0 as (c & s2 & Hch & H0).
    exists c, s2. split; [done|].
    destruct c as [chargedTo|e];
      [|unfold mret, M_ret in H0; by injection H0 as <- _].
    apply bind_Ret in H0 as ([] & s3 & Hn & H0).
    cbv zeta in H0.
    apply bind_Ret in H0 as (o & s4 & Ho & H0).
    apply liftS_Ret in Ho as (sh4 & Ho & ->).
    exists s3, o, sh4. split; [done|]. split; [done|].
    destruct o as [at_|e];
      [|unfold mret, M_ret in H0; by injection H0 as <- _].
    apply bind_Ret in H0 as (n & s5 & Hlen & H0).
    assert (s5 = set_shared sh4 s3) as ->.
    { unfold lenContents in Hlen.
      apply bind_Ret in Hlen as (b & sx & Hb & Hlen).
      unfold gets in Hb. injection Hb as Hb1 Hb2. subst sx.
      destruct b as [blk|]; [destruct blk|]; try discriminate.
      unfold mret, M_ret in Hlen. by injection Hlen as _ <-. }
    exists n. split; [done|]. intros Hch'. rewrite Hch' in H0.
    unfold truncateShrinkPath in H0.
    apply bind_Ret in H0 as (d & s5 & Hd & H0).
    exists d, s5. split; [done|].
    destruct d as [de|e];
      [|unfold mret, M_ret in H0; by injection H0 as <- _].
    apply bind_Ret in H0 as (i & s6 & Hi & H0).
    exists i, s6. split; [done|].
    destruct i as [si|e];
      [|unfold mret, M_ret in H0; by injection H0 as <- _].
    apply getOrCreateSyncInfoLocked_cached in Hi.
    apply shrinkAndRecord_unrefs in H0 as (t & sh & old & Ht & Hol & Hu & Hc & He).
    exists t, sh, old. rewrite Hc. done.
Qed.

End Facts.

(** * The theorems on the scripted environment *)

Import Scripted.

(** The engine at rest: lock free, nothing dirty. *)
Lemma GetState_clean_iff_witness :
  exists r,
    GetState lsTok (mkEngine NotHeld ∅ world0)
      = Ret r (mkEngine NotHeld ∅ world0) /\
    r = cleanState.
Proof.
  destruct (GetState_clean_iff lsTok (mkEngine NotHeld ∅ world0))
    as [Hret Hspec].
  destruct (Hret eq_refl eq_refl) as [r Hr].
  exists r. split; [exact Hr|].
  destruct (Hspec r _ Hr) as (Hiff & _ & _).
  apply Hiff. vm_compute. repeat split.
Defined.

(** A clean block fetched for writing is copied: the copy is block 2, the
    cached block stays block 1. *)
Lemma getFileBlockLocked_write_copy_witness :
  exists fb wasDirty st',
    getFileBlockLocked lsTok tt filePtr aTxt blockWrite
      (mkEngine HeldW ∅ cleanWorld) = Ret (Ok (fb, wasDirty)) st' /\
    fb = 2%positive /\ wasDirty = false /\
    exists cached st1 tp,
      getFileBlockHelperLocked lsTok tt filePtr (Branch aTxt) aTxt blockWrite
        (mkEngine HeldW ∅ cleanWorld) = Ret (Ok cached) st1 /\
      tailPointer aTxt = Some tp /\
      wasDirty = dbcIsDirty (ext (shared st1)) (folderTlf st1) filePtr
                   (Branch aTxt) /\
      (if needsCopyForWrite wasDirty filePtr tp st1
       then isDeepCopyOf cached fb st1 st'
       else fb = cached /\ st' = st1).
Proof.
  eexists _, _, _. split; [vm_compute; reflexivity|].
  split; [reflexivity|]. split; [reflexivity|].
  apply (getFileBlockLocked_write_copy lsTok tt filePtr aTxt
           (mkEngine HeldW ∅ cleanWorld)).
  vm_compute. reflexivity.
Defined.

(** A dirty block that no sync holds is handed out as it is. *)
Example getFileBlockLocked_dirty_not_copied :
  getFileBlockLocked lsTok tt filePtr aTxt blockWrite (mkEngine HeldW ∅ world0)
    = Ret (Ok (1%positive, true)) (mkEngine HeldW ∅ world0).
Proof. vm_compute. reflexivity. Qed.



(** C3 at the failing input: truncating the 1000-byte [/a.txt] to [2^63]
    runs [fd.truncateShrink] (the only source of [otherPtr] here), where the
    specification's branch is the hole-creating extend. *)
Lemma truncateLocked_huge_size_shrinks :
  (exists st',
     truncateLocked lsTok tt aTxt (2 ^ 63)
       (mkEngine HeldW ∅ (setAnswers None noWrite shrinkTo world0))
       = Ret (Some (mkWriteRange (2 ^ 63) 0), [otherPtr], 0, None) st') /\
  truncateChoice (int64 (2 ^ 63)) 0 1000 (-1) = Shrink /\
  truncateChoice_spec (2 ^ 63) 1000 false = ExtendWithHole.
Proof.
  split; [eexists; vm_compute; reflexivity|].
  split; vm_compute; reflexivity.
Qed.

(** Three pointers, the second deleted on the server and in the ignore
    set: the sum is 4096 + 1040. *)
Lemma GetCleanEncodedBlocksSizeSum_sum_witness :
  exists sum,
    GetCleanEncodedBlocksSizeSum_returns lsTok tt [rootPtr; filePtr; otherPtr]
      {[filePtr := true]} "master" (mkEngine NotHeld ∅ sizesWorld) sum None
      (mkEngine NotHeld ∅ sizesWorld) /\
    sum = 5136.
Proof.
  destruct (GetCleanEncodedBlocksSizeSum_can_return tt
              [rootPtr; filePtr; otherPtr] {[filePtr := true]} "master"
              (mkEngine NotHeld ∅ sizesWorld)) as [sum Hsum].
  - reflexivity.
  - repeat apply Forall_cons_2; try apply Forall_nil_2.
    + right. exists 4096. vm_compute. reflexivity.
    + left. vm_compute. reflexivity.
    + right. exists 1040. vm_compute. reflexivity.
  - exists sum. split; [exact Hsum|].
    destruct (GetCleanEncodedBlocksSizeSum_sum _ _ _ _ _ _ _ _ Hsum)
      as (_ & _ & -> & _).
    vm_compute. reflexivity.
Defined.

(** C5 as stated fails: nothing is deferred for [/a.txt], the dirty block
    cache refuses the delete, and [FinishSyncLocked] returns
    [stillDirty = true]. *)
Lemma FinishSyncLocked_stillDirty_counterexample :
  FinishSyncLocked lsTok aTxt aTxt tt noSync
    (mkEngine HeldW ∅ (setAnswers (Some quotaExceeded) noWrite noShrink world0))
    = Ret (true, Some quotaExceeded)
        (mkEngine HeldW ∅ (setAnswers (Some quotaExceeded) noWrite noShrink world0))
  /\ tailRef aTxt = Some (Ref filePtr)
  /\ queuedWrites
       (mkEngine HeldW ∅ (setAnswers (Some quotaExceeded) noWrite noShrink world0))
       (Ref filePtr) = [].
Proof.
  split; [vm_compute; reflexivity|].
  split; vm_compute; reflexivity.
Defined.

(** Two syncs of [/a.txt] that finish without an error.  With one write
    deferred while the sync ran, the write is replayed and [stillDirty] is
    true; with nothing deferred it is false. *)
Lemma FinishSyncLocked_stillDirty_witness :
  (exists st',
     FinishSyncLocked lsTok aTxt aTxt tt syncOfATxt (withDeferredWrite world0)
       = Ret (true, None) st' /\
     queuedWrites (withDeferredWrite world0) (Ref filePtr)
       = [DeferredWrite aTxt [Byte.x62] 0 1] /\
     exists tr, tailRef aTxt = Some tr /\
       (true = true <-> queuedWrites (withDeferredWrite world0) tr <> [])) /\
  (exists st',
     FinishSyncLocked lsTok aTxt aTxt tt syncOfATxt (withSyncInfo world0)
       = Ret (false, None) st' /\
     queuedWrites (withSyncInfo world0) (Ref filePtr) = [] /\
     exists tr, tailRef aTxt = Some tr /\
       (false = true <-> queuedWrites (withSyncInfo world0) tr <> [])).
Proof.
  split.
  - eexists. split; [vm_compute; reflexivity|].
    split; [vm_compute; reflexivity|].
    refine (proj2 (FinishSyncLocked_stillDirty lsTok aTxt aTxt tt syncOfATxt
                     (withDeferredWrite world0) _ true None _) eq_refl).
    vm_compute. reflexivity.
  - eexists. split; [vm_compute; reflexivity|].
    split; [vm_compute; reflexivity|].
    refine (proj2 (FinishSyncLocked_stillDirty lsTok aTxt aTxt tt syncOfATxt
                     (withSyncInfo world0) _ false None _) eq_refl).
    vm_compute. reflexivity.
Defined.

(** An unrecoverable error reaches both listeners of [/a.txt]. *)
Lemma CleanupSyncState_notifies_witness :
  exists st',
    CleanupSyncState lsTok tt aTxt [] noSync (Some quotaExceeded)
      (mkEngine NotHeld {[filePtr := beingWritten]} world0) = Ret tt st' /\
    chans st' = {[0%nat := [quotaExceeded]; 1%nat := [quotaExceeded]]} /\
    exists tp,
      tailPointer aTxt = Some tp /\
      chans st' = notified quotaExceeded tp
                    (mkEngine NotHeld {[filePtr := beingWritten]} world0) /\
      (isRecoverableBlockError quotaExceeded = true ->
       chans st' = chans (mkEngine NotHeld {[filePtr := beingWritten]} world0)) /\
      (isRecoverableBlockError quotaExceeded = false ->
       forall df c,
         dirtyFiles (shared (mkEngine NotHeld {[filePtr := beingWritten]} world0))
           !! tp = Some df ->
         c ∈ errListeners df ->
         exists l, chans st' !! c = Some (l ++ [quotaExceeded])).
Proof.
  eexists. split; [vm_compute; reflexivity|].
  split; [vm_compute; reflexivity|].
  apply (CleanupSyncState_notifies lsTok tt aTxt [] noSync quotaExceeded
           (mkEngine NotHeld {[filePtr := beingWritten]} world0) _ tt).
  vm_compute. reflexivity.
Defined.

(** A recoverable error reaches nobody. *)
Example CleanupSyncState_recoverable_silent :
  exists st',
    CleanupSyncState lsTok tt aTxt [] noSync (Some blockDeleted)
      (mkEngine NotHeld {[filePtr := beingWritten]} world0) = Ret tt st' /\
    chans st' = ∅.
Proof. eexists. split; vm_compute; reflexivity. Qed.

(** [fd.write] and [fd.truncateShrink] fail after unreferencing a block:
    the unref is in the sync info of [/a.txt] when [writeDataLocked], and
    [truncateLocked], come back with the adapter's error. *)
Lemma adapter_unrefs_recorded_witness :
  (exists r st' w sh (s6 : State),
     writeDataLocked lsTok tt aTxt [Byte.x62] 0 failingAdapters = Ret r st' /\
     fdWrite lsTok aTxt "alice" tt [Byte.x62] 0 1%positive aTxtEntry
       (shared s6) = Ret w sh /\
     wErr w = Some quotaExceeded /\
     wUnrefs w = [oldUnref] /\
     r.2 = Some quotaExceeded /\
     unrefCache st' !! Ref filePtr = Some 1%positive /\
     unrefs <$> syncInfos st' !! 1%positive = Some ([] ++ wUnrefs w)) /\
  (exists r st' t sh (s6 : State),
     truncateLocked lsTok tt aTxt 10 failingAdapters = Ret r st' /\
     fdTruncateShrink lsTok aTxt "alice" tt 10 1%positive aTxtEntry
       (shared s6) = Ret t sh /\
     tErr t = Some quotaExceeded /\
     tUnrefs t = [oldUnref] /\
     r.2 = Some quotaExceeded /\
     unrefCache st' !! Ref filePtr = Some 1%positive /\
     unrefs <$> syncInfos st' !! 1%positive = Some ([] ++ tUnrefs t)).
Proof.
  split.
  - assert (Hs : match writeDataLocked lsTok tt aTxt [Byte.x62] 0
                         failingAdapters with
                 | Ret _ _ => true
                 | _ => false
                 end = true) by (vm_compute; reflexivity).
    destruct (writeDataLocked lsTok tt aTxt [Byte.x62] 0 failingAdapters)
      as [r st'| |] eqn:E; try discriminate Hs. clear Hs.
    destruct (proj1 (adapter_unrefs_recorded lsTok tt aTxt failingAdapters
                       st') [Byte.x62] 0 r E)
      as (j & s0 & g & s1 & Hj & Hg & H).
    vm_compute in Hj. injection Hj as <- <-.
    vm_compute in Hg. injection Hg as <- <-.
    destruct H as (c & s2 & Hc & H).
    vm_compute in Hc. injection Hc as <- <-.
    destruct H as (s3 & df & s4 & d & s5 & Hn & Hdf & Hd & H).
    vm_compute in Hn. injection Hn as <-.
    vm_compute in Hdf. injection Hdf as <- <-.
    vm_compute in Hd. injection Hd as <- <-.
    destruct H as (i & s6 & Hi & H).
    vm_compute in Hi. injection Hi as <- <-.
    destruct H as (w & sh & old & Hw & Hcache & Hold & Hu & He).
    injection Hold as <-.
    assert (Hw' := Hw). vm_compute in Hw'. injection Hw' as <- _.
    eexists r, st', _, sh, _. split; [reflexivity|].
    split; [exact Hw|]. split; [reflexivity|]. split; [reflexivity|].
    split; [exact (He _ eq_refl)|]. split; [exact Hcache|exact Hu].
  - assert (Hs : match truncateLocked lsTok tt aTxt 10 failingAdapters with
                 | Ret _ _ => true
                 | _ => false
                 end = true) by (vm_compute; reflexivity).
    destruct (truncateLocked lsTok tt aTxt 10 failingAdapters)
      as [r st'| |] eqn:E; try discriminate Hs. clear Hs.
    destruct (proj2 (adapter_unrefs_recorded lsTok tt aTxt failingAdapters
                       st') 10 r E)
      as (j & s0 & g & s1 & Hj & Hg & H).
    vm_compute in Hj. injection Hj as <- <-.
    vm_compute in Hg. injection Hg as <- <-.
    destruct H as (c & s2 & Hc & H).
    vm_compute in Hc. injection Hc as <- <-.
    destruct H as (s3 & o & sh4 & Hn & Ho & H).
    vm_compute in Hn. injection Hn as <-.
    vm_compute in Ho. injection Ho as <- <-.
    destruct H as (n & Hlen & H).
    vm_compute in Hlen. injection Hlen as <-.
    destruct (H eq_refl) as (d & s5 & Hd & H'). clear H.
    vm_compute in Hd. injection Hd as <- <-.
    destruct H' as (i & s6 & Hi & H).
    vm_compute in Hi. injection Hi as <- <-.
    destruct H as (t & sh & old & Ht & Hcache & Hold & Hu & He).
    injection Hold as <-.
    assert (Ht' := Ht). vm_compute in Ht'. injection Ht' as <- _.
    eexists r, st', _, sh, _. split; [reflexivity|].
    split; [exact Ht|]. split; [reflexivity|]. split; [reflexivity|].
    split; [exact (He _ eq_refl)|]. split; [exact Hcache|exact Hu].
Defined.

(** What the sync info holds after the failed write and after the failed
    shrink. *)
Example writeDataLocked_failed_write_unrefs :
  exists r st',
    writeDataLocked lsTok tt aTxt [Byte.x62] 0 failingAdapters = Ret r st' /\
    r = (zeroWriteRange, [], 100, Some quotaExceeded) /\
    unrefs <$> syncInfos st' !! 1%positive = Some [oldUnref].
Proof.
  eexists _, _. split; [vm_compute; reflexivity|].
  split; vm_compute; reflexivity.
Qed.

Example truncateLocked_failed_shrink_unrefs :
  exists r st',
    truncateLocked lsTok tt aTxt 10 failingAdapters = Ret r st' /\
    r = (None, [], 0, Some quotaExceeded) /\
    unrefs <$> syncInfos st' !! 1%positive = Some [oldUnref].
Proof.
  eexists _, _. split; [vm_compute; reflexivity|].
  split; vm_compute; reflexivity.
Qed.

Lemma RenameDirEntryInCache_noop_witness :
  RenameDirEntryInCache lsTok tt rootDir "a.txt" rootDir "a.txt" aTxtEntry
    zeroDirEntry (mkEngine NotHeld ∅ world0)
    = Ret (None, None) (mkEngine NotHeld ∅ world0).
Proof.
  apply (RenameDirEntryInCache_noop lsTok tt rootDir rootDir "a.txt" aTxtEntry
           zeroDirEntry rootPtr (mkEngine NotHeld ∅ world0));
    reflexivity.
Defined.

Lemma FastForwardAllNodes_empty_witness :
  FastForwardAllNodes 0 lsTok tt (mkEngine NotHeld ∅ world0)
    = Ret ([], [], None) (mkEngine NotHeld ∅ world0).
Proof.
  apply (FastForwardAllNodes_empty 0 lsTok tt (mkEngine NotHeld ∅ world0)).
  - right. exists []. split; reflexivity.
  - right. split; reflexivity.
Defined.
